(** * A verified model of the wallet ledger (wallet.py)

    The development embeds the record store of [wallet.py]: the [Record]
    value object, the date validator and the file-backed [Wallet].  Python
    values are modelled by a small universe of dynamic values, exceptions by
    an error type, and the file system by a finite map from paths to what
    they hold.

    Modelling decisions.  A path of the file system holds a text file, a
    file that is not UTF-8, or something [open] refuses; a writer that is
    stopped by an exception leaves the file with what it had written.  The
    methods that change the wallet return the wallet after the call also
    when they raise, since the list of records is changed before the file
    is written.  [str] of an integer of more than 4300 digits raises
    [ValueError], as CPython does from version 3.11 on by default.  The
    builtins [str.lower], [repr] of a float, [json.load], [json.dump] and
    the table of Unicode decimal digits are parameters; [strptime], [int],
    [sum] and the arithmetic of [int] and [float] are defined.  The menu
    [main] runs on a terminal given by the lines still to read and the
    texts written, and writing to the terminal always succeeds; its
    builtins [float] and [int] on a text are parameters. *)

From Stdlib Require Import ZArith NArith List Bool Lia Floats.
From Stdlib Require Import Strings.String Strings.Ascii Numbers.DecimalString.
From Stdlib Require DecimalFacts DecimalPos.
From stdpp Require Import gmap list.

Local Open Scope Z_scope.

(** ** Python strings

    A Python [str] is a sequence of Unicode code points. *)

Definition char := N.
Definition str := list char.

(** Decoding of the UTF-8 bytes of a source literal into code points:
    [pending] continuation bytes are still expected for the code point
    accumulated in [acc]. *)
Fixpoint utf8_go (pending : nat) (acc : N) (bs : list N) : str :=
  match bs with
  | [] => []
  | b :: bs' =>
      match pending with
      | O =>
          if (b <? 128)%N then b :: utf8_go 0 0%N bs'
          else if (b <? 224)%N then utf8_go 1 (b mod 32)%N bs'
          else if (b <? 240)%N then utf8_go 2 (b mod 16)%N bs'
          else utf8_go 3 (b mod 8)%N bs'
      | S O => (acc * 64 + b mod 64)%N :: utf8_go 0 0%N bs'
      | S p => utf8_go p (acc * 64 + b mod 64)%N bs'
      end
  end.

(** [lit s] is the Python string spelled by the literal [s] of the source
    file. *)
Definition lit (s : string) : str :=
  utf8_go 0 0%N (List.map N_of_ascii (list_ascii_of_string s)).

Definition str_eqb (a b : str) : bool := bool_decide (a = b).

(** [a.startswith] in the sense used by the substring search. *)
Fixpoint starts_with (b a : str) {struct a} : bool :=
  match a, b with
  | [], _ => true
  | _ :: _, [] => false
  | x :: a', y :: b' => N.eqb x y && starts_with b' a'
  end.

(** The Python operator [a in b] on strings: [a] occurs in [b] as a
    contiguous substring. *)
Fixpoint str_in (a b : str) : bool :=
  starts_with b a ||
  match b with
  | [] => false
  | _ :: b' => str_in a b'
  end.

(** ** Exceptions and results *)

Inductive exn :=
| TypeError
| KeyError (key : str)
| ValueError
| OverflowError
| FileNotFoundError
| JSONDecodeError
| UnicodeDecodeError
| UnicodeEncodeError
| RecursionError
| OSError.

Inductive result (A : Type) :=
| Ok (a : A)
| Raise (e : exn).
Arguments Ok {A} a.
Arguments Raise {A} e.

Definition rbind {A B} (m : result A) (k : A -> result B) : result B :=
  match m with
  | Ok a => k a
  | Raise e => Raise e
  end.

Declare Scope result_scope.
Delimit Scope result_scope with result.
Notation "'let*' x ':=' m 'in' k" := (rbind m (fun x => k))
  (at level 10, x name, m at level 100, k at level 200) : result_scope.

#[local] Set Warnings "-register-all".

(** ** Dynamic values

    The values that can reach the ledger: what a caller passes to the
    [Record] constructor and what [json.load] produces. *)

Inductive value :=
| VNone
| VBool (b : bool)
| VInt (z : Z)
| VFloat (f : float)
| VStr (s : str)
| VList (l : list value)
| VDict (d : list (str * value)).

(** The runtime classes of the values above. *)
Inductive pytype := TNoneType | Tbool | Tint | Tfloat | Tstr | Tlist | Tdict.

Definition type_of (v : value) : pytype :=
  match v with
  | VNone => TNoneType
  | VBool _ => Tbool
  | VInt _ => Tint
  | VFloat _ => Tfloat
  | VStr _ => Tstr
  | VList _ => Tlist
  | VDict _ => Tdict
  end.

Definition pytype_eqb (a b : pytype) : bool :=
  match a, b with
  | TNoneType, TNoneType | Tbool, Tbool | Tint, Tint | Tfloat, Tfloat
  | Tstr, Tstr | Tlist, Tlist | Tdict, Tdict => true
  | _, _ => false
  end.

(** [issubclass]: every class is a subclass of itself, and [bool] is a
    subclass of [int]. *)
Definition issubclass (a b : pytype) : bool :=
  pytype_eqb a b ||
  match a, b with
  | Tbool, Tint => true
  | _, _ => false
  end.

(** [isinstance(v, (t1, ..., tn))]. *)
Definition isinstance (v : value) (ts : list pytype) : bool :=
  existsb (issubclass (type_of v)) ts.

(** ** Numbers

    The values for which [isinstance(v, (int, float))] holds. *)

Inductive number :=
| NBool (b : bool)
| NInt (z : Z)
| NFloat (f : float).

Definition value_of_number (n : number) : value :=
  match n with
  | NBool b => VBool b
  | NInt z => VInt z
  | NFloat f => VFloat f
  end.

Definition number_of_value (v : value) : option number :=
  match v with
  | VBool b => Some (NBool b)
  | VInt z => Some (NInt z)
  | VFloat f => Some (NFloat f)
  | _ => None
  end.

(** The integer a [bool] or [int] denotes. *)
Definition int_of_bool (b : bool) : Z := if b then 1 else 0.

(** [float(z)] for an integer: round to nearest, ties to even;
    [OverflowError] when the rounded value is not finite. *)
Definition float_of_int (z : Z) : result float :=
  match binary_normalize prec emax z 0 false with
  | S754_infinity _ => Raise OverflowError
  | sf => Ok (SF2Prim sf)
  end.

Inductive binop := Add | Sub.

Definition int_op (op : binop) (a b : Z) : Z :=
  match op with Add => a + b | Sub => a - b end.

Definition float_op (op : binop) (a b : float) : float :=
  match op with Add => PrimFloat.add a b | Sub => PrimFloat.sub a b end.

(** Binary [+] and [-] on numbers: integer arithmetic when both operands
    are [int] (or [bool]), otherwise the integer operand is converted to
    [float] first. *)
Definition num_op (op : binop) (a b : number) : result number :=
  let as_int n := match n with
                  | NBool b => Some (int_of_bool b)
                  | NInt z => Some z
                  | NFloat _ => None
                  end in
  let as_float n := match n with
                    | NBool b => float_of_int (int_of_bool b)
                    | NInt z => float_of_int z
                    | NFloat f => Ok f
                    end in
  match as_int a, as_int b with
  | Some x, Some y => Ok (NInt (int_op op x y))
  | _, _ =>
      (let* x := as_float a in
       let* y := as_float b in
       Ok (NFloat (float_op op x y)))%result
  end.

Definition py_add := num_op Add.
Definition py_sub := num_op Sub.

(** The builtin [sum(xs)]: a left fold of [+] from the integer [0]. *)
Fixpoint sum_from (acc : number) (xs : list number) : result number :=
  match xs with
  | [] => Ok acc
  | x :: xs' => (let* acc' := py_add acc x in sum_from acc' xs')%result
  end.

Definition py_sum (xs : list number) : result number := sum_from (NInt 0) xs.

(** The decimal numeral of an integer. *)
Definition str_of_int (z : Z) : str :=
  lit (NilZero.string_of_int (Z.to_int z)).

(** The longest numeral [str] writes: CPython refuses to convert an
    integer of more decimal digits
    ([sys.int_info.default_max_str_digits]). *)
Definition MAX_STR_DIGITS : Z := 4300.

Definition too_long (z : Z) : bool := 10 ^ MAX_STR_DIGITS <=? Z.abs z.

(** [str(z)] and [repr(z)] for an integer: its decimal numeral, or
    [ValueError] when it has more than [MAX_STR_DIGITS] digits. *)
Definition int_str (z : Z) : result str :=
  if too_long z then Raise ValueError else Ok (str_of_int z).

(** ** Record *)

Record record := mkRecord {
  date : str;
  category : str;
  amount : number;
  description : str
}.

(** [Record.__init__]: the four [isinstance] guards, then the fields are
    stored as given.  The record type keeps the checked classes, so the
    last branch of the match is the one the guard has excluded. *)
Definition Record_init (date category amount description : value)
  : result record :=
  if negb (isinstance date [Tstr]) || negb (isinstance category [Tstr]) ||
     negb (isinstance amount [Tint; Tfloat]) ||
     negb (isinstance description [Tstr])
  then Raise TypeError
  else
    match date, category, number_of_value amount, description with
    | VStr d, VStr c, Some a, VStr s => Ok (mkRecord d c a s)
    | _, _, _, _ => Raise TypeError
    end.

(** [Record.to_dict]: a dictionary is kept as its items in insertion
    order. *)
Definition to_dict (self : record) : value :=
  VDict [ (lit "date", VStr (date self));
          (lit "category", VStr (category self));
          (lit "amount", value_of_number (amount self));
          (lit "description", VStr (description self)) ].

Fixpoint dict_get (d : list (str * value)) (key : str) : option value :=
  match d with
  | [] => None
  | (k, v) :: d' => if str_eqb k key then Some v else dict_get d' key
  end.

(** The subscription [data[key]] with a string key: a dictionary looks
    the key up and raises [KeyError] when it is absent; no other class of
    value accepts a string subscript. *)
Definition getitem (data : value) (key : str) : result value :=
  match data with
  | VDict d =>
      match dict_get d key with
      | Some v => Ok v
      | None => Raise (KeyError key)
      end
  | _ => Raise TypeError
  end.

(** [Record.from_dict]: the four subscriptions are evaluated left to
    right before the constructor is called. *)
Definition from_dict (data : value) : result record :=
  (let* d := getitem data (lit "date") in
   let* c := getitem data (lit "category") in
   let* a := getitem data (lit "amount") in
   let* s := getitem data (lit "description") in
   Record_init d c a s)%result.

(** ** State and effects

    A computation on a state of type [S] reads and updates the state and
    either returns or raises. *)

Definition st (S A : Type) : Type := S -> result A * S.

Definition ret {S A} (a : A) : st S A := fun s => (Ok a, s).
Definition raise {S A} (e : exn) : st S A := fun s => (Raise e, s).
Definition lift {S A} (r : result A) : st S A := fun s => (r, s).

Definition bind {S A B} (m : st S A) (k : A -> st S B) : st S B :=
  fun s =>
    match m s with
    | (Ok a, s') => k a s'
    | (Raise e, s') => (Raise e, s')
    end.

Declare Scope io_scope.
Delimit Scope io_scope with io.
Notation "'let*' x ':=' m 'in' k" := (bind m (fun x => k))
  (at level 10, x name, m at level 100, k at level 200) : io_scope.

(** [try: body except ...]: [handler e] is the clause that catches [e],
    if there is one. *)
Definition try_except {S A} (body : st S A) (handler : exn -> option (st S A))
  : st S A :=
  fun s =>
    match body s with
    | (Ok a, s') => (Ok a, s')
    | (Raise e, s') =>
        match handler e with
        | Some h => h s'
        | None => (Raise e, s')
        end
    end.

(** ** The file system

    What a path holds: a file that is UTF-8 text, a file whose bytes are
    not UTF-8, or something [open] refuses with the exception [e], for
    reading and for writing alike (a directory or a file the process may
    not open, with an [OSError]; a path under a directory that does not
    exist, with [FileNotFoundError]).  A path outside the domain of the
    map is a file that does not exist in a directory that does. *)

Inductive node :=
| Text (text : str)
| Binary
| Blocked (e : exn).

Definition fsys : Type := gmap str node.

Definition io (A : Type) : Type := st fsys A.

(** [open(path, 'r', encoding='utf-8')] followed by reading the whole
    file. *)
Definition read_file (path : str) : io str :=
  fun fs =>
    match fs !! path with
    | Some (Text text) => (Ok text, fs)
    | Some Binary => (Raise UnicodeDecodeError, fs)
    | Some (Blocked e) => (Raise e, fs)
    | None => (Raise FileNotFoundError, fs)
    end.

(** [open(path, 'w', encoding='utf-8')] followed by a writer that writes
    [written] and then returns, or is stopped by the exception [stopped]:
    opening creates or empties the file, and the file is closed with what
    was written. *)
Definition write_file (path : str) (written : str) (stopped : option exn)
  : io unit :=
  fun fs =>
    match fs !! path with
    | Some (Blocked e) => (Raise e, fs)
    | _ =>
        (match stopped with
         | None => Ok tt
         | Some e => Raise e
         end, <[path := Text written]> fs)
    end.

(** The terminal output: the texts written so far.  [print(text)] writes
    the text and a newline. *)
Definition nl : str := [10%N].

Definition print_out (text : str) : st (list str) unit :=
  fun out => (Ok tt, out ++ [text ++ nl]).

(** Iteration over a value, as a [for] clause does it: a list yields its
    elements, a dictionary its keys, a string its characters; the other
    classes are not iterable. *)
Definition py_iter (v : value) : result (list value) :=
  match v with
  | VList l => Ok l
  | VDict d => Ok (List.map (fun kv => VStr (fst kv)) d)
  | VStr s => Ok (List.map (fun c => VStr [c]) s)
  | _ => Raise TypeError
  end.

(** The list comprehension [[f(x) for x in xs]] with a fallible [f]. *)
Fixpoint comprehension {A B} (f : A -> result B) (xs : list A)
  : result (list B) :=
  match xs with
  | [] => Ok []
  | x :: xs' =>
      (let* y := f x in
       let* ys := comprehension f xs' in
       Ok (y :: ys))%result
  end.

(** The list comprehension [[x for x in xs if f(x)]] with a fallible
    condition: the elements are tried in order, and the first exception
    ends the comprehension. *)
Fixpoint comprehension_if {A} (f : A -> result bool) (xs : list A)
  : result (list A) :=
  match xs with
  | [] => Ok []
  | x :: xs' =>
      (let* keep := f x in
       let* ys := comprehension_if f xs' in
       Ok (if keep then x :: ys else ys))%result
  end.

(** ** Wallet *)

Record wallet := mkWallet {
  filename : str;
  records : list record
}.

Definition set_records (self : wallet) (rs : list record) : wallet :=
  {| filename := filename self; records := rs |}.

(** The two category labels of [display_balance]. *)
Definition income_label : str := lit "доход".
Definition expense_label : str := lit "расход".

Section Ledger.

(** The builtins of the Python runtime that the ledger calls and whose
    tables are not part of the program. *)

(** [str.lower]. *)
Variable lower : str -> str.
(** [str(x)] for a [float]. *)
Variable float_repr : float -> str.
(** [json.load] on the text of a file: the value, or the exception it
    raises ([json.JSONDecodeError] on a text that is not JSON,
    [RecursionError] on one nested too deeply, [ValueError] on an integer
    literal beyond the digit limit). *)
Variable json_loads : str -> result value.
(** [json.dump(v, f, ensure_ascii=False, indent=4)]: the text it writes to
    [f], and the exception that stops it, if one does ([ValueError] at an
    integer beyond the digit limit, [UnicodeEncodeError] at a text that
    UTF-8 cannot encode); the text is then what was written before. *)
Variable json_dumps : value -> str * option exn.

(** [str(x)] for a number. *)
Definition py_str (x : number) : result str :=
  match x with
  | NBool true => Ok (lit "True")
  | NBool false => Ok (lit "False")
  | NInt z => int_str z
  | NFloat f => Ok (float_repr f)
  end.

(** [Record.__str__]. *)
Definition Record_str (self : record) : result str :=
  (let* a := py_str (amount self) in
   Ok (date self ++ lit " - " ++ category self ++ lit " - " ++
       a ++ lit " - " ++ description self))%result.

(** [Wallet.save_records]. *)
Definition save_records (self : wallet) : io unit :=
  let dumped := json_dumps (VList (List.map to_dict (records self))) in
  write_file (filename self) (fst dumped) (snd dumped).

(** [Wallet.load_records]: the clauses catch [FileNotFoundError] and
    [json.JSONDecodeError] and nothing else. *)
Definition load_records (self : wallet) : io wallet :=
  try_except
    (let* text := read_file (filename self) in
     let* data := lift (json_loads text) in
     let* items := lift (py_iter data) in
     let* rs := lift (comprehension from_dict items) in
     ret (set_records self rs))%io
    (fun e =>
       match e with
       | FileNotFoundError => Some (ret (set_records self []))
       | JSONDecodeError => Some (ret (set_records self []))
       | _ => None
       end).

(** [Wallet.__init__]. *)
Definition Wallet_init (filename : str) : io wallet :=
  load_records {| filename := filename; records := [] |}.

(** The methods that change the wallet give the result of the call, the
    wallet after the call and the file system after the call: the list of
    records is changed before the file is written, so it stays changed
    when writing raises. *)

(** [Wallet.add_record]. *)
Definition add_record (self : wallet) (r : record) (fs : fsys)
  : result unit * wallet * fsys :=
  let self' := set_records self (records self ++ [r]) in
  let saved := save_records self' fs in
  (fst saved, self', snd saved).

(** [Wallet.edit_record]. *)
Definition edit_record (self : wallet) (index : Z) (new_record : record)
    (fs : fsys) : result bool * wallet * fsys :=
  if (0 <=? index) && (index <? Z.of_nat (length (records self))) then
    let self' :=
      set_records self (<[Z.to_nat index := new_record]> (records self)) in
    let saved := save_records self' fs in
    ((let* _ := fst saved in Ok true)%result, self', snd saved)
  else (Ok false, self, fs).

(** The condition of [find_records] on one record: the disjunction is
    evaluated from the left and stops at the first true operand, so the
    amount is only converted when the description and the category do
    not hold the term. *)
Definition found (search_term : str) (r : record) : result bool :=
  if str_in (lower search_term) (lower (description r)) then Ok true
  else if str_in (lower search_term) (lower (category r)) then Ok true
  else
    (let* a := py_str (amount r) in
     Ok (str_in (lower search_term) (lower a) ||
         str_eqb (lower search_term) (lower (date r))))%result.

(** [Wallet.find_records]. *)
Definition find_records (self : wallet) (search_term : str)
  : result (list record) :=
  comprehension_if (found search_term) (records self).

(** [Wallet.remove_record]. *)
Definition remove_record (self : wallet) (index : Z) (fs : fsys)
  : result bool * wallet * fsys :=
  if (0 <=? index) && (index <? Z.of_nat (length (records self))) then
    let self' := set_records self (delete (Z.to_nat index) (records self)) in
    let saved := save_records self' fs in
    ((let* _ := fst saved in Ok true)%result, self', snd saved)
  else (Ok false, self, fs).

(** [Wallet.display_balance], on the terminal output: the two sums, the
    difference, the f-string and [print]. *)
Definition display_balance (self : wallet) : st (list str) unit :=
  (let* income :=
     lift (py_sum (List.map amount
                     (List.filter
                        (fun r => str_eqb (lower (category r)) income_label)
                        (records self)))) in
   let* expense :=
     lift (py_sum (List.map amount
                     (List.filter
                        (fun r => str_eqb (lower (category r)) expense_label)
                        (records self)))) in
   let* balance := lift (py_sub income expense) in
   let* b := lift (py_str balance) in
   let* i := lift (py_str income) in
   let* e := lift (py_str expense) in
   print_out (nl ++ lit "Баланс: " ++ b ++ nl ++
              lit "Доходы: " ++ i ++ nl ++
              lit "Расходы: " ++ e))%io.

End Ledger.

(** ** The date validator

    [validate_date] calls [datetime.datetime.strptime(date_text,
    '%Y-%m-%d')] of the standard library.  [strptime] compiles the format
    to a regular expression with one named group per directive, matches it
    at the start of the text, demands that the match covers the whole
    text, converts the groups with [int] and builds the date, which
    checks the calendar. *)

Definition ch (a : ascii) : char := N_of_ascii a.

(** The fragment of regular expressions the compiled format uses. *)
Inductive regex :=
| Chr (c : char)                (* a literal character *)
| Rng (lo hi : char)            (* the class [lo-hi] *)
| Dig                           (* the class \d *)
| Cat (r1 r2 : regex)           (* r1 r2 *)
| Alt (r1 r2 : regex)           (* r1|r2 *)
| Grp (name : str) (r : regex). (* (?P<name>r) *)

(** One way to match: the named groups, the text matched, the text left. *)
Definition rmatch_result : Type := list (str * str) * str * str.

Definition is_leap (year : Z) : bool :=
  (year mod 4 =? 0) && (negb (year mod 100 =? 0) || (year mod 400 =? 0)).

Definition DAYS_IN_MONTH : list Z :=
  [-1; 31; 28; 31; 30; 31; 30; 31; 31; 30; 31; 30; 31].

Definition days_in_month (year month : Z) : Z :=
  if (month =? 2) && is_leap year then 29
  else nth (Z.to_nat month) DAYS_IN_MONTH 0.

Definition MINYEAR : Z := 1.
Definition MAXYEAR : Z := 9999.

(** The field check of the [date] constructor. *)
Definition check_date_fields (year month day : Z) : result (Z * Z * Z) :=
  if negb ((MINYEAR <=? year) && (year <=? MAXYEAR)) then Raise ValueError
  else if negb ((1 <=? month) && (month <=? 12)) then Raise ValueError
  else if negb ((1 <=? day) && (day <=? days_in_month year month))
  then Raise ValueError
  else Ok (year, month, day).

Definition is_space (c : char) : bool := N.eqb c (ch " ").

Fixpoint lstrip (s : str) : str :=
  match s with
  | c :: s' => if is_space c then lstrip s' else s
  | [] => []
  end.

Definition strip (s : str) : str := rev (lstrip (rev (lstrip s))).

Section DateValidator.

(** The decimal value of a Unicode decimal digit (category Nd), [None]
    for every other character: the class \d matches the characters
    that have one, and [int] reads them. *)
Variable decimal : char -> option Z.

(** All the ways [r] matches a prefix of [s], in the order in which the
    backtracking matcher tries them. *)
Fixpoint rmatch (r : regex) (s : str) : list rmatch_result :=
  match r with
  | Chr c =>
      match s with
      | x :: s' => if N.eqb x c then [([], [x], s')] else []
      | [] => []
      end
  | Rng lo hi =>
      match s with
      | x :: s' =>
          if (lo <=? x)%N && (x <=? hi)%N then [([], [x], s')] else []
      | [] => []
      end
  | Dig =>
      match s with
      | x :: s' =>
          match decimal x with
          | Some _ => [([], [x], s')]
          | None => []
          end
      | [] => []
      end
  | Cat r1 r2 =>
      flat_map
        (fun m1 : rmatch_result =>
           let '(g1, t1, s1) := m1 in
           List.map
             (fun m2 : rmatch_result =>
                let '(g2, t2, s2) := m2 in (g1 ++ g2, t1 ++ t2, s2))
             (rmatch r2 s1))
        (rmatch r1 s)
  | Alt r1 r2 => rmatch r1 s ++ rmatch r2 s
  | Grp name r' =>
      List.map
        (fun m : rmatch_result =>
           let '(g, t, s') := m in ((name, t) :: g, t, s'))
        (rmatch r' s)
  end.

(** [int(text)] for a text of decimal digits between optional spaces,
    which is all a group of the pattern can hold. *)
Fixpoint digits_value (acc : Z) (s : str) : result Z :=
  match s with
  | [] => Ok acc
  | c :: s' =>
      match decimal c with
      | Some d => digits_value (10 * acc + d) s'
      | None => Raise ValueError
      end
  end.

Definition py_int (text : str) : result Z :=
  match strip text with
  | [] => Raise ValueError
  | digits => digits_value 0 digits
  end.

Definition group (groups : list (str * str)) (name : str) : result str :=
  match List.find (fun g => str_eqb (fst g) name) groups with
  | Some g => Ok (snd g)
  | None => Raise (KeyError name)
  end.

(** The patterns of the directives [%Y], [%m] and [%d], and the pattern
    [strptime] compiles ['%Y-%m-%d'] to. *)
Definition directive_Y : regex :=
  Grp (lit "Y") (Cat Dig (Cat Dig (Cat Dig Dig))).

Definition directive_m : regex :=
  Grp (lit "m")
    (Alt (Cat (Chr (ch "1")) (Rng (ch "0") (ch "2")))
    (Alt (Cat (Chr (ch "0")) (Rng (ch "1") (ch "9")))
         (Rng (ch "1") (ch "9")))).

Definition directive_d : regex :=
  Grp (lit "d")
    (Alt (Cat (Chr (ch "3")) (Rng (ch "0") (ch "1")))
    (Alt (Cat (Rng (ch "1") (ch "2")) Dig)
    (Alt (Cat (Chr (ch "0")) (Rng (ch "1") (ch "9")))
    (Alt (Rng (ch "1") (ch "9"))
         (Cat (Chr (ch " ")) (Rng (ch "1") (ch "9"))))))).

Definition month_day_regex : regex :=
  Cat (Chr (ch "-")) (Cat directive_m (Cat (Chr (ch "-")) directive_d)).

Definition format_regex : regex := Cat directive_Y month_day_regex.

(** [datetime.datetime.strptime(data_string, '%Y-%m-%d')], as the date
    it returns. *)
Definition strptime (data_string : str) : result (Z * Z * Z) :=
  match rmatch format_regex data_string with
  | [] => Raise ValueError
  | (groups, _, rest) :: _ =>
      match rest with
      | _ :: _ => Raise ValueError
      | [] =>
          (let* y := group groups (lit "Y") in
           let* year := py_int y in
           let* m := group groups (lit "m") in
           let* month := py_int m in
           let* d := group groups (lit "d") in
           let* day := py_int d in
           check_date_fields year month day)%result
      end
  end.

(** [validate_date]: the clause [except ValueError] catches [ValueError]
    and its subclasses; any other exception leaves the function. *)
Definition validate_date (date_text : str) : result bool :=
  match strptime date_text with
  | Ok _ => Ok true
  | Raise ValueError | Raise JSONDecodeError
  | Raise UnicodeDecodeError | Raise UnicodeEncodeError => Ok false
  | Raise e => Raise e
  end.

End DateValidator.

(** The digit table restricted to the ASCII digits. *)
Definition ascii_decimal (c : char) : option Z :=
  if (48 <=? c)%N && (c <=? 57)%N then Some (Z.of_N c - 48) else None.

(** ** The menu

    [main] talks to a terminal.  The terminal is the list of lines still
    to be read and the list of the texts written so far; [print] writes a
    text and a newline, [input] writes its prompt and takes the next line,
    and raises [EOFError] when there is none.  The loop [while True] is
    run for a bounded number of rounds; each round reads a line, so a
    bound above the number of lines is never reached. *)

Inductive outcome (A : Type) :=
| Done (a : A)
| Failed (e : exn)
| EndOfInput
| OutOfFuel.
Arguments Done {A} a.
Arguments Failed {A} e.
Arguments EndOfInput {A}.
Arguments OutOfFuel {A}.

Record world := mkWorld {
  disk : fsys;
  stdin : list str;
  stdout : list str
}.

Definition prog (A : Type) : Type := world -> outcome A * world.

Definition pret {A} (a : A) : prog A := fun w => (Done a, w).

Definition pbind {A B} (m : prog A) (k : A -> prog B) : prog B :=
  fun w =>
    match m w with
    | (Done a, w') => k a w'
    | (Failed e, w') => (Failed e, w')
    | (EndOfInput, w') => (EndOfInput, w')
    | (OutOfFuel, w') => (OutOfFuel, w')
    end.

Declare Scope prog_scope.
Delimit Scope prog_scope with prog.
Notation "'let*' x ':=' m 'in' k" := (pbind m (fun x => k))
  (at level 10, x name, m at level 100, k at level 200) : prog_scope.

(** [print(text)]. *)
Definition print (text : str) : prog unit :=
  fun w => (Done tt, mkWorld (disk w) (stdin w) (stdout w ++ [text ++ nl])).

(** [input(prompt)]. *)
Definition input (prompt : str) : prog str :=
  fun w =>
    match stdin w with
    | [] => (EndOfInput, mkWorld (disk w) [] (stdout w ++ [prompt]))
    | line :: lines =>
        (Done line, mkWorld (disk w) lines (stdout w ++ [prompt]))
    end.

(** A computation on the file system run at the terminal. *)
Definition run_io {A} (m : io A) : prog A :=
  fun w =>
    match m (disk w) with
    | (Ok a, fs) => (Done a, mkWorld fs (stdin w) (stdout w))
    | (Raise e, fs) => (Failed e, mkWorld fs (stdin w) (stdout w))
    end.

Definition run_result {A} (r : result A) : prog A := run_io (lift r).

(** A computation on the terminal output, and a call of a method that
    changes the wallet, run at the terminal. *)
Definition run_out {A} (m : st (list str) A) : prog A :=
  fun w =>
    match m (stdout w) with
    | (Ok a, out) => (Done a, mkWorld (disk w) (stdin w) out)
    | (Raise e, out) => (Failed e, mkWorld (disk w) (stdin w) out)
    end.

Definition run_call {A} (call : fsys -> result A * wallet * fsys)
  : prog (A * wallet) :=
  fun w =>
    match call (disk w) with
    | (Ok a, self, fs) => (Done (a, self), mkWorld fs (stdin w) (stdout w))
    | (Raise e, _, fs) => (Failed e, mkWorld fs (stdin w) (stdout w))
    end.

(** The texts of the menu. *)
Definition MENU : str :=
  nl ++ lit "1. Показать баланс" ++ nl ++ lit "2. Добавить запись" ++ nl ++
  lit "3. Редактировать запись" ++ nl ++ lit "4. Поиск по записям" ++ nl ++
  lit "5. Выход".
Definition ASK_CHOICE : str := lit "Выберите действие: ".
Definition ASK_ADD_DATE : str :=
  nl ++ lit "Добавление записи:" ++ nl ++ lit "Дата (YYYY-MM-DD): ".
Definition ASK_DATE : str := lit "Дата (YYYY-MM-DD): ".
Definition BAD_DATE : str :=
  lit "Неверный формат даты. Пожалуйста, используйте формат YYYY-MM-DD.".
Definition ASK_CATEGORY : str := lit "Категория (Доход/Расход): ".
Definition ASK_AMOUNT : str := lit "Сумма: ".
Definition BAD_AMOUNT : str :=
  lit "Неверный формат суммы. Пожалуйста, введите число.".
Definition ASK_DESCRIPTION : str := lit "Описание: ".
Definition ADDED : str := lit "Запись добавлена.".
Definition ASK_INDEX : str :=
  nl ++ lit "Введите номер записи для редактирования: ".
Definition BAD_INDEX : str :=
  lit "Неверный формат номера записи. Пожалуйста, введите число.".
Definition ASK_NEW_DATE : str := lit "Новая дата (YYYY-MM-DD): ".
Definition ASK_NEW_CATEGORY : str := lit "Новая категория (Доход/Расход): ".
Definition ASK_NEW_AMOUNT : str := lit "Новая сумма: ".
Definition ASK_NEW_DESCRIPTION : str := lit "Новое описание: ".
Definition UPDATED : str := lit "Запись обновлена.".
Definition EDIT_FAILED : str := lit "Ошибка: запись не найдена.".
Definition NO_SUCH_RECORD : str := lit "Запись с таким номером не найдена.".
Definition ASK_TERM : str :=
  lit "Введите критерий поиска (дата, категория, сумма, описание): ".
Definition NOTHING_FOUND : str := lit "Записи не найдены.".
Definition BYE : str := lit "Выход из программы.".
Definition BAD_CHOICE : str :=
  lit "Неверный выбор. Пожалуйста, попробуйте снова.".

Section Menu.

Variable lower : str -> str.
Variable float_repr : float -> str.
Variable json_loads : str -> result value.
Variable json_dumps : value -> str * option exn.
Variable decimal : char -> option Z.
(** [float(text)] and [int(text)]; [None] stands for [ValueError]. *)
Variable float_of_str : str -> option float.
Variable int_of_str : str -> option Z.

(** The call [wallet.display_balance()]. *)
Definition show_balance (self : wallet) : prog unit :=
  run_out (display_balance lower float_repr self).

(** The loop [while not validate_date(date): print(...); date =
    input(prompt)], on the lines to read and the texts written. *)
Fixpoint date_loop (prompt date : str) (lines out : list str)
  : outcome str * list str * list str :=
  match validate_date decimal date with
  | Raise e => (Failed e, lines, out)
  | Ok true => (Done date, lines, out)
  | Ok false =>
      match lines with
      | [] => (EndOfInput, [], out ++ [BAD_DATE ++ nl; prompt])
      | line :: lines' =>
          date_loop prompt line lines' (out ++ [BAD_DATE ++ nl; prompt])
      end
  end.

Definition ask_valid_date (prompt date : str) : prog str :=
  fun w =>
    let '(r, lines, out) := date_loop prompt date (stdin w) (stdout w) in
    (r, mkWorld (disk w) lines out).

(** The line printed for a found record.  [indexOf(found_records,
    record)] compares with [==], which for records is identity, and the
    records of the wallet are distinct objects, so it is the position of
    the record in the list of the found ones; a position has far fewer
    digits than [str] refuses. *)
Definition found_line (position : nat) (r : record) : result str :=
  (let* a := py_str float_repr (amount r) in
   Ok (str_of_int (Z.of_nat position) ++ lit " - " ++ date r ++ lit " - " ++
       category r ++ lit " - " ++ a ++ lit " - " ++ description r))%result.

Fixpoint print_found (position : nat) (found : list record) : prog unit :=
  match found with
  | [] => pret tt
  | r :: found' =>
      (let* line := run_result (found_line position r) in
       let* _ := print line in
       print_found (S position) found')%prog
  end.

(** One round of the loop of [main]: the wallet to go on with, or [None]
    after [break]. *)
Definition menu_round (wlt : wallet) : prog (option wallet) :=
  (let* _ := print MENU in
   let* choice := input ASK_CHOICE in
   if str_eqb choice (lit "1") then
     let* _ := show_balance wlt in
     pret (Some wlt)
   else if str_eqb choice (lit "2") then
     let* date0 := input ASK_ADD_DATE in
     let* date := ask_valid_date ASK_DATE date0 in
     let* category := input ASK_CATEGORY in
     let* amount_input := input ASK_AMOUNT in
     match float_of_str amount_input with
     | None =>
         let* _ := print BAD_AMOUNT in
         pret (Some wlt)
     | Some amount =>
         let* description := input ASK_DESCRIPTION in
         let* r := run_result (Record_init (VStr date) (VStr category)
                                 (VFloat amount) (VStr description)) in
         let* added := run_call (add_record json_dumps wlt r) in
         let* _ := print ADDED in
         pret (Some (snd added))
     end
   else if str_eqb choice (lit "3") then
     let* index_input := input ASK_INDEX in
     match int_of_str index_input with
     | None =>
         let* _ := print BAD_INDEX in
         pret (Some wlt)
     | Some number =>
         let index := number - 1 in
         if (0 <=? index) && (index <? Z.of_nat (length (records wlt)))
         then
           let* date0 := input ASK_NEW_DATE in
           let* date := ask_valid_date ASK_NEW_DATE date0 in
           let* category := input ASK_NEW_CATEGORY in
           let* amount_input := input ASK_NEW_AMOUNT in
           match float_of_str amount_input with
           | None =>
               let* _ := print BAD_AMOUNT in
               pret (Some wlt)
           | Some amount =>
               let* description := input ASK_NEW_DESCRIPTION in
               let* r := run_result (Record_init (VStr date) (VStr category)
                                       (VFloat amount) (VStr description)) in
               let* edited :=
                 run_call (edit_record json_dumps wlt index r) in
               let* _ := print (if fst edited then UPDATED else EDIT_FAILED) in
               pret (Some (snd edited))
           end
         else
           let* _ := print NO_SUCH_RECORD in
           pret (Some wlt)
     end
   else if str_eqb choice (lit "4") then
     let* search_term := input ASK_TERM in
     let* found_records :=
       run_result (find_records lower float_repr wlt search_term) in
     match found_records with
     | [] =>
         let* _ := print NOTHING_FOUND in
         pret (Some wlt)
     | _ :: _ =>
         let* _ := print_found 0 found_records in
         pret (Some wlt)
     end
   else if str_eqb choice (lit "5") then
     let* _ := print BYE in
     pret None
   else
     let* _ := print BAD_CHOICE in
     pret (Some wlt))%prog.

(** The loop of [main], for at most [rounds] rounds; it returns the
    wlt it ends with. *)
Fixpoint main_loop (rounds : nat) (wlt : wallet) : prog wallet :=
  match rounds with
  | O => fun w => (OutOfFuel, w)
  | S rounds' =>
      (let* next := menu_round wlt in
       match next with
       | Some wlt' => main_loop rounds' wlt'
       | None => pret wlt
       end)%prog
  end.

(** [main]: the wallet on ['wallet.txt'], then the loop, with one round
    more than there are lines to read. *)
Definition main : prog wallet :=
  fun w =>
    (let* wlt := run_io (Wallet_init json_loads (lit "wallet.txt")) in
     main_loop (S (length (stdin w))) wlt)%prog w.

End Menu.

(** ** Instances of the builtins for the examples *)

(** [str.lower] on texts of ASCII and Russian letters: the capitals
    A-Z, U+0410-U+042F and U+0400-U+040F move to their small letters,
    every other character stays. *)
Definition lower_char (c : char) : char :=
  if (65 <=? c)%N && (c <=? 90)%N then (c + 32)%N
  else if (1040 <=? c)%N && (c <=? 1071)%N then (c + 32)%N
  else if (1024 <=? c)%N && (c <=? 1039)%N then (c + 80)%N
  else c.

Definition lower_basic (s : str) : str := List.map lower_char s.

(** [str.lower] on texts of ASCII, Russian and Greek letters, digits and
    spaces: besides the letters of [lower_char] the Greek capitals move to
    their small letters, and the capital sigma becomes the final sigma
    when a cased letter stands before it and none after it, as
    [str.lower] has it. *)
Definition is_cased (c : char) : bool :=
  ((65 <=? c)%N && (c <=? 90)%N) || ((97 <=? c)%N && (c <=? 122)%N) ||
  ((913 <=? c)%N && (c <=? 937)%N) || ((945 <=? c)%N && (c <=? 969)%N) ||
  ((1024 <=? c)%N && (c <=? 1119)%N).

Definition CAPITAL_SIGMA : char := 931%N.
Definition SMALL_SIGMA : char := 963%N.
Definition FINAL_SIGMA : char := 962%N.

Fixpoint lower_after (before : option char) (s : str) : str :=
  match s with
  | [] => []
  | c :: s' =>
      (if N.eqb c CAPITAL_SIGMA then
         if match before with Some b => is_cased b | None => false end &&
            negb match s' with x :: _ => is_cased x | [] => false end
         then FINAL_SIGMA else SMALL_SIGMA
       else if (913 <=? c)%N && (c <=? 937)%N then (c + 32)%N
       else lower_char c)
      :: lower_after (Some c) s'
  end.

Definition lower_greek (s : str) : str := lower_after None s.

(** [repr] on the floats of the examples: zeros, infinities, NaN and the
    integral values below 1e16 are written as Python writes them; the
    instance gives the empty text elsewhere. *)
Definition repr_integral (f : float) : str :=
  match Prim2SF f with
  | S754_zero false => lit "0.0"
  | S754_zero true => lit "-0.0"
  | S754_infinity false => lit "inf"
  | S754_infinity true => lit "-inf"
  | S754_nan => lit "nan"
  | S754_finite sign m e =>
      let whole :=
        if 0 <=? e then Some (Zpos m * 2 ^ e)
        else if Zpos m mod 2 ^ (- e) =? 0 then Some (Zpos m / 2 ^ (- e))
        else None in
      match whole with
      | Some z =>
          if z <? 10 ^ 16
          then (if sign then lit "-" else []) ++ str_of_int z ++ lit ".0"
          else []
      | None => []
      end
  end.

(** ** An instance of [json.dump]

    [json.dump(v, f, ensure_ascii=False, indent=4)] after [json/encoder.py]
    of CPython 3.11: the encoder yields the text in chunks, and [f.write]
    encodes each chunk to UTF-8 as it comes, so an exception leaves the
    chunks before it written. *)

Definition hex_digit (n : N) : char :=
  if (n <? 10)%N then (48 + n)%N else (87 + n)%N.

(** The escapes of [encode_basestring]: the quote, the backslash and the
    control characters. *)
Definition escape_char (c : char) : str :=
  if N.eqb c 34 then [92; 34]%N
  else if N.eqb c 92 then [92; 92]%N
  else if N.eqb c 10 then [92; 110]%N
  else if N.eqb c 13 then [92; 114]%N
  else if N.eqb c 9 then [92; 116]%N
  else if N.eqb c 8 then [92; 98]%N
  else if N.eqb c 12 then [92; 102]%N
  else if (c <? 32)%N
  then [92; 117; 48; 48; hex_digit (c / 16); hex_digit (c mod 16)]%N
  else [c].

Definition encode_string (s : str) : str :=
  (34%N :: flat_map escape_char s) ++ [34%N].

(** A newline and the indentation of a nesting level. *)
Definition newline_indent (level : nat) : str :=
  nl ++ concat (repeat (lit "    ") level).

Section Encoder.

Variable float_repr : float -> str.

Definition floatstr (f : float) : str :=
  match Prim2SF f with
  | S754_nan => lit "NaN"
  | S754_infinity false => lit "Infinity"
  | S754_infinity true => lit "-Infinity"
  | _ => float_repr f
  end.

(** The chunk of a value that is neither a list nor a dictionary. *)
Definition scalar_chunk (v : value) : option (result str) :=
  match v with
  | VNone => Some (Ok (lit "null"))
  | VBool true => Some (Ok (lit "true"))
  | VBool false => Some (Ok (lit "false"))
  | VInt z => Some (int_str z)
  | VFloat f => Some (Ok (floatstr f))
  | VStr s => Some (Ok (encode_string s))
  | VList _ | VDict _ => None
  end.

(** The chunks [_iterencode] yields at a nesting level, a raised
    exception being the last of them that counts. *)
Fixpoint chunks (level : nat) (v : value) {struct v} : list (result str) :=
  match v with
  | VList [] => [Ok (lit "[]")]
  | VList l =>
      (fix items (first : bool) (l : list value) : list (result str) :=
         match l with
         | [] => [Ok (newline_indent level); Ok (lit "]")]
         | x :: l' =>
             let buf :=
               (if first then lit "[" else lit ",")
               ++ newline_indent (S level) in
             match scalar_chunk x with
             | Some (Ok t) => Ok (buf ++ t) :: items false l'
             | Some (Raise e) => Raise e :: items false l'
             | None => Ok buf :: chunks (S level) x ++ items false l'
             end
         end) true l
  | VDict [] => [Ok (lit "{}")]
  | VDict d =>
      Ok (lit "{") :: Ok (newline_indent (S level)) ::
      (fix pairs (first : bool) (d : list (str * value))
         : list (result str) :=
         match d with
         | [] => [Ok (newline_indent level); Ok (lit "}")]
         | (k, x) :: d' =>
             (if first then [] else [Ok (lit "," ++ newline_indent (S level))])
             ++ Ok (encode_string k) :: Ok (lit ": ") ::
             match scalar_chunk x with
             | Some c => [c]
             | None => chunks (S level) x
             end ++ pairs false d'
         end) true d
  | _ =>
      match scalar_chunk v with
      | Some c => [c]
      | None => []
      end
  end.

(** UTF-8 encodes every code point but the surrogates. *)
Definition encodable (t : str) : bool :=
  forallb (fun c => negb ((55296 <=? c) && (c <=? 57343))%N) t.

(** The loop [for chunk in iterable: fp.write(chunk)]. *)
Fixpoint write_chunks (cs : list (result str)) (written : str)
  : str * option exn :=
  match cs with
  | [] => (written, None)
  | Ok t :: cs' =>
      if encodable t then write_chunks cs' (written ++ t)
      else (written, Some UnicodeEncodeError)
  | Raise e :: _ => (written, Some e)
  end.

Definition dump_indent4 (v : value) : str * option exn :=
  write_chunks (chunks 0 v) [].

End Encoder.

Definition dumps_pretty : value -> str * option exn :=
  dump_indent4 repr_integral.

(** The two records of the test suite. *)
Definition salary : record :=
  mkRecord (lit "2023-01-01") (lit "Income") (NFloat 1000) (lit "Salary").
Definition groceries : record :=
  mkRecord (lit "2023-02-01") (lit "Expense") (NFloat 500) (lit "Groceries").

(** A record whose amount has 4301 digits, one more than [str] and
    [json.dump] write, and one whose amount has 4300. *)
Definition bonus : record :=
  mkRecord (lit "2023-03-01") (lit "Доход") (NInt (10 ^ 4300)) (lit "Bonus").
Definition large_income : record :=
  mkRecord (lit "2023-03-01") (lit "Доход") (NInt (9 * 10 ^ 4299))
    (lit "Bonus").

(** A record whose description ends with the lone surrogate U+D800, which
    UTF-8 does not encode. *)
Definition scarred : record :=
  mkRecord (lit "2023-03-01") (lit "Доход") (NFloat 10)
    (lit "note" ++ [55296%N]).

(** The text of a store that holds the salary record, the text of one
    that holds both records of the test suite, and the text of an array
    with the integer 10^4300, which has 4301 digits. *)
Definition salary_store : str := fst (dumps_pretty (VList [to_dict salary])).

Definition ledger_store : str :=
  fst (dumps_pretty (VList [to_dict salary; to_dict groceries])).

Definition long_integer_store : str :=
  lit "[1" ++ repeat 48%N (Z.to_nat MAX_STR_DIGITS) ++ lit "]".

(** A [json.load] for the examples: it reads the texts [[]] and [[1]] and
    the texts that hold the records of the test suite, meets the digit
    limit on an array with one integer of 4301 digits, and rejects every
    other text. *)
Definition loads_small (text : str) : result value :=
  if str_eqb text (lit "[]") then Ok (VList [])
  else if str_eqb text (lit "[1]") then Ok (VList [VInt 1])
  else if str_eqb text salary_store then Ok (VList [to_dict salary])
  else if str_eqb text ledger_store
  then Ok (VList [to_dict salary; to_dict groceries])
  else if str_eqb text long_integer_store then Raise ValueError
  else Raise JSONDecodeError.

(** [int] and [float] on a text, for the examples: the instances read the
    non-empty texts of ASCII digits, a float beyond the largest finite one
    as infinity, and reject every other text. *)
Definition int_of_digits (text : str) : option Z :=
  match text with
  | [] => None
  | _ :: _ =>
      match digits_value ascii_decimal 0 text with
      | Ok z => Some z
      | Raise _ => None
      end
  end.

Definition float_of_digits (text : str) : option float :=
  match int_of_digits text with
  | Some z =>
      match float_of_int z with
      | Ok f => Some f
      | Raise _ => Some infinity
      end
  | None => None
  end.

(** A session at the terminal on an empty file system: a record is added,
    with a date that is refused first, and the program is left. *)
Definition session : world :=
  mkWorld ∅
    [lit "2"; lit "05.01.2023"; lit "2023-01-05"; lit "Доход"; lit "10";
     lit "gift"; lit "5"]
    [].

Definition gift : record :=
  mkRecord (lit "2023-01-05") (lit "Доход") (NFloat 10) (lit "gift").

Definition empty_wallet : wallet := mkWallet (lit "wallet.txt") [].
Definition session_wallet : wallet := mkWallet (lit "wallet.txt") [gift].

(** The same session on a file system whose store file holds the salary
    record, and the wallet it ends with. *)
Definition stored_session : world :=
  mkWorld {[ lit "wallet.txt" := Text salary_store ]} (stdin session) [].

Definition stored_wallet : wallet :=
  mkWallet (lit "wallet.txt") [salary; gift].

(** A terminal on a file system whose store file holds the text [[1]]. *)
Definition broken_store : world :=
  mkWorld {[ lit "wallet.txt" := Text (lit "[1]") ]} [lit "5"] [].

(** ** Specification vocabulary *)

(** The semantic types of the constructor's parameters.  An integer is an
    [int] or a [bool], the two-valued subclass of [int]. *)
Definition is_string (v : value) : Prop := exists s, v = VStr s.
Definition is_integer (v : value) : Prop :=
  (exists z, v = VInt z) \/ (exists b, v = VBool b).
Definition is_floating (v : value) : Prop := exists f, v = VFloat f.
Definition is_number (v : value) : Prop := is_integer v \/ is_floating v.

Definition well_typed (date category amount description : value) : Prop :=
  is_string date /\ is_string category /\ is_number amount /\
  is_string description.

(** The keys of a record's dictionary, in the order [to_dict] writes
    them. *)
Definition Record_keys : list str :=
  [lit "date"; lit "category"; lit "amount"; lit "description"].

(** [a] occurs in [b] as a contiguous substring. *)
Definition substring (a b : str) : Prop :=
  exists pre post, b = pre ++ a ++ post.

(** [selection P l l']: [l'] is exactly the elements of [l] that satisfy
    [P], each as often as it occurs in [l] and in the order of [l]. *)
Inductive selection {A} (P : A -> Prop) : list A -> list A -> Prop :=
| selection_nil : selection P [] []
| selection_keep x l l' :
    P x -> selection P l l' -> selection P (x :: l) (x :: l')
| selection_drop x l l' :
    ~ P x -> selection P l l' -> selection P (x :: l) l'.

(** The names of the groups of a pattern, in the order of the pattern,
    and the patterns whose alternatives all carry the same groups. *)
Fixpoint group_names (r : regex) : list str :=
  match r with
  | Grp name r' => name :: group_names r'
  | Cat r1 r2 => group_names r1 ++ group_names r2
  | Alt r1 _ => group_names r1
  | _ => []
  end.

Fixpoint uniform (r : regex) : bool :=
  match r with
  | Grp _ r' => uniform r'
  | Cat r1 r2 => uniform r1 && uniform r2
  | Alt r1 r2 =>
      uniform r1 && uniform r2 &&
      bool_decide (group_names r1 = group_names r2)
  | _ => true
  end.

(** A date of the proleptic Gregorian calendar in the range of
    [datetime]. *)
Definition real_date (year month day : Z) : Prop :=
  1 <= year <= 9999 /\ 1 <= month <= 12 /\
  1 <= day <= days_in_month year month.

(** The ASCII digits and the number a digit stands for. *)
Definition is_digit (c : char) : Prop := (48 <= c <= 57)%N.
Definition digit_value (c : char) : Z := Z.of_N c - 48.

(** The number a text of ASCII digits spells, read from the left. *)
Definition digits_number (ds : str) : Z :=
  fold_left (fun acc c => 10 * acc + digit_value c) ds 0.

(** [t] is the decimal numeral of [z]: a minus sign when [z] is negative,
    then the digits of its absolute value, the first of which is not a
    zero unless it is the only one. *)
Definition numeral (z : Z) (t : str) : Prop :=
  exists ds,
    t = (if z <? 0 then [ch "-"] else []) ++ ds /\
    ds <> [] /\ Forall is_digit ds /\
    (forall ds', ds = ch "0" :: ds' -> ds' = []) /\
    digits_number ds = Z.abs z.

(** The digits of a decimal numeral of the number library, and the
    numeral a text of digits spells. *)
Fixpoint digits_of_uint (d : Decimal.uint) : str :=
  match d with
  | Decimal.Nil => []
  | Decimal.D0 d' => 48%N :: digits_of_uint d'
  | Decimal.D1 d' => 49%N :: digits_of_uint d'
  | Decimal.D2 d' => 50%N :: digits_of_uint d'
  | Decimal.D3 d' => 51%N :: digits_of_uint d'
  | Decimal.D4 d' => 52%N :: digits_of_uint d'
  | Decimal.D5 d' => 53%N :: digits_of_uint d'
  | Decimal.D6 d' => 54%N :: digits_of_uint d'
  | Decimal.D7 d' => 55%N :: digits_of_uint d'
  | Decimal.D8 d' => 56%N :: digits_of_uint d'
  | Decimal.D9 d' => 57%N :: digits_of_uint d'
  end.

Fixpoint uint_of_digits (ds : str) : Decimal.uint :=
  match ds with
  | [] => Decimal.Nil
  | c :: ds' =>
      let d := uint_of_digits ds' in
      if N.eqb c 48 then Decimal.D0 d
      else if N.eqb c 49 then Decimal.D1 d
      else if N.eqb c 50 then Decimal.D2 d
      else if N.eqb c 51 then Decimal.D3 d
      else if N.eqb c 52 then Decimal.D4 d
      else if N.eqb c 53 then Decimal.D5 d
      else if N.eqb c 54 then Decimal.D6 d
      else if N.eqb c 55 then Decimal.D7 d
      else if N.eqb c 56 then Decimal.D8 d
      else Decimal.D9 d
  end.

(** The integer an [int] or [bool] amount denotes. *)
Definition int_amount (n : number) : option Z :=
  match n with
  | NBool b => Some (int_of_bool b)
  | NInt z => Some z
  | NFloat _ => None
  end.

Definition is_float_amount (n : number) : Prop := exists f, n = NFloat f.

(** The textual form of an amount, where it has one: the words True and
    False, the decimal numeral of an integer of at most 4300 digits, the
    [repr] of a float.  A longer integer has none. *)
Inductive amount_text (float_repr : float -> str) : number -> str -> Prop :=
| text_of_true : amount_text float_repr (NBool true) (lit "True")
| text_of_false : amount_text float_repr (NBool false) (lit "False")
| text_of_int z t :
    Z.abs z < 10 ^ 4300 -> numeral z t -> amount_text float_repr (NInt z) t
| text_of_float f : amount_text float_repr (NFloat f) (float_repr f).

Definition unwritable (a : number) : Prop :=
  exists z, a = NInt z /\ 10 ^ 4300 <= Z.abs z.

(** The search criterion: with both sides lowered by [str.lower], the
    term occurs in the description, in the category or in the textual
    form of the amount, or it is the whole date. *)
Definition Matches (lower : str -> str) (float_repr : float -> str)
    (term : str) (r : record) : Prop :=
  substring (lower term) (lower (description r)) \/
  substring (lower term) (lower (category r)) \/
  (exists t, amount_text float_repr (amount r) t /\
             substring (lower term) (lower t)) \/
  lower term = lower (date r).

(** The records on which the search stops with an exception: neither the
    description nor the category holds the term, and the amount has no
    textual form. *)
Definition Erring (lower : str -> str) (term : str) (r : record) : Prop :=
  ~ substring (lower term) (lower (description r)) /\
  ~ substring (lower term) (lower (category r)) /\
  unwritable (amount r).

(** The role a record plays in the balance: its lowered category is one
    of the two labels, or the record plays none. *)
Inductive role := Income | Expense.

Definition role_of (lower : str -> str) (r : record) : option role :=
  if decide (lower (category r) = income_label) then Some Income
  else if decide (lower (category r) = expense_label) then Some Expense
  else None.

(** The amounts of the income records and of the expense records, each in
    the order of the records. *)
Fixpoint partition_amounts (lower : str -> str) (rs : list record)
  : list number * list number :=
  match rs with
  | [] => ([], [])
  | r :: rs' =>
      let '(incomes, expenses) := partition_amounts lower rs' in
      match role_of lower r with
      | Some Income => (amount r :: incomes, expenses)
      | Some Expense => (incomes, amount r :: expenses)
      | None => (incomes, expenses)
      end
  end.

(** The conversion of a number to a float. *)
Definition to_float (n : number) : result float :=
  match n with
  | NBool b => float_of_int (int_of_bool b)
  | NInt z => float_of_int z
  | NFloat f => Ok f
  end.

(** The arithmetic of numbers.  The float a number stands for in an
    operation with a float: the float itself, or the float nearest to the
    integer, which there is none of when the integer is too large. *)
Inductive float_value : number -> result float -> Prop :=
| float_value_float f : float_value (NFloat f) (Ok f)
| float_value_int n z : int_amount n = Some z -> float_value n (float_of_int z).

(** An operation on two numbers: on integers it is exact and gives an
    integer; when one of the two is a float it is the operation on
    floats, and it fails with [OverflowError] when the other is an
    integer with no float near it. *)
Inductive combines (on_int : Z -> Z -> Z) (on_float : float -> float -> float)
  : number -> number -> result number -> Prop :=
| combines_ints a b x y :
    int_amount a = Some x -> int_amount b = Some y ->
    combines on_int on_float a b (Ok (NInt (on_int x y)))
| combines_floats a b x y :
    is_float_amount a \/ is_float_amount b ->
    float_value a (Ok x) -> float_value b (Ok y) ->
    combines on_int on_float a b (Ok (NFloat (on_float x y)))
| combines_overflow a b :
    is_float_amount a \/ is_float_amount b ->
    float_value a (Raise OverflowError) \/
    float_value b (Raise OverflowError) ->
    combines on_int on_float a b (Raise OverflowError).

Definition Plus : number -> number -> result number -> Prop :=
  combines Z.add PrimFloat.add.
Definition Minus : number -> number -> result number -> Prop :=
  combines Z.sub PrimFloat.sub.

(** The total of a list of amounts: the integer 0 for the empty list, and
    the amounts added one after the other from the left. *)
Inductive Total : list number -> result number -> Prop :=
| Total_nil : Total [] (Ok (NInt 0))
| Total_snoc l x s r : Total l (Ok s) -> Plus s x r -> Total (l ++ [x]) r
| Total_failed l x e : Total l (Raise e) -> Total (l ++ [x]) (Raise e).

(** The text [display_balance] writes for three numbers in textual
    form. *)
Definition balance_report (b i e : str) : str :=
  nl ++ lit "Баланс: " ++ b ++ nl ++ lit "Доходы: " ++ i ++ nl ++
  lit "Расходы: " ++ e ++ nl.

(** The value a wallet is stored as, and the wallets whose store file
    holds the whole text of [json.dump] of that value. *)
Definition serialization (self : wallet) : value :=
  VList (List.map to_dict (records self)).

Definition persisted (json_dumps : value -> str * option exn) (self : wallet)
    (fs : fsys) : Prop :=
  exists text,
    json_dumps (serialization self) = (text, None) /\
    fs !! filename self = Some (Text text).

(** The paths [open] does not refuse. *)
Definition opens (fs : fsys) (path : str) : Prop :=
  forall e, fs !! path <> Some (Blocked e).

(** What writing the store file of a wallet comes to: [open] refuses the
    path, and the file system stays as it is; or the whole text is
    written; or the text written until an exception stopped
    [json.dump]. *)
Inductive written (json_dumps : value -> str * option exn) (self : wallet)
    (fs : fsys) : result unit -> fsys -> Prop :=
| written_refused e :
    fs !! filename self = Some (Blocked e) ->
    written json_dumps self fs (Raise e) fs
| written_whole text :
    opens fs (filename self) ->
    json_dumps (serialization self) = (text, None) ->
    written json_dumps self fs (Ok tt) (<[filename self := Text text]> fs)
| written_part text e :
    opens fs (filename self) ->
    json_dumps (serialization self) = (text, Some e) ->
    written json_dumps self fs (Raise e) (<[filename self := Text text]> fs).

(** What opening and decoding the store file comes to. *)
Inductive decoded (json_loads : str -> result value) (fs : fsys)
    (path : str) : result value -> Prop :=
| decoded_missing :
    fs !! path = None -> decoded json_loads fs path (Raise FileNotFoundError)
| decoded_refused e :
    fs !! path = Some (Blocked e) -> decoded json_loads fs path (Raise e)
| decoded_binary :
    fs !! path = Some Binary ->
    decoded json_loads fs path (Raise UnicodeDecodeError)
| decoded_text text :
    fs !! path = Some (Text text) ->
    decoded json_loads fs path (json_loads text).

(** The exceptions [load_records] catches. *)
Definition recovered (e : exn) : Prop :=
  e = FileNotFoundError \/ e = JSONDecodeError.


(** The texts of the form YYYY-MM-DD: four digits, a hyphen, two digits,
    a hyphen, two digits. *)
Definition strict_format (s : str) : Prop :=
  exists y1 y2 y3 y4 m1 m2 d1 d2,
    is_digit y1 /\ is_digit y2 /\ is_digit y3 /\ is_digit y4 /\
    is_digit m1 /\ is_digit m2 /\ is_digit d1 /\ is_digit d2 /\
    s = [y1; y2; y3; y4; ch "-"; m1; m2; ch "-"; d1; d2].

(** The check of one month and day in two-digit form against the
    month-and-day part of the pattern: the first match covers the text
    and holds the two fields exactly when the month is in 1..12 and the
    day in 1..31; otherwise the text fails to match or is not covered. *)
Definition digits10 : list char :=
  [48; 49; 50; 51; 52; 53; 54; 55; 56; 57]%N.

Definition two_digits (a b : char) : Z := 10 * digit_value a + digit_value b.

Definition month_day_in_range (m1 m2 d1 d2 : char) : bool :=
  (1 <=? two_digits m1 m2) && (two_digits m1 m2 <=? 12) &&
  (1 <=? two_digits d1 d2) && (two_digits d1 d2 <=? 31).

Definition month_day_checked (m1 m2 d1 d2 : char) : bool :=
  match rmatch ascii_decimal month_day_regex
          [ch "-"; m1; m2; ch "-"; d1; d2] with
  | (g, _, []) :: _ =>
      month_day_in_range m1 m2 d1 d2 &&
      bool_decide (g = [(lit "m", [m1; m2]); (lit "d", [d1; d2])])
  | _ => negb (month_day_in_range m1 m2 d1 d2)
  end.

(** The values [from_dict] turns into a record: the dictionaries that
    hold a string under date, category and description and a number under
    amount. *)
Definition record_shaped (v : value) : Prop :=
  exists d vd vc va vs,
    v = VDict d /\
    List.map (dict_get d) Record_keys = [Some vd; Some vc; Some va; Some vs] /\
    well_typed vd vc va vs.

(** The decoded stores the constructor accepts. *)
Definition loadable (data : value) : Prop :=
  (exists items, data = VList items /\ Forall record_shaped items) \/
  data = VDict [] \/ data = VStr [].

(** The exact total of a list of integer amounts. *)
Definition int_total (amounts : list number) : Z :=
  fold_right Z.add 0 (List.map (fun n => default 0 (int_amount n)) amounts).

(** An accumulator that float addition accepts without conversion
    failure: the integer zero a sum starts from, or a float. *)
Definition float_like (n : number) : Prop := n = NInt 0 \/ is_float_amount n.

(** The texts a month and a day may be written as, with the number each
    spells: a month is one digit, a zero and a digit, or 10 to 12; a day
    is one digit, a zero or a space and a digit, 10 to 29 with any
    decimal digit of the table as second digit, or 30 or 31. *)
Inductive month_text : str -> Z -> Prop :=
| month_one_digit c :
    (49 <= c <= 57)%N -> month_text [c] (digit_value c)
| month_leading_zero c :
    (49 <= c <= 57)%N -> month_text [ch "0"; c] (digit_value c)
| month_ten_to_twelve c :
    (48 <= c <= 50)%N -> month_text [ch "1"; c] (10 + digit_value c).

Inductive day_text (decimal : char -> option Z) : str -> Z -> Prop :=
| day_one_digit c :
    (49 <= c <= 57)%N -> day_text decimal [c] (digit_value c)
| day_leading_zero c :
    (49 <= c <= 57)%N -> day_text decimal [ch "0"; c] (digit_value c)
| day_leading_space c :
    (49 <= c <= 57)%N -> day_text decimal [ch " "; c] (digit_value c)
| day_ten_to_twenty_nine c x v :
    (49 <= c <= 50)%N -> decimal x = Some v ->
    day_text decimal [c; x] (10 * digit_value c + v)
| day_thirty c :
    (48 <= c <= 49)%N -> day_text decimal [ch "3"; c] (30 + digit_value c).

(** The texts [validate_date] turns out to accept: a year of four decimal
    digits, a hyphen, a month text, a hyphen and a day text that together
    are a real date. *)
Definition accepted_text (decimal : char -> option Z) (s : str) : Prop :=
  exists y1 y2 y3 y4 v1 v2 v3 v4 M m D d,
    s = [y1; y2; y3; y4] ++ ch "-" :: M ++ ch "-" :: D /\
    decimal y1 = Some v1 /\ decimal y2 = Some v2 /\
    decimal y3 = Some v3 /\ decimal y4 = Some v4 /\
    month_text M m /\ day_text decimal D d /\
    real_date (1000 * v1 + 100 * v2 + 10 * v3 + v4) m d.

(** The texts a pattern matches as a whole. *)
Fixpoint lang (decimal : char -> option Z) (r : regex) (t : str) : Prop :=
  match r with
  | Chr c => t = [c]
  | Rng lo hi => exists x, t = [x] /\ (lo <= x <= hi)%N
  | Dig => exists x v, t = [x] /\ decimal x = Some v
  | Cat r1 r2 =>
      exists t1 t2, t = t1 ++ t2 /\ lang decimal r1 t1 /\ lang decimal r2 t2
  | Alt r1 r2 => lang decimal r1 t \/ lang decimal r2 t
  | Grp _ r' => lang decimal r' t
  end.

(** A record as the menu builds it: its date has passed [validate_date]
    and its amount is a float. *)
Definition menu_record (decimal : char -> option Z) (r : record) : Prop :=
  validate_date decimal (date r) = Ok true /\ is_float_amount (amount r).

(** [grown wlt0 wlt]: [wlt] is on the same file as [wlt0] and has every
    position [wlt0] has; each of its positions holds the record [wlt0] has
    there or a record built by the menu. *)
Definition grown (decimal : char -> option Z) (wlt0 wlt : wallet) : Prop :=
  filename wlt = filename wlt0 /\
  (length (records wlt0) <= length (records wlt))%nat /\
  forall (i : nat) r,
    records wlt !! i = Some r ->
    records wlt0 !! i = Some r \/ menu_record decimal r.

(** What a run does around the file [F]: every other file is kept, lines
    are only taken from the front of the input, texts are only added at
    the end of the output. *)
Definition frame (F : str) (w w' : world) : Prop :=
  (forall path, path <> F -> disk w' !! path = disk w !! path) /\
  (exists taken, stdin w = taken ++ stdin w') /\
  (exists written, stdout w' = stdout w ++ written).

(** A computation that stays within the frame of [F] and never reaches
    the bound on the rounds; one that moreover takes a line whenever it
    returns. *)
Definition tame (F : str) {A} (m : prog A) : Prop :=
  forall w, frame F w (snd (m w)) /\ fst (m w) <> OutOfFuel.

Definition reading (F : str) {A} (m : prog A) : Prop :=
  tame F m /\
  forall w a w', m w = (Done a, w') ->
                 (length (stdin w') < length (stdin w))%nat.

(** A computation that leaves the file system alone. *)
Definition keeps_disk {A} (m : prog A) : Prop :=
  forall w, disk (snd (m w)) = disk w.

(** What a round of the menu that returns has done: after [break] the
    file system is as before, the line read was [5] and the last text
    written is the farewell; otherwise either the wallet and the file
    system are as before, or the line read was [2] and a record built by
    the menu was appended, or it was [3] and one took the place of an
    existing record, and then the store file holds the new records and
    the last text written is the confirmation. *)
Definition round_effect (json_dumps : value -> str * option exn)
    (decimal : char -> option Z) (wlt : wallet) (w : world)
    (next : option wallet) (w' : world) : Prop :=
  match next with
  | None =>
      disk w' = disk w /\ head (stdin w) = Some (lit "5") /\
      last (stdout w') = Some (BYE ++ nl)
  | Some wlt' =>
      (wlt' = wlt /\ disk w' = disk w) \/
      (exists r,
          head (stdin w) = Some (lit "2") /\
          menu_record decimal r /\
          wlt' = set_records wlt (records wlt ++ [r]) /\
          persisted json_dumps wlt' (disk w') /\
          last (stdout w') = Some (ADDED ++ nl)) \/
      (exists (i : nat) r,
          head (stdin w) = Some (lit "3") /\
          menu_record decimal r /\ (i < length (records wlt))%nat /\
          wlt' = set_records wlt (<[i := r]> (records wlt)) /\
          persisted json_dumps wlt' (disk w') /\
          last (stdout w') = Some (UPDATED ++ nl))
  end.

(** * Facts about the constructor and the dictionary form *)

Lemma is_string_isinstance v : is_string v <-> isinstance v [Tstr] = true.
Proof.
  split.
  - intros [s ->]. reflexivity.
  - destruct v; cbn; try discriminate. eexists; reflexivity.
Qed.

Lemma is_number_isinstance v :
  is_number v <-> isinstance v [Tint; Tfloat] = true.
Proof.
  split.
  - intros [[[z ->] | [b ->]] | [f ->]]; reflexivity.
  - destruct v; cbn; try discriminate; intros _.
    + left; right; eexists; reflexivity.
    + left; left; eexists; reflexivity.
    + right; eexists; reflexivity.
Qed.

Lemma Record_init_ok (d c s : str) (a : number) :
  Record_init (VStr d) (VStr c) (value_of_number a) (VStr s)
  = Ok (mkRecord d c a s).
Proof. destruct a; reflexivity. Qed.

Lemma is_number_value v : is_number v -> exists a, v = value_of_number a.
Proof.
  intros [[[z ->] | [b ->]] | [f ->]];
    [exists (NInt z) | exists (NBool b) | exists (NFloat f)]; reflexivity.
Qed.

Lemma Record_init_raises d c a s :
  ~ well_typed d c a s -> Record_init d c a s = Raise TypeError.
Proof.
  intros Hbad. unfold Record_init.
  destruct (isinstance d [Tstr]) eqn:Hd; [| reflexivity].
  destruct (isinstance c [Tstr]) eqn:Hc; [| reflexivity].
  destruct (isinstance a [Tint; Tfloat]) eqn:Ha; [| reflexivity].
  destruct (isinstance s [Tstr]) eqn:Hs; [| reflexivity].
  exfalso. apply Hbad. unfold well_typed.
  rewrite !is_string_isinstance, is_number_isinstance. auto.
Qed.

(** C9.  The constructor raises [TypeError] exactly when some argument is
    not of its declared semantic type (date, category and description
    strings; amount an integer or a floating point number, where a [bool]
    counts as the integer it is in Python); when all four are, it
    succeeds and every field holds the argument as given, whatever the
    sign of the amount. *)
Theorem Record_init_type_check (d c a s : value) :
  (Record_init d c a s = Raise TypeError <-> ~ well_typed d c a s) /\
  (well_typed d c a s ->
   exists r, Record_init d c a s = Ok r /\
             VStr (date r) = d /\ VStr (category r) = c /\
             value_of_number (amount r) = a /\ VStr (description r) = s).
Proof.
  assert (Hok : well_typed d c a s ->
                exists r, Record_init d c a s = Ok r /\
                          VStr (date r) = d /\ VStr (category r) = c /\
                          value_of_number (amount r) = a /\
                          VStr (description r) = s).
  { intros ([d' ->] & [c' ->] & Ha & [s' ->]).
    destruct (is_number_value a Ha) as [n ->].
    exists (mkRecord d' c' n s'). rewrite Record_init_ok. auto. }
  split; [split |]; auto.
  - intros Hraise Hwt. destruct (Hok Hwt) as (r & Hr & _). congruence.
  - apply Record_init_raises.
Qed.

Lemma dict_get_to_dict (r : record) :
  exists items,
    to_dict r = VDict items /\ List.map fst items = Record_keys /\
    dict_get items (lit "date") = Some (VStr (date r)) /\
    dict_get items (lit "category") = Some (VStr (category r)) /\
    dict_get items (lit "amount") = Some (value_of_number (amount r)) /\
    dict_get items (lit "description") = Some (VStr (description r)).
Proof. eexists. repeat split. Qed.

Lemma from_dict_lookups d vd vc va vs :
  dict_get d (lit "date") = Some vd ->
  dict_get d (lit "category") = Some vc ->
  dict_get d (lit "amount") = Some va ->
  dict_get d (lit "description") = Some vs ->
  from_dict (VDict d) = Record_init vd vc va vs.
Proof.
  intros Hd Hc Ha Hs. unfold from_dict, getitem.
  rewrite Hd, Hc, Ha, Hs. reflexivity.
Qed.

Lemma from_dict_missing d :
  Exists (fun k => dict_get d k = None) Record_keys ->
  exists k, In k Record_keys /\ dict_get d k = None /\
            from_dict (VDict d) = Raise (KeyError k).
Proof.
  intros Hmiss. unfold from_dict, getitem.
  destruct (dict_get d (lit "date")) as [vd |] eqn:Hd; cbn [rbind];
    [| exists (lit "date"); unfold Record_keys; cbn [In]; auto].
  destruct (dict_get d (lit "category")) as [vc |] eqn:Hc; cbn [rbind];
    [| exists (lit "category"); unfold Record_keys; cbn [In]; auto].
  destruct (dict_get d (lit "amount")) as [va |] eqn:Ha; cbn [rbind];
    [| exists (lit "amount"); unfold Record_keys; cbn [In]; auto].
  destruct (dict_get d (lit "description")) as [vs |] eqn:Hs; cbn [rbind];
    [| exists (lit "description"); unfold Record_keys; cbn [In]; auto 6].
  exfalso. unfold Record_keys in Hmiss.
  repeat match goal with
         | H : Exists _ (_ :: _) |- _ => apply Exists_cons in H; destruct H
         | H : Exists _ [] |- _ => apply Exists_nil in H; destruct H
         end; congruence.
Qed.

(** C3.  [from_dict] inverts [to_dict] field for field; [to_dict] writes
    the four keys date, category, amount, description, [from_dict] reads
    those same keys and depends on nothing else, and a dictionary that
    lacks one of them makes it raise the [KeyError] of a missing key. *)
Theorem from_dict_to_dict :
  (forall r, from_dict (to_dict r) = Ok r) /\
  (forall r, exists items,
      to_dict r = VDict items /\ List.map fst items = Record_keys) /\
  (forall d vd vc va vs,
      List.map (dict_get d) Record_keys = [Some vd; Some vc; Some va; Some vs] ->
      from_dict (VDict d) = Record_init vd vc va vs) /\
  (forall d,
      Exists (fun k => dict_get d k = None) Record_keys ->
      exists k, In k Record_keys /\ dict_get d k = None /\
                from_dict (VDict d) = Raise (KeyError k)).
Proof.
  split; [| split; [| split]].
  - intros [d c a s]. destruct a; reflexivity.
  - intros r. destruct (dict_get_to_dict r) as (items & H1 & H2 & _).
    exists items. auto.
  - intros d vd vc va vs Hk. unfold Record_keys in Hk.
    cbn [List.map] in Hk.
    injection Hk as Hd Hc Ha Hs. now apply from_dict_lookups.
  - apply from_dict_missing.
Qed.

(** * Facts about strings *)

Lemma str_eqb_eq (a b : str) : str_eqb a b = true <-> a = b.
Proof. unfold str_eqb. apply bool_decide_eq_true. Qed.

Lemma starts_with_spec (b a : str) :
  starts_with b a = true <-> exists post, b = a ++ post.
Proof.
  revert b. induction a as [| x a IH]; intros b; cbn.
  - split; [intros _; now exists b | reflexivity].
  - destruct b as [| y b]; cbn.
    + split; [discriminate | intros [post H]; discriminate].
    + rewrite andb_true_iff, N.eqb_eq, IH. split.
      * intros [-> [post ->]]. eauto.
      * intros [post H]. injection H as -> ->. eauto.
Qed.

Lemma substring_nil_r (a : str) : substring a [] <-> a = [].
Proof.
  split.
  - intros (pre & post & H). symmetry in H.
    apply app_eq_nil in H as [_ H]. now apply app_eq_nil in H as [H _].
  - intros ->. now exists [], [].
Qed.

Lemma substring_cons (a : str) (y : char) (b : str) :
  substring a (y :: b) <-> (exists post, y :: b = a ++ post) \/ substring a b.
Proof.
  split.
  - intros (pre & post & H). destruct pre as [| z pre]; cbn in H.
    + left; eauto.
    + right. injection H as _ ->. now exists pre, post.
  - intros [[post H] | (pre & post & ->)].
    + exists [], post. exact H.
    + now exists (y :: pre), post.
Qed.

(** The operator [in] decides the substring relation. *)
Lemma str_in_spec (a b : str) : str_in a b = true <-> substring a b.
Proof.
  induction b as [| y b IH]; cbn [str_in]; rewrite orb_true_iff.
  - rewrite substring_nil_r, starts_with_spec. split.
    + intros [[post H] | H]; [| discriminate].
      symmetry in H. now apply app_eq_nil in H as [H _].
    + intros ->. left. now exists [].
  - rewrite substring_cons, starts_with_spec, IH. reflexivity.
Qed.

Lemma str_in_nil (b : str) : str_in [] b = true.
Proof. apply str_in_spec. now exists [], b. Qed.

(** * Facts about selections *)

Lemma selection_filter {A} (P : A -> Prop) (f : A -> bool) (l : list A) :
  (forall x, f x = true <-> P x) -> selection P l (List.filter f l).
Proof.
  intros Hf. induction l as [| x l IH]; cbn.
  - constructor.
  - destruct (f x) eqn:Hx.
    + apply selection_keep; [now apply Hf | exact IH].
    + apply selection_drop; [| exact IH].
      intros HP. apply Hf in HP. congruence.
Qed.

Lemma selection_unique {A} (P : A -> Prop) (l l1 l2 : list A) :
  selection P l l1 -> selection P l l2 -> l1 = l2.
Proof.
  intros H1. revert l2.
  induction H1 as [| x l l1 HP _ IH | x l l1 HP _ IH]; intros l2 H2;
    inversion H2; subst; try contradiction; auto.
  f_equal. auto.
Qed.

Lemma selection_sublist {A} (P : A -> Prop) (l l' : list A) :
  selection P l l' -> sublist l' l.
Proof.
  induction 1; [constructor | now apply sublist_skip | now apply sublist_cons].
Qed.

Lemma selection_elem {A} (P : A -> Prop) (l l' : list A) :
  selection P l l' -> forall x, In x l' <-> In x l /\ P x.
Proof.
  induction 1 as [| y l l' HP _ IH | y l l' HP _ IH]; intros x; cbn.
  - tauto.
  - rewrite IH. split.
    + intros [-> | [? ?]]; auto.
    + intros [[-> | ?] ?]; auto.
  - rewrite IH. split.
    + intros [? ?]; auto.
    + intros [[-> | ?] ?]; [contradiction | auto].
Qed.

Lemma selection_none {A} (P : A -> Prop) (l l' : list A) :
  selection P l l' -> (forall x, In x l -> ~ P x) -> l' = [].
Proof.
  intros Hsel Hno. destruct l' as [| x l']; [reflexivity |].
  exfalso. destruct (proj1 (selection_elem P l _ Hsel x)) as [Hin HP].
  - now left.
  - exact (Hno x Hin HP).
Qed.

Lemma selection_all {A} (P : A -> Prop) (l : list A) :
  (forall x, In x l -> P x) -> selection P l l.
Proof.
  induction l as [| x l IH]; intros Hall; constructor.
  - apply Hall. now left.
  - apply IH. intros y Hy. apply Hall. now right.
Qed.

(** * Facts about numerals *)

Lemma lit_string_of_uint (d : Decimal.uint) :
  lit (NilEmpty.string_of_uint d) = digits_of_uint d.
Proof.
  unfold lit. induction d; cbn [NilEmpty.string_of_uint list_ascii_of_string
    List.map utf8_go digits_of_uint]; [reflexivity | ..];
    rewrite <- IHd; reflexivity.
Qed.

Lemma digits_of_uint_nil (d : Decimal.uint) :
  digits_of_uint d = [] -> d = Decimal.Nil.
Proof. destruct d; first [reflexivity | discriminate]. Qed.

Lemma digits_of_uint_is_digit (d : Decimal.uint) :
  Forall is_digit (digits_of_uint d).
Proof.
  induction d; cbn [digits_of_uint]; constructor; try assumption;
    unfold is_digit; lia.
Qed.

Lemma digits_of_uint_of_digits (ds : str) :
  Forall is_digit ds -> digits_of_uint (uint_of_digits ds) = ds.
Proof.
  induction 1 as [| c ds Hc _ IH]; [reflexivity |].
  unfold is_digit in Hc. cbn [uint_of_digits].
  assert (Hcases : (c = 48 \/ c = 49 \/ c = 50 \/ c = 51 \/ c = 52 \/
                    c = 53 \/ c = 54 \/ c = 55 \/ c = 56 \/ c = 57)%N)
    by lia.
  decompose [or] Hcases; subst c; cbn [N.eqb Pos.eqb digits_of_uint];
    now rewrite IH.
Qed.

Lemma digits_number_acc (d : Decimal.uint) (acc : positive) :
  fold_left (fun a c => 10 * a + digit_value c) (digits_of_uint d) (Zpos acc)
  = Zpos (Pos.of_uint_acc d acc).
Proof.
  revert acc. induction d; intros acc;
    cbn [digits_of_uint fold_left Pos.of_uint_acc]; [reflexivity | ..];
    rewrite <- IHd; f_equal; unfold digit_value; lia.
Qed.

Lemma digits_number_of_uint (d : Decimal.uint) :
  digits_number (digits_of_uint d) = Z.of_N (Pos.of_uint d).
Proof.
  unfold digits_number.
  induction d; cbn [digits_of_uint fold_left Pos.of_uint]; [reflexivity | ..];
    try exact IHd;
    cbn [Z.of_N]; rewrite <- digits_number_acc; f_equal.
Qed.

(** A numeral without a leading zero is in the normal form of the number
    library, and the other way round. *)
Lemma canonical_unorm (d : Decimal.uint) :
  d <> Decimal.Nil ->
  (forall ds', digits_of_uint d = 48%N :: ds' -> ds' = []) ->
  Decimal.unorm d = d.
Proof.
  intros Hnil Hzero. destruct d; try reflexivity; [contradiction |].
  specialize (Hzero _ eq_refl). apply digits_of_uint_nil in Hzero.
  now subst d.
Qed.

Lemma unorm_canonical (d : Decimal.uint) (ds' : str) :
  Decimal.unorm d = d -> digits_of_uint d = 48%N :: ds' -> ds' = [].
Proof.
  intros Hnorm Hd. destruct d; try discriminate.
  injection Hd as <-. rewrite DecimalFacts.unorm_D0 in Hnorm.
  unfold Decimal.unorm in Hnorm.
  destruct (Decimal.nzhead d) eqn:Hhead; try discriminate Hnorm.
  - now injection Hnorm as <-.
  - exfalso. eapply DecimalFacts.nzhead_nonzero, Hhead.
Qed.

Lemma to_uint_unorm (n : N) : Decimal.unorm (N.to_uint n) = N.to_uint n.
Proof.
  rewrite <- (DecimalPos.Unsigned.to_of (N.to_uint n)).
  destruct n as [| p]; [reflexivity |].
  cbn [N.to_uint]. now rewrite DecimalPos.Unsigned.of_to.
Qed.

Lemma to_uint_nonnil (n : N) : N.to_uint n <> Decimal.Nil.
Proof.
  destruct n as [| p]; [discriminate |].
  apply DecimalPos.Unsigned.to_uint_nonnil.
Qed.

Lemma of_to_uint (n : N) : Pos.of_uint (N.to_uint n) = n.
Proof.
  destruct n as [| p]; [reflexivity | apply DecimalPos.Unsigned.of_to].
Qed.

Lemma str_of_int_digits (z : Z) :
  str_of_int z
  = (if z <? 0 then [ch "-"] else [])
    ++ digits_of_uint (N.to_uint (Z.abs_N z)).
Proof.
  unfold str_of_int.
  assert (Huint : forall d, d <> Decimal.Nil ->
             lit (NilZero.string_of_uint d) = digits_of_uint d).
  { intros d Hd. unfold NilZero.string_of_uint.
    destruct d; try contradiction; apply lit_string_of_uint. }
  destruct z as [| p | p]; cbn [Z.to_int Z.ltb Z.compare Z.abs_N N.to_uint
                                NilZero.string_of_int app].
  - reflexivity.
  - apply Huint, DecimalPos.Unsigned.to_uint_nonnil.
  - rewrite <- Huint by apply DecimalPos.Unsigned.to_uint_nonnil.
    reflexivity.
Qed.

(** [str_of_int] writes the decimal numeral, and nothing else is one. *)
Lemma numeral_str_of_int (z : Z) : numeral z (str_of_int z).
Proof.
  exists (digits_of_uint (N.to_uint (Z.abs_N z))).
  split; [apply str_of_int_digits |]. split; [| split; [| split]].
  - intros H. apply digits_of_uint_nil in H. now apply to_uint_nonnil in H.
  - apply digits_of_uint_is_digit.
  - intros ds'. apply unorm_canonical, to_uint_unorm.
  - rewrite digits_number_of_uint, of_to_uint. lia.
Qed.

Lemma numeral_unique (z : Z) (t : str) : numeral z t -> t = str_of_int z.
Proof.
  intros (ds & -> & Hne & Hdigits & Hzero & Hvalue).
  rewrite str_of_int_digits. f_equal.
  rewrite <- (digits_of_uint_of_digits ds Hdigits) in Hvalue, Hzero, Hne |- *.
  set (d := uint_of_digits ds) in *.
  rewrite digits_number_of_uint in Hvalue.
  assert (Hd : Pos.of_uint d = Z.abs_N z) by lia.
  rewrite <- Hd, DecimalPos.Unsigned.to_of.
  symmetry. f_equal. apply canonical_unorm; [| exact Hzero].
  intros ->. now apply Hne.
Qed.

Lemma too_long_spec (z : Z) : too_long z = true <-> 10 ^ 4300 <= Z.abs z.
Proof. unfold too_long, MAX_STR_DIGITS. apply Z.leb_le. Qed.

Lemma too_long_false (z : Z) : too_long z = false <-> Z.abs z < 10 ^ 4300.
Proof. unfold too_long, MAX_STR_DIGITS. apply Z.leb_gt. Qed.

Lemma int_str_spec (z : Z) :
  (Z.abs z < 10 ^ 4300 /\ int_str z = Ok (str_of_int z)) \/
  (10 ^ 4300 <= Z.abs z /\ int_str z = Raise ValueError).
Proof.
  unfold int_str. destruct (too_long z) eqn:H.
  - right. now apply too_long_spec in H.
  - left. now apply too_long_false in H.
Qed.

(** * Facts about the wallet *)

(** ** Search *)

Section Search.

Variable lower : str -> str.
Variable float_repr : float -> str.

(** [str] of a number is its textual form, and fails exactly where there
    is none. *)
Lemma py_str_text (a : number) (t : str) :
  py_str float_repr a = Ok t <-> amount_text float_repr a t.
Proof.
  split.
  - destruct a as [[|] | z | f]; cbn [py_str]; intros H.
    + injection H as <-. constructor.
    + injection H as <-. constructor.
    + destruct (int_str_spec z) as [[Hz Hs] | [_ Hs]]; rewrite Hs in H;
        [| discriminate].
      injection H as <-. constructor; [exact Hz | apply numeral_str_of_int].
    + injection H as <-. constructor.
  - intros [| | z t' Hz Ht | f]; cbn [py_str]; try reflexivity.
    apply numeral_unique in Ht as ->.
    unfold int_str. now rewrite (proj2 (too_long_false z) Hz).
Qed.

Lemma py_str_unwritable (a : number) (e : exn) :
  py_str float_repr a = Raise e <-> e = ValueError /\ unwritable a.
Proof.
  split.
  - destruct a as [[|] | z | f]; cbn [py_str]; try discriminate.
    destruct (int_str_spec z) as [[_ Hs] | [Hz Hs]]; rewrite Hs;
      [discriminate |].
    intros H. injection H as <-. split; [reflexivity | now exists z].
  - intros [-> (z & -> & Hz)]. cbn [py_str]. unfold int_str.
    now rewrite (proj2 (too_long_spec z) Hz).
Qed.

Lemma text_or_unwritable (a : number) :
  (exists t, amount_text float_repr a t) \/ unwritable a.
Proof.
  destruct (py_str float_repr a) as [t | e] eqn:H.
  - left. exists t. now apply py_str_text.
  - right. now apply py_str_unwritable in H.
Qed.

Lemma amount_text_writable (a : number) (t : str) :
  amount_text float_repr a t -> ~ unwritable a.
Proof.
  intros Ht Hu. apply py_str_text in Ht.
  pose proof (proj2 (py_str_unwritable a ValueError) (conj eq_refl Hu)).
  congruence.
Qed.

Lemma amount_text_unique (a : number) (t t' : str) :
  amount_text float_repr a t -> amount_text float_repr a t' -> t = t'.
Proof. rewrite <- !py_str_text. congruence. Qed.

(** The condition of the search on one record. *)
Lemma found_erring (term : str) (r : record) :
  Erring lower term r -> found lower float_repr term r = Raise ValueError.
Proof.
  intros (Hd & Hc & Hu). unfold found.
  rewrite <- str_in_spec in Hd, Hc.
  apply not_true_is_false in Hd, Hc. rewrite Hd, Hc.
  now rewrite (proj2 (py_str_unwritable _ ValueError) (conj eq_refl Hu)).
Qed.

Lemma found_criterion (term : str) (r : record) :
  ~ Erring lower term r ->
  exists keep,
    found lower float_repr term r = Ok keep /\
    (keep = true <-> Matches lower float_repr term r).
Proof.
  intros Hok. unfold found, Matches.
  destruct (str_in (lower term) (lower (description r))) eqn:Hd.
  { exists true. split; [reflexivity |].
    apply str_in_spec in Hd. tauto. }
  destruct (str_in (lower term) (lower (category r))) eqn:Hc.
  { exists true. split; [reflexivity |].
    apply str_in_spec in Hc. tauto. }
  assert (Hd' : ~ substring (lower term) (lower (description r)))
    by (rewrite <- str_in_spec; congruence).
  assert (Hc' : ~ substring (lower term) (lower (category r)))
    by (rewrite <- str_in_spec; congruence).
  destruct (text_or_unwritable (amount r)) as [[t Ht] | Hu];
    [| exfalso; apply Hok; repeat split; assumption].
  rewrite (proj2 (py_str_text _ _) Ht). cbn [rbind].
  eexists. split; [reflexivity |].
  rewrite orb_true_iff, str_in_spec, str_eqb_eq. split.
  - intros [H | H]; [right; right; left; eauto | auto].
  - intros [H | [H | [(t' & Ht' & H) | H]]]; try contradiction; [| auto].
    left. now rewrite (amount_text_unique _ _ _ Ht Ht').
Qed.

Lemma found_raises (term : str) (r : record) (e : exn) :
  found lower float_repr term r = Raise e ->
  e = ValueError /\ Erring lower term r.
Proof.
  unfold found, Erring.
  destruct (str_in (lower term) (lower (description r))) eqn:Hd;
    [discriminate |].
  destruct (str_in (lower term) (lower (category r))) eqn:Hc;
    [discriminate |].
  destruct (py_str float_repr (amount r)) as [t | e'] eqn:Hs;
    cbn [rbind]; [discriminate |].
  intros H. injection H as ->. apply py_str_unwritable in Hs as [-> Hu].
  rewrite <- !str_in_spec. repeat split; congruence.
Qed.

(** The comprehension of the search: it raises when it meets an erring
    record, and otherwise selects the matching records. *)
Lemma find_records_raises (self : wallet) (term : str) :
  Exists (Erring lower term) (records self) ->
  find_records lower float_repr self term = Raise ValueError.
Proof.
  unfold find_records.
  induction 1 as [r rs Hr | r rs _ IH]; cbn [comprehension_if].
  - now rewrite (found_erring _ _ Hr).
  - destruct (found lower float_repr term r) as [keep | e] eqn:Hf;
      cbn [rbind].
    + now rewrite IH.
    + now apply found_raises in Hf as [-> _].
Qed.

Lemma find_records_selection (self : wallet) (term : str) :
  Forall (fun r => ~ Erring lower term r) (records self) ->
  exists found,
    find_records lower float_repr self term = Ok found /\
    selection (Matches lower float_repr term) (records self) found.
Proof.
  unfold find_records.
  induction 1 as [| r rs Hr _ (found & Hrun & Hsel)];
    cbn [comprehension_if].
  - exists []. split; [reflexivity | constructor].
  - destruct (found_criterion term r Hr) as (keep & Hf & Hkeep).
    rewrite Hf, Hrun. cbn [rbind]. eexists. split; [reflexivity |].
    destruct keep.
    + apply selection_keep; [now apply Hkeep | exact Hsel].
    + apply selection_drop; [| exact Hsel].
      intros HM. apply Hkeep in HM. discriminate.
Qed.

(** The search reads the term only through [str.lower]. *)
Lemma find_records_lowered (self : wallet) (term term' : str) :
  lower term' = lower term ->
  find_records lower float_repr self term'
  = find_records lower float_repr self term.
Proof.
  intros Hlow. unfold find_records.
  induction (records self) as [| r rs IH]; [reflexivity |].
  cbn [comprehension_if]. rewrite IH. unfold found. now rewrite Hlow.
Qed.

(** C1.  [find_records] compares texts lowered by [str.lower], and two
    terms with the same lowering give the same result.  On a wallet
    without erring record it returns exactly the records that meet the
    search criterion, in their order in the wallet: the result is the
    selection of the matching records, hence a subsequence of the records
    whose members are the matching ones, and it is empty when no record
    matches.  On a wallet with an erring record, one whose amount is an
    integer of more than 4300 digits and whose description and category
    do not hold the term, it raises [ValueError]. *)
Theorem find_records_spec (self : wallet) (term : str) :
  (Forall (fun r => ~ Erring lower term r) (records self) ->
   exists found,
     find_records lower float_repr self term = Ok found /\
     selection (Matches lower float_repr term) (records self) found /\
     sublist found (records self) /\
     (forall r, In r found <->
                In r (records self) /\ Matches lower float_repr term r) /\
     ((forall r, In r (records self) -> ~ Matches lower float_repr term r) ->
      found = [])) /\
  (Exists (Erring lower term) (records self) ->
   find_records lower float_repr self term = Raise ValueError) /\
  (forall term',
      lower term' = lower term ->
      find_records lower float_repr self term'
      = find_records lower float_repr self term).
Proof.
  split; [| split; [apply find_records_raises |
                    intros term'; apply find_records_lowered]].
  intros Hok. destruct (find_records_selection self term Hok)
    as (found & Hrun & Hsel).
  exists found. split; [exact Hrun |]. split; [exact Hsel |].
  split; [| split].
  - eapply selection_sublist, Hsel.
  - eapply selection_elem, Hsel.
  - eapply selection_none, Hsel.
Qed.

(** C10.  The empty search term returns every record, in order: the
    empty string lowers to itself and occurs in every description. *)
Theorem find_records_empty_term (self : wallet) :
  lower [] = [] ->
  find_records lower float_repr self [] = Ok (records self).
Proof.
  intros Hnil.
  assert (Hin : forall r, substring (lower []) (lower (description r))).
  { intros r. rewrite Hnil. now exists [], (lower (description r)). }
  destruct (find_records_selection self []) as (found & Hrun & Hsel).
  { apply Forall_forall. intros r _ (Hd & _). apply Hd, Hin. }
  rewrite Hrun. f_equal. eapply selection_unique; [exact Hsel |].
  apply selection_all. intros r _. left. apply Hin.
Qed.

End Search.

(** ** Balance *)

Lemma labels_differ : income_label <> expense_label.
Proof. discriminate. Qed.

(** The arithmetic of the model is the arithmetic of numbers. *)
Lemma float_of_int_error (z : Z) (e : exn) :
  float_of_int z = Raise e -> e = OverflowError.
Proof.
  unfold float_of_int.
  destruct (binary_normalize prec emax z 0 false); intros H;
    first [discriminate | now injection H as <-].
Qed.

Lemma to_float_error (n : number) (e : exn) :
  to_float n = Raise e -> e = OverflowError.
Proof.
  destruct n; cbn [to_float]; try apply float_of_int_error. discriminate.
Qed.

Lemma float_value_iff (n : number) (r : result float) :
  float_value n r <-> to_float n = r.
Proof.
  split.
  - intros [f | n' z Hz]; [reflexivity |].
    destruct n' as [? | ? | ?]; cbn in Hz; try discriminate;
      now injection Hz as <-.
  - intros <-. destruct n as [b | z | f]; cbn [to_float];
      [now apply float_value_int | now apply float_value_int | constructor].
Qed.

Lemma int_or_float (n : number) :
  (exists z, int_amount n = Some z) \/
  (int_amount n = None /\ is_float_amount n).
Proof.
  destruct n as [b | z | f]; cbn; eauto. right. split; eauto. now exists f.
Qed.

Lemma is_float_amount_int (n : number) :
  is_float_amount n -> int_amount n = None.
Proof. now intros [f ->]. Qed.

Lemma num_op_unfold (op : binop) (a b : number) :
  num_op op a b
  = match int_amount a, int_amount b with
    | Some x, Some y => Ok (NInt (int_op op x y))
    | _, _ =>
        (let* x := to_float a in
         let* y := to_float b in
         Ok (NFloat (float_op op x y)))%result
    end.
Proof. destruct a, b; reflexivity. Qed.

Lemma num_op_combines (op : binop) (a b : number) (r : result number) :
  num_op op a b = r <-> combines (int_op op) (float_op op) a b r.
Proof.
  rewrite num_op_unfold. split.
  - intros <-.
    destruct (int_or_float a) as [[x Ha] | [Ha Hfa]],
             (int_or_float b) as [[y Hb] | [Hb Hfb]]; rewrite ?Ha, ?Hb;
      try (now apply combines_ints);
      (assert (Hf : is_float_amount a \/ is_float_amount b) by auto;
       destruct (to_float a) as [fa | e] eqn:Ea; cbn [rbind];
       [ destruct (to_float b) as [fb | e] eqn:Eb; cbn [rbind];
         [ apply combines_floats; [exact Hf | ..]; now apply float_value_iff
         | apply to_float_error in Eb as ?; subst e;
           apply combines_overflow; [exact Hf |]; right;
           now apply float_value_iff ]
       | apply to_float_error in Ea as ?; subst e;
         apply combines_overflow; [exact Hf |]; left;
         now apply float_value_iff ]).
  - intros [? ? x y Ha Hb | ? ? x y Hf Ha Hb | ? ? Hf Herr].
    + now rewrite Ha, Hb.
    + apply float_value_iff in Ha, Hb. rewrite Ha, Hb. cbn [rbind].
      destruct Hf as [Hf | Hf]; apply is_float_amount_int in Hf;
        rewrite Hf; [reflexivity |];
        match goal with
        | |- context [int_amount ?n] => now destruct (int_amount n)
        end.
    + match goal with
      | |- context [rbind (to_float ?n) ?k] =>
          assert (Hrun : rbind (to_float n) k = Raise OverflowError)
      end.
      { destruct Herr as [Herr | Herr]; apply float_value_iff in Herr;
          rewrite Herr; [reflexivity |].
        match goal with
        | |- rbind (to_float ?n) _ = _ =>
            destruct (to_float n) as [fa | e] eqn:Ea
        end; [reflexivity |].
        now apply to_float_error in Ea as ->. }
      rewrite Hrun.
      destruct Hf as [Hf | Hf]; apply is_float_amount_int in Hf;
        rewrite Hf; [reflexivity |];
        match goal with
        | |- context [int_amount ?n] => now destruct (int_amount n)
        end.
Qed.

Lemma py_add_Plus (a b : number) (r : result number) :
  py_add a b = r <-> Plus a b r.
Proof. apply (num_op_combines Add). Qed.

Lemma py_sub_Minus (a b : number) (r : result number) :
  py_sub a b = r <-> Minus a b r.
Proof. apply (num_op_combines Sub). Qed.

Lemma sum_from_snoc (acc : number) (l : list number) (x : number) :
  sum_from acc (l ++ [x])
  = (let* s := sum_from acc l in py_add s x)%result.
Proof.
  revert acc. induction l as [| y l IH]; intros acc; cbn [app sum_from].
  - cbn [rbind]. now destruct (py_add acc x).
  - destruct (py_add acc y); cbn [rbind]; [apply IH | reflexivity].
Qed.

Lemma py_sum_Total (l : list number) (r : result number) :
  py_sum l = r <-> Total l r.
Proof.
  unfold py_sum. split.
  - intros <-. induction l as [| x l IH] using rev_ind.
    + constructor.
    + rewrite sum_from_snoc.
      destruct (sum_from (NInt 0) l) as [s | e]; cbn [rbind].
      * eapply Total_snoc; [exact IH | now apply py_add_Plus].
      * now apply Total_failed.
  - induction 1 as [| l x s r _ IH Hp | l x e _ IH].
    + reflexivity.
    + rewrite sum_from_snoc, IH. cbn [rbind]. now apply py_add_Plus.
    + now rewrite sum_from_snoc, IH.
Qed.

Lemma combines_error (on_int : Z -> Z -> Z)
    (on_float : float -> float -> float) (a b : number) (e : exn) :
  combines on_int on_float a b (Raise e) -> e = OverflowError.
Proof. now inversion 1. Qed.

Lemma Total_error (l : list number) (e : exn) :
  Total l (Raise e) -> e = OverflowError.
Proof.
  intros H. apply py_sum_Total in H. unfold py_sum in H.
  revert H. generalize (NInt 0).
  induction l as [| x l IH]; intros acc; cbn [sum_from]; [discriminate |].
  destruct (py_add acc x) as [acc' | e'] eqn:Ha; cbn [rbind].
  - apply IH.
  - intros H. injection H as ->. apply py_add_Plus in Ha.
    eapply combines_error, Ha.
Qed.

Section Balance.

Variable lower : str -> str.
Variable float_repr : float -> str.

Lemma filter_partition (rs : list record) :
  partition_amounts lower rs
  = (List.map amount
       (List.filter (fun r => str_eqb (lower (category r)) income_label) rs),
     List.map amount
       (List.filter (fun r => str_eqb (lower (category r)) expense_label) rs)).
Proof.
  induction rs as [| r rs IH]; [reflexivity |].
  cbn [partition_amounts List.filter]. rewrite IH.
  unfold role_of, str_eqb.
  destruct (decide (lower (category r) = income_label)) as [Hi | Hi].
  - rewrite (bool_decide_eq_true_2 _ Hi).
    rewrite bool_decide_eq_false_2; [reflexivity |].
    rewrite Hi. apply labels_differ.
  - rewrite (bool_decide_eq_false_2 _ Hi).
    destruct (decide (lower (category r) = expense_label)) as [He | He].
    + rewrite (bool_decide_eq_true_2 _ He). reflexivity.
    + rewrite (bool_decide_eq_false_2 _ He). reflexivity.
Qed.

Lemma partition_amounts_skip (l1 l2 : list record) (r : record) :
  role_of lower r = None ->
  partition_amounts lower (l1 ++ r :: l2) = partition_amounts lower (l1 ++ l2).
Proof.
  intros Hr. induction l1 as [| x l1 IH]; cbn [app partition_amounts].
  - rewrite Hr. now destruct (partition_amounts lower l2).
  - now rewrite IH.
Qed.

(** The run of [display_balance] on the two parts of the records. *)
Lemma display_balance_run (self : wallet) (out : list str) :
  display_balance lower float_repr self out
  = match
      (let* income := py_sum (fst (partition_amounts lower (records self))) in
       let* expense := py_sum (snd (partition_amounts lower (records self))) in
       let* balance := py_sub income expense in
       let* b := py_str float_repr balance in
       let* i := py_str float_repr income in
       let* e := py_str float_repr expense in
       Ok (balance_report b i e))%result
    with
    | Ok text => (Ok tt, out ++ [text])
    | Raise e => (Raise e, out)
    end.
Proof.
  unfold display_balance, bind, lift. rewrite filter_partition.
  cbn [fst snd].
  destruct (py_sum _) as [income | ?]; cbn [rbind]; [| reflexivity].
  destruct (py_sum _) as [expense | ?]; cbn [rbind]; [| reflexivity].
  destruct (py_sub income expense) as [balance | ?]; cbn [rbind];
    [| reflexivity].
  destruct (py_str float_repr balance) as [b | ?]; cbn [rbind];
    [| reflexivity].
  destruct (py_str float_repr income) as [i | ?]; cbn [rbind];
    [| reflexivity].
  destruct (py_str float_repr expense) as [e | ?]; cbn [rbind];
    [| reflexivity].
  unfold print_out, balance_report. repeat rewrite <- app_assoc.
  reflexivity.
Qed.

Lemma display_balance_unwritable (self : wallet) (out : list str)
    (income expense balance : number) :
  Total (fst (partition_amounts lower (records self))) (Ok income) ->
  Total (snd (partition_amounts lower (records self))) (Ok expense) ->
  Minus income expense (Ok balance) ->
  unwritable balance \/ unwritable income \/ unwritable expense ->
  display_balance lower float_repr self out = (Raise ValueError, out).
Proof.
  intros Hi He Hb Hu. rewrite display_balance_run.
  apply py_sum_Total in Hi, He. apply py_sub_Minus in Hb.
  rewrite Hi, He. cbn [rbind]. rewrite Hb. cbn [rbind].
  assert (Hstr : forall a,
             (exists t, py_str float_repr a = Ok t) \/
             py_str float_repr a = Raise ValueError).
  { intros a. destruct (py_str float_repr a) as [t | e] eqn:E; eauto.
    right. now apply py_str_unwritable in E as [-> _]. }
  assert (Hbad : forall a, unwritable a ->
                           py_str float_repr a = Raise ValueError).
  { intros a Ha. now apply py_str_unwritable. }
  destruct (Hstr balance) as [[b Hsb] | Hsb]; rewrite Hsb;
    [| reflexivity]. cbn [rbind].
  destruct (Hstr income) as [[i Hsi] | Hsi]; rewrite Hsi;
    [| reflexivity]. cbn [rbind].
  destruct (Hstr expense) as [[e Hse] | Hse]; rewrite Hse;
    [| reflexivity].
  destruct Hu as [Hu | [Hu | Hu]]; apply Hbad in Hu; congruence.
Qed.

(** C4.  [display_balance] partitions the records by their lowered
    category into income, expense and neither, no record being in both
    parts.  It writes the report exactly when the amounts of each part can
    be totalled, the expense total subtracted from the income total, and
    the three numbers written; the report then holds those numbers.
    Otherwise it writes nothing and raises [OverflowError], when an
    integer too large for a float meets a float, or [ValueError], when a
    number to write is an integer of more than 4300 digits.  A record in
    neither part can be inserted or dropped anywhere without changing the
    outcome, error or not. *)
Theorem display_balance_spec (self : wallet) (out : list str) :
  let incomes := fst (partition_amounts lower (records self)) in
  let expenses := snd (partition_amounts lower (records self)) in
  (forall r, ~ (lower (category r) = income_label /\
                lower (category r) = expense_label)) /\
  (forall out',
      display_balance lower float_repr self out = (Ok tt, out') <->
      exists income expense balance b i e,
        Total incomes (Ok income) /\ Total expenses (Ok expense) /\
        Minus income expense (Ok balance) /\
        amount_text float_repr balance b /\
        amount_text float_repr income i /\
        amount_text float_repr expense e /\
        out' = out ++ [balance_report b i e]) /\
  (forall err out',
      display_balance lower float_repr self out = (Raise err, out') ->
      out' = out /\
      ((err = OverflowError /\
        (Total incomes (Raise err) \/ Total expenses (Raise err) \/
         exists income expense,
           Total incomes (Ok income) /\ Total expenses (Ok expense) /\
           Minus income expense (Raise err))) \/
       (err = ValueError /\
        exists income expense balance,
          Total incomes (Ok income) /\ Total expenses (Ok expense) /\
          Minus income expense (Ok balance) /\
          (unwritable balance \/ unwritable income \/
           unwritable expense)))) /\
  (forall l1 r l2,
      records self = l1 ++ r :: l2 ->
      role_of lower r = None ->
      display_balance lower float_repr self out
      = display_balance lower float_repr (set_records self (l1 ++ l2)) out).
Proof.
  cbn zeta. split; [| split; [| split]].
  - intros r [Hi He]. apply labels_differ. congruence.
  - intros out'. rewrite display_balance_run. split.
    + destruct (py_sum (fst _)) as [income |] eqn:Hi; cbn [rbind];
        [| discriminate].
      destruct (py_sum (snd _)) as [expense |] eqn:He; cbn [rbind];
        [| discriminate].
      destruct (py_sub income expense) as [balance |] eqn:Hb; cbn [rbind];
        [| discriminate].
      destruct (py_str float_repr balance) as [b |] eqn:Hsb; cbn [rbind];
        [| discriminate].
      destruct (py_str float_repr income) as [i |] eqn:Hsi; cbn [rbind];
        [| discriminate].
      destruct (py_str float_repr expense) as [e |] eqn:Hse; cbn [rbind];
        [| discriminate].
      intros H. injection H as <-.
      exists income, expense, balance, b, i, e.
      rewrite <- !py_sum_Total, <- py_sub_Minus, <- !py_str_text. auto 10.
    + intros (income & expense & balance & b & i & e &
              Hi & He & Hb & Hsb & Hsi & Hse & ->).
      apply py_sum_Total in Hi, He. apply py_sub_Minus in Hb.
      apply py_str_text in Hsb, Hsi, Hse.
      rewrite Hi, He. cbn [rbind]. rewrite Hb. cbn [rbind].
      rewrite Hsb, Hsi, Hse. reflexivity.
  - intros err out'. rewrite display_balance_run.
    destruct (py_sum (fst _)) as [income | e1] eqn:Hi; cbn [rbind].
    2: { intros H. injection H as -> <-. split; [reflexivity |].
         left. apply py_sum_Total in Hi.
         split; [eapply Total_error, Hi | now left]. }
    destruct (py_sum (snd _)) as [expense | e2] eqn:He; cbn [rbind].
    2: { intros H. injection H as -> <-. split; [reflexivity |].
         left. apply py_sum_Total in He.
         split; [eapply Total_error, He | right; now left]. }
    apply py_sum_Total in Hi, He.
    destruct (py_sub income expense) as [balance | e3] eqn:Hb; cbn [rbind].
    2: { intros H. injection H as -> <-. split; [reflexivity |].
         left. apply py_sub_Minus in Hb.
         split; [eapply combines_error, Hb | right; right; eauto]. }
    apply py_sub_Minus in Hb.
    destruct (py_str float_repr balance) as [b | e4] eqn:Hsb; cbn [rbind].
    2: { intros H. injection H as -> <-.
         apply py_str_unwritable in Hsb as [-> Hu].
         split; [reflexivity |]. right. split; [reflexivity |].
         exists income, expense, balance. repeat split; auto. }
    destruct (py_str float_repr income) as [i | e5] eqn:Hsi; cbn [rbind].
    2: { intros H. injection H as -> <-.
         apply py_str_unwritable in Hsi as [-> Hu].
         split; [reflexivity |]. right. split; [reflexivity |].
         exists income, expense, balance. repeat split; auto. }
    destruct (py_str float_repr expense) as [e | e6] eqn:Hse; cbn [rbind];
      [discriminate |].
    intros H. injection H as -> <-.
    apply py_str_unwritable in Hse as [-> Hu].
    split; [reflexivity |]. right. split; [reflexivity |].
    exists income, expense, balance. repeat split; auto.
  - intros l1 r l2 Hrs Hr. rewrite !display_balance_run.
    cbn [set_records records]. rewrite Hrs.
    now rewrite partition_amounts_skip.
Qed.

End Balance.

(** ** Mutation and persistence *)

(** The guard of [edit_record] and [remove_record]. *)
Lemma index_guard (index : Z) (n : nat) :
  (0 <=? index) && (index <? Z.of_nat n) = true
  <-> 0 <= index < Z.of_nat n.
Proof. rewrite andb_true_iff, Z.leb_le, Z.ltb_lt. tauto. Qed.

Lemma index_guard_false (index : Z) (n : nat) :
  ~ 0 <= index < Z.of_nat n ->
  (0 <=? index) && (index <? Z.of_nat n) = false.
Proof.
  intros H. apply not_true_is_false. now rewrite index_guard.
Qed.

Lemma opens_or_refused (fs : fsys) (path : str) :
  opens fs path \/ exists e, fs !! path = Some (Blocked e).
Proof.
  unfold opens. destruct (fs !! path) as [[text | | e] |]; eauto;
    left; intros e'; discriminate.
Qed.

Section Mutation.

Variable json_dumps : value -> str * option exn.

(** Writing the store file comes to what [written] says, and to nothing
    else. *)
Lemma save_records_written (self : wallet) (fs : fsys) :
  written json_dumps self fs (fst (save_records json_dumps self fs))
    (snd (save_records json_dumps self fs)).
Proof.
  unfold save_records, write_file, serialization.
  destruct (opens_or_refused fs (filename self)) as [Hopen | [e He]].
  - destruct (json_dumps (VList (List.map to_dict (records self))))
      as [text [e |]] eqn:Hdump; cbn [fst snd].
    + replace (match fs !! filename self with
               | Some (Blocked e0) => (Raise e0, fs)
               | _ => (Raise e, <[filename self := Text text]> fs)
               end) with (@Raise unit e, <[filename self := Text text]> fs).
      * now apply written_part.
      * destruct (fs !! filename self) as [[? | | e0] |] eqn:E;
          try reflexivity. now apply Hopen in E.
    + replace (match fs !! filename self with
               | Some (Blocked e0) => (Raise e0, fs)
               | _ => (Ok tt, <[filename self := Text text]> fs)
               end) with (Ok tt, <[filename self := Text text]> fs).
      * now apply written_whole.
      * destruct (fs !! filename self) as [[? | | e0] |] eqn:E;
          try reflexivity. now apply Hopen in E.
  - rewrite He. now apply written_refused.
Qed.

Lemma written_unique (self : wallet) (fs : fsys) (r1 r2 : result unit)
    (fs1 fs2 : fsys) :
  written json_dumps self fs r1 fs1 -> written json_dumps self fs r2 fs2 ->
  r1 = r2 /\ fs1 = fs2.
Proof.
  intros [e1 H1 | t1 H1 D1 | t1 e1 H1 D1] [e2 H2 | t2 H2 D2 | t2 e2 H2 D2];
    try (exfalso; first [eapply H1, H2 | eapply H2, H1]);
    try congruence.
  - split; congruence.
  - split; congruence.
  - split; congruence.
Qed.

Lemma save_records_iff (self : wallet) (fs : fsys) (r : result unit)
    (fs' : fsys) :
  save_records json_dumps self fs = (r, fs') <->
  written json_dumps self fs r fs'.
Proof.
  pose proof (save_records_written self fs) as H. split.
  - intros E. now rewrite E in H.
  - intros H'. destruct (written_unique _ _ _ _ _ _ H H') as [<- <-].
    now destruct (save_records json_dumps self fs).
Qed.

Lemma written_persisted (self : wallet) (fs fs' : fsys) :
  written json_dumps self fs (Ok tt) fs' -> persisted json_dumps self fs'.
Proof.
  inversion 1 as [| text Hopen Hdump |]; subst.
  exists text. split; [exact Hdump | apply lookup_insert_eq].
Qed.

Lemma written_frame (self : wallet) (fs : fsys) (r : result unit)
    (fs' : fsys) (path : str) :
  written json_dumps self fs r fs' -> path <> filename self ->
  fs' !! path = fs !! path.
Proof.
  intros [e H | text H D | text e H D] Hp; [reflexivity | ..];
    apply lookup_insert_ne; congruence.
Qed.

(** What a call that writes the store file returns: true when the whole
    text was written, and the exception that kept it from that
    otherwise. *)
Lemma saved_result (saved : result unit) :
  (saved = Ok tt /\ (let* _ := saved in Ok true)%result = Ok true) \/
  (exists e, saved = Raise e /\
             (let* _ := saved in Ok true)%result = Raise e).
Proof. destruct saved as [[] | e]; eauto. Qed.

Lemma add_record_run (self : wallet) (r : record) (fs : fsys) :
  exists saved fs',
    add_record json_dumps self r fs
    = (saved, set_records self (records self ++ [r]), fs') /\
    written json_dumps (set_records self (records self ++ [r])) fs saved fs'.
Proof.
  unfold add_record. do 2 eexists. split; [reflexivity |].
  apply save_records_written.
Qed.

Lemma edit_record_in_range (self : wallet) (index : Z) (r : record)
    (fs : fsys) :
  0 <= index < Z.of_nat (length (records self)) ->
  exists saved fs',
    edit_record json_dumps self index r fs
    = ((let* _ := saved in Ok true)%result,
       set_records self (<[Z.to_nat index := r]> (records self)), fs') /\
    written json_dumps
      (set_records self (<[Z.to_nat index := r]> (records self)))
      fs saved fs'.
Proof.
  intros H. unfold edit_record. rewrite (proj2 (index_guard _ _) H).
  do 2 eexists. split; [reflexivity |]. apply save_records_written.
Qed.

Lemma edit_record_out_of_range (self : wallet) (index : Z) (r : record)
    (fs : fsys) :
  ~ 0 <= index < Z.of_nat (length (records self)) ->
  edit_record json_dumps self index r fs = (Ok false, self, fs).
Proof.
  intros H. unfold edit_record.
  rewrite (index_guard_false _ _ H). reflexivity.
Qed.

Lemma remove_record_in_range (self : wallet) (index : Z) (fs : fsys) :
  0 <= index < Z.of_nat (length (records self)) ->
  exists saved fs',
    remove_record json_dumps self index fs
    = ((let* _ := saved in Ok true)%result,
       set_records self (delete (Z.to_nat index) (records self)), fs') /\
    written json_dumps
      (set_records self (delete (Z.to_nat index) (records self)))
      fs saved fs'.
Proof.
  intros H. unfold remove_record. rewrite (proj2 (index_guard _ _) H).
  do 2 eexists. split; [reflexivity |]. apply save_records_written.
Qed.

Lemma remove_record_out_of_range (self : wallet) (index : Z) (fs : fsys) :
  ~ 0 <= index < Z.of_nat (length (records self)) ->
  remove_record json_dumps self index fs = (Ok false, self, fs).
Proof.
  intros H. unfold remove_record.
  rewrite (index_guard_false _ _ H). reflexivity.
Qed.

(** The outcome of a call that has changed the records to those of
    [self'] and then written the store file: it returns true with the
    file holding the records, or it raises what kept the file from being
    written, with the file as the failed writing left it. *)
Lemma saved_outcome (self' : wallet) (fs : fsys) (saved : result unit)
    (fs' : fsys) :
  written json_dumps self' fs saved fs' ->
  ((let* _ := saved in Ok true)%result = Ok true /\
   persisted json_dumps self' fs') \/
  (exists e, (let* _ := saved in Ok true)%result = Raise e /\
             written json_dumps self' fs (Raise e) fs').
Proof.
  intros H. destruct (saved_result saved) as [[-> Hr] | (e & -> & Hr)].
  - left. split; [exact Hr | now apply written_persisted in H].
  - right. exists e. now split.
Qed.

(** C5.  Within range, [edit_record] puts the new record at the index and
    keeps every other element and the length; then it writes the store
    file, and returns true with the file holding the new records, unless
    the file could not be written: then it raises, the records in memory
    being the new ones all the same.  Out of range, negative indices
    included, it returns false without raising and leaves the wallet and
    the file system as they were. *)
Theorem edit_record_spec (self : wallet) (index : Z) (new_record : record)
    (fs : fsys) :
  (0 <= index < Z.of_nat (length (records self)) ->
   exists res self' fs',
     edit_record json_dumps self index new_record fs = (res, self', fs') /\
     ((res = Ok true /\ persisted json_dumps self' fs') \/
      (exists e, res = Raise e /\
                 written json_dumps self' fs (Raise e) fs')) /\
     (forall path, path <> filename self -> fs' !! path = fs !! path) /\
     filename self' = filename self /\
     length (records self') = length (records self) /\
     records self' !! Z.to_nat index = Some new_record /\
     (forall j : nat, j <> Z.to_nat index ->
                      records self' !! j = records self !! j)) /\
  (~ 0 <= index < Z.of_nat (length (records self)) ->
   edit_record json_dumps self index new_record fs = (Ok false, self, fs)).
Proof.
  split; [| apply edit_record_out_of_range].
  intros H.
  destruct (edit_record_in_range self index new_record fs H)
    as (saved & fs' & Hrun & Hw).
  do 3 eexists. split; [exact Hrun |].
  split; [now apply saved_outcome |].
  split; [intros path Hp; eapply written_frame; [exact Hw | exact Hp] |].
  cbn [set_records filename records].
  split; [reflexivity |]. split; [apply length_insert |]. split.
  - apply list_lookup_insert_eq. lia.
  - intros j Hj. apply list_lookup_insert_ne. congruence.
Qed.

(** C6.  Within range, [remove_record] deletes the element at the index:
    the elements before it stay, every later element moves down by one
    position, the length drops by one; then it writes the store file, and
    returns true with the file holding the remaining records, unless the
    file could not be written: then it raises, the element being deleted
    in memory all the same.  Out of range, negative indices included, it
    returns false and changes neither the wallet nor the file system. *)
Theorem remove_record_spec (self : wallet) (index : Z) (fs : fsys) :
  (0 <= index < Z.of_nat (length (records self)) ->
   exists res self' fs',
     remove_record json_dumps self index fs = (res, self', fs') /\
     ((res = Ok true /\ persisted json_dumps self' fs') \/
      (exists e, res = Raise e /\
                 written json_dumps self' fs (Raise e) fs')) /\
     (forall path, path <> filename self -> fs' !! path = fs !! path) /\
     filename self' = filename self /\
     length (records self) = S (length (records self')) /\
     (forall j : nat, (j < Z.to_nat index)%nat ->
                      records self' !! j = records self !! j) /\
     (forall j : nat, (Z.to_nat index <= j)%nat ->
                      records self' !! j = records self !! S j)) /\
  (~ 0 <= index < Z.of_nat (length (records self)) ->
   remove_record json_dumps self index fs = (Ok false, self, fs)).
Proof.
  split; [| apply remove_record_out_of_range].
  intros H.
  destruct (remove_record_in_range self index fs H)
    as (saved & fs' & Hrun & Hw).
  do 3 eexists. split; [exact Hrun |].
  split; [now apply saved_outcome |].
  split; [intros path Hp; eapply written_frame; [exact Hw | exact Hp] |].
  cbn [set_records filename records].
  split; [reflexivity |]. split; [| split].
  - assert (Hlt : (Z.to_nat index < length (records self))%nat) by lia.
    rewrite length_delete by now apply lookup_lt_is_Some.
    lia.
  - intros j Hj. now apply list_lookup_delete_lt.
  - intros j Hj. now apply list_lookup_delete_ge.
Qed.

Lemma add_record_returns (self : wallet) (r : record) (fs : fsys)
    (self' : wallet) (fs' : fsys) :
  add_record json_dumps self r fs = (Ok tt, self', fs') ->
  self' = set_records self (records self ++ [r]) /\
  persisted json_dumps self' fs'.
Proof.
  destruct (add_record_run self r fs) as (saved & fs1 & Hrun & Hw).
  rewrite Hrun. intros H. injection H as -> <- <-.
  split; [reflexivity | now apply written_persisted in Hw].
Qed.

Lemma edit_record_returns (self : wallet) (index : Z) (r : record)
    (fs : fsys) (self' : wallet) (fs' : fsys) :
  edit_record json_dumps self index r fs = (Ok true, self', fs') ->
  0 <= index < Z.of_nat (length (records self)) /\
  self' = set_records self (<[Z.to_nat index := r]> (records self)) /\
  persisted json_dumps self' fs'.
Proof.
  destruct (decide (0 <= index < Z.of_nat (length (records self))))
    as [Hin | Hout].
  - destruct (edit_record_in_range self index r fs Hin)
      as (saved & fs1 & Hrun & Hw).
    rewrite Hrun. intros H. injection H as Hs <- <-.
    destruct saved as [[] | e]; [| discriminate].
    split; [exact Hin |]. split; [reflexivity |].
    now apply written_persisted in Hw.
  - rewrite (edit_record_out_of_range _ _ _ _ Hout). discriminate.
Qed.

Lemma remove_record_returns (self : wallet) (index : Z) (fs : fsys)
    (self' : wallet) (fs' : fsys) :
  remove_record json_dumps self index fs = (Ok true, self', fs') ->
  0 <= index < Z.of_nat (length (records self)) /\
  self' = set_records self (delete (Z.to_nat index) (records self)) /\
  persisted json_dumps self' fs'.
Proof.
  destruct (decide (0 <= index < Z.of_nat (length (records self))))
    as [Hin | Hout].
  - destruct (remove_record_in_range self index fs Hin)
      as (saved & fs1 & Hrun & Hw).
    rewrite Hrun. intros H. injection H as Hs <- <-.
    destruct saved as [[] | e]; [| discriminate].
    split; [exact Hin |]. split; [reflexivity |].
    now apply written_persisted in Hw.
  - rewrite (remove_record_out_of_range _ _ _ Hout). discriminate.
Qed.

(** C8.  A mutation that returns has left the store file equal to the
    serialization of the records now in memory, element by element in
    order: [add_record] appends the record at the end, whether or not an
    equal record is already there, and then writes the file; an
    [edit_record] or [remove_record] that returns true has written the
    records it leaves.  A mutation whose writing raises has changed the
    records in memory all the same, and leaves the file as the failed
    writing left it. *)
Theorem mutation_persists :
  (forall self r fs,
      exists res fs',
        add_record json_dumps self r fs
        = (res, set_records self (records self ++ [r]), fs') /\
        ((res = Ok tt /\
          persisted json_dumps (set_records self (records self ++ [r])) fs')
         \/
         (exists e,
             res = Raise e /\
             written json_dumps (set_records self (records self ++ [r]))
               fs (Raise e) fs'))) /\
  (forall self r fs self1 fs1 self2 fs2,
      add_record json_dumps self r fs = (Ok tt, self1, fs1) ->
      add_record json_dumps self1 r fs1 = (Ok tt, self2, fs2) ->
      records self2 = records self ++ [r; r] /\
      persisted json_dumps self2 fs2) /\
  (forall self index r fs self' fs',
      edit_record json_dumps self index r fs = (Ok true, self', fs') ->
      persisted json_dumps self' fs') /\
  (forall self index fs self' fs',
      remove_record json_dumps self index fs = (Ok true, self', fs') ->
      persisted json_dumps self' fs').
Proof.
  split; [| split; [| split]].
  - intros self r fs.
    destruct (add_record_run self r fs) as (saved & fs' & Hrun & Hw).
    exists saved, fs'. split; [exact Hrun |].
    destruct saved as [[] | e].
    + left. split; [reflexivity | now apply written_persisted in Hw].
    + right. now exists e.
  - intros self r fs self1 fs1 self2 fs2 H1 H2.
    apply add_record_returns in H1 as [-> _].
    apply add_record_returns in H2 as [-> Hp].
    split; [| exact Hp].
    cbn [set_records records]. now rewrite <- app_assoc.
  - intros self index r fs self' fs' H.
    now apply edit_record_returns in H.
  - intros self index fs self' fs' H.
    now apply remove_record_returns in H.
Qed.

End Mutation.

(** ** Loading *)

Section Loading.

Variable json_loads : str -> result value.

(** When the store file cannot be opened or decoded, [load_records]
    recovers from the exceptions its clauses name and lets every other
    one through. *)
Lemma load_records_recovers (self : wallet) (fs : fsys) (e : exn) :
  decoded json_loads fs (filename self) (Raise e) -> recovered e ->
  load_records json_loads self fs = (Ok (set_records self []), fs).
Proof.
  intros H Hrec. unfold load_records, try_except, bind, read_file, lift.
  inversion H as [E | e' E | E | text E Hl]; subst; rewrite E.
  - reflexivity.
  - now destruct Hrec as [-> | ->].
  - now destruct Hrec.
  - rewrite Hl. now destruct Hrec as [-> | ->].
Qed.

Lemma load_records_surfaces (self : wallet) (fs : fsys) (e : exn) :
  decoded json_loads fs (filename self) (Raise e) -> ~ recovered e ->
  load_records json_loads self fs = (Raise e, fs).
Proof.
  intros H Hrec. unfold recovered in Hrec.
  unfold load_records, try_except, bind, read_file, lift.
  inversion H as [E | e' E | E | text E Hl]; subst; rewrite E.
  - tauto.
  - destruct e; tauto.
  - reflexivity.
  - rewrite Hl. destruct e; tauto.
Qed.

(** C7.  Constructing a wallet on a file that is missing, or is empty or
    another text that [json.load] rejects with [JSONDecodeError], returns
    a wallet with no records and raises nothing.  Only
    [FileNotFoundError] and [JSONDecodeError] are recovered from: every
    other exception of opening and decoding the file leaves the
    constructor, as [UnicodeDecodeError] does on a file that is not
    UTF-8.  The file system is left as it was in every case.  That
    [json.load] rejects the empty text is the fact about the decoder the
    empty case rests on. *)
Theorem Wallet_init_recovers (path : str) (fs : fsys) :
  (forall e,
      decoded json_loads fs path (Raise e) ->
      (recovered e ->
       Wallet_init json_loads path fs
       = (Ok {| filename := path; records := [] |}, fs)) /\
      (~ recovered e -> Wallet_init json_loads path fs = (Raise e, fs))) /\
  (fs !! path = None ->
   Wallet_init json_loads path fs
   = (Ok {| filename := path; records := [] |}, fs)) /\
  (json_loads [] = Raise JSONDecodeError ->
   fs !! path = Some (Text []) ->
   Wallet_init json_loads path fs
   = (Ok {| filename := path; records := [] |}, fs)) /\
  (forall text,
      fs !! path = Some (Text text) ->
      json_loads text = Raise JSONDecodeError ->
      Wallet_init json_loads path fs
      = (Ok {| filename := path; records := [] |}, fs)) /\
  (fs !! path = Some Binary ->
   Wallet_init json_loads path fs = (Raise UnicodeDecodeError, fs)).
Proof.
  assert (Hgen : forall e,
             decoded json_loads fs path (Raise e) ->
             (recovered e ->
              Wallet_init json_loads path fs
              = (Ok {| filename := path; records := [] |}, fs)) /\
             (~ recovered e ->
              Wallet_init json_loads path fs = (Raise e, fs))).
  { intros e H. unfold Wallet_init. split; intros Hrec.
    - now apply (load_records_recovers (mkWallet path []) fs e).
    - now apply (load_records_surfaces (mkWallet path []) fs e). }
  assert (Htext : forall text,
             fs !! path = Some (Text text) ->
             json_loads text = Raise JSONDecodeError ->
             Wallet_init json_loads path fs
             = (Ok {| filename := path; records := [] |}, fs)).
  { intros text E Hbad. apply (Hgen JSONDecodeError); [| now right].
    rewrite <- Hbad. now apply decoded_text. }
  split; [exact Hgen |]. split; [| split; [| split]].
  - intros E. apply (Hgen FileNotFoundError); [| now left].
    now apply decoded_missing.
  - intros Hempty E. now apply (Htext []).
  - exact Htext.
  - intros E. apply (Hgen UnicodeDecodeError).
    + now apply decoded_binary.
    + intros [H | H]; discriminate.
Qed.

End Loading.

(** The empty term on a wallet of two records, with the lowering of the
    examples. *)
Lemma find_records_empty_term_witness :
  lower_basic [] = [] /\
  find_records lower_basic repr_integral
    (mkWallet (lit "wallet.txt")
       [mkRecord (lit "2023-01-01") (lit "Income") (NFloat 1000) (lit "Salary");
        mkRecord (lit "2023-02-01") (lit "Expense") (NFloat 500) (lit "Groceries")])
    []
  = Ok [mkRecord (lit "2023-01-01") (lit "Income") (NFloat 1000) (lit "Salary");
        mkRecord (lit "2023-02-01") (lit "Expense") (NFloat 500)
          (lit "Groceries")].
Proof.
  split; [reflexivity |].
  apply (find_records_empty_term lower_basic repr_integral
           (mkWallet (lit "wallet.txt")
              [mkRecord (lit "2023-01-01") (lit "Income") (NFloat 1000)
                 (lit "Salary");
               mkRecord (lit "2023-02-01") (lit "Expense") (NFloat 500)
                 (lit "Groceries")])).
  reflexivity.
Defined.

(** Where the search departs from a case-insensitive search that never
    fails.  On a record whose amount is the integer 10^4300 a term that
    is in neither the description nor the category raises [ValueError].
    And the term Σ is not found in the description ΑΣ, of which it is a
    part: [str.lower] turns the last letter of the description into the
    final sigma ς and the term into σ. *)
Lemma find_records_counterexample :
  find_records lower_basic repr_integral (mkWallet (lit "wallet.txt") [bonus])
    (lit "salary")
  = Raise ValueError /\
  substring (lit "Σ") (lit "ΑΣ") /\
  find_records lower_greek repr_integral
    (mkWallet (lit "wallet.txt")
       [mkRecord (lit "2023-01-01") (lit "Income") (NFloat 1000) (lit "ΑΣ")])
    (lit "Σ")
  = Ok [].
Proof.
  split; [| split].
  - apply find_records_raises. constructor. split; [| split].
    + rewrite <- str_in_spec. vm_compute. discriminate.
    + rewrite <- str_in_spec. vm_compute. discriminate.
    + exists (10 ^ 4300). split; [reflexivity |].
      rewrite Z.abs_eq; [reflexivity | now apply Z.pow_nonneg].
  - exists (lit "Α"), []. vm_compute. reflexivity.
  - vm_compute. reflexivity.
Qed.

(** Two incomes of 9 * 10^4299, each of 4300 digits: their total has 4301
    digits, and [display_balance] raises [ValueError] where it is to
    write it, and writes nothing.  And an income of 2^1024, an integer
    too large for a float, followed by an income of 1.0: the sum raises
    [OverflowError]. *)
Lemma display_balance_counterexample :
  display_balance lower_basic repr_integral
    (mkWallet (lit "wallet.txt") [large_income; large_income]) []
  = (Raise ValueError, []) /\
  Total [amount large_income; amount large_income]
    (Ok (NInt (0 + 9 * 10 ^ 4299 + 9 * 10 ^ 4299))) /\
  display_balance lower_basic repr_integral
    (mkWallet (lit "wallet.txt")
       [mkRecord (lit "2023-01-01") (lit "Доход") (NInt (2 ^ 1024)) (lit "a");
        mkRecord (lit "2023-01-02") (lit "Доход") (NFloat 1) (lit "b")])
    []
  = (Raise OverflowError, []).
Proof.
  assert (Htotal : Total [amount large_income; amount large_income]
                     (Ok (NInt (0 + 9 * 10 ^ 4299 + 9 * 10 ^ 4299)))).
  { apply py_sum_Total. reflexivity. }
  split; [| split; [exact Htotal | vm_compute; reflexivity]].
  apply (display_balance_unwritable lower_basic repr_integral _ _
           (NInt (0 + 9 * 10 ^ 4299 + 9 * 10 ^ 4299)) (NInt 0)
           (NInt (0 + 9 * 10 ^ 4299 + 9 * 10 ^ 4299 - 0))).
  - exact Htotal.
  - apply Total_nil.
  - now apply combines_ints.
  - left. eexists. split; [reflexivity |].
    change (10 ^ 4300) with (10 ^ Z.succ 4299).
    rewrite Z.pow_succ_r by lia.
    assert (Hp : 0 < 10 ^ 4299) by now apply Z.pow_pos_nonneg.
    revert Hp. generalize (10 ^ 4299). intros p Hp. lia.
Qed.

(** Editing the salary record into one whose description [json.dump]
    cannot write: the call raises [UnicodeEncodeError]; the record is
    replaced in memory, and the store file, emptied and written in part,
    no longer holds the records of the wallet, neither the old ones nor
    the new. *)
Lemma edit_record_counterexample :
  fst (fst (edit_record dumps_pretty (mkWallet (lit "wallet.txt") [salary]) 0
              scarred {[ lit "wallet.txt" := Text salary_store ]}))
  = Raise UnicodeEncodeError /\
  snd (fst (edit_record dumps_pretty (mkWallet (lit "wallet.txt") [salary]) 0
              scarred {[ lit "wallet.txt" := Text salary_store ]}))
  = mkWallet (lit "wallet.txt") [scarred] /\
  persisted dumps_pretty (mkWallet (lit "wallet.txt") [salary])
    {[ lit "wallet.txt" := Text salary_store ]} /\
  ~ persisted dumps_pretty (mkWallet (lit "wallet.txt") [scarred])
      (snd (edit_record dumps_pretty (mkWallet (lit "wallet.txt") [salary]) 0
              scarred {[ lit "wallet.txt" := Text salary_store ]})) /\
  ~ persisted dumps_pretty (mkWallet (lit "wallet.txt") [salary])
      (snd (edit_record dumps_pretty (mkWallet (lit "wallet.txt") [salary]) 0
              scarred {[ lit "wallet.txt" := Text salary_store ]})).
Proof.
  split; [vm_compute; reflexivity |]. split; [vm_compute; reflexivity |].
  split; [| split].
  - exists salary_store. split; [reflexivity | apply lookup_singleton_eq].
  - intros (text & Hdump & _). vm_compute in Hdump. discriminate.
  - intros (text & Hdump & Hfile). vm_compute in Hdump, Hfile.
    injection Hdump as <-. discriminate.
Qed.

(** Removing the salary record from before a record [json.dump] cannot
    write: the call raises [UnicodeEncodeError]; the record is deleted in
    memory, and the store file does not hold the remaining records. *)
Lemma remove_record_counterexample :
  fst (fst (remove_record dumps_pretty
              (mkWallet (lit "wallet.txt") [salary; scarred]) 0 ∅))
  = Raise UnicodeEncodeError /\
  snd (fst (remove_record dumps_pretty
              (mkWallet (lit "wallet.txt") [salary; scarred]) 0 ∅))
  = mkWallet (lit "wallet.txt") [scarred] /\
  ~ persisted dumps_pretty (mkWallet (lit "wallet.txt") [scarred])
      (snd (remove_record dumps_pretty
              (mkWallet (lit "wallet.txt") [salary; scarred]) 0 ∅)).
Proof.
  split; [vm_compute; reflexivity |]. split; [vm_compute; reflexivity |].
  intros (text & Hdump & _). vm_compute in Hdump. discriminate.
Qed.

(** Adding a record [json.dump] cannot write: the call raises
    [UnicodeEncodeError] with the record appended in memory and a store
    file that does not hold the records, so memory and file are out of
    step. *)
Lemma mutation_counterexample :
  fst (fst (add_record dumps_pretty (mkWallet (lit "wallet.txt") [salary])
              scarred {[ lit "wallet.txt" := Text salary_store ]}))
  = Raise UnicodeEncodeError /\
  records (snd (fst (add_record dumps_pretty
                       (mkWallet (lit "wallet.txt") [salary]) scarred
                       {[ lit "wallet.txt" := Text salary_store ]})))
  = [salary; scarred] /\
  ~ persisted dumps_pretty (mkWallet (lit "wallet.txt") [salary; scarred])
      (snd (add_record dumps_pretty (mkWallet (lit "wallet.txt") [salary])
              scarred {[ lit "wallet.txt" := Text salary_store ]})).
Proof.
  split; [vm_compute; reflexivity |]. split; [vm_compute; reflexivity |].
  intros (text & Hdump & _). vm_compute in Hdump. discriminate.
Qed.

(** A wallet constructed on an absent file, on an empty file and on a
    file of text that is not JSON. *)
Lemma Wallet_init_recovers_witness :
  Wallet_init loads_small (lit "wallet.txt") ∅
  = (Ok (mkWallet (lit "wallet.txt") []), ∅) /\
  Wallet_init loads_small (lit "wallet.txt")
    {[ lit "wallet.txt" := Text [] ]}
  = (Ok (mkWallet (lit "wallet.txt") []),
     {[ lit "wallet.txt" := Text [] ]}) /\
  Wallet_init loads_small (lit "wallet.txt")
    {[ lit "wallet.txt" := Text (lit "{not json") ]}
  = (Ok (mkWallet (lit "wallet.txt") []),
     {[ lit "wallet.txt" := Text (lit "{not json") ]}).
Proof.
  split; [| split].
  - apply (proj1 (proj2 (Wallet_init_recovers loads_small
                           (lit "wallet.txt") ∅))).
    apply lookup_empty.
  - apply (proj1 (proj2 (proj2 (Wallet_init_recovers loads_small
                                  (lit "wallet.txt") _)))).
    + reflexivity.
    + apply lookup_singleton_eq.
  - apply (proj1 (proj2 (proj2 (proj2 (Wallet_init_recovers loads_small
                                         (lit "wallet.txt") _))))
             (lit "{not json")).
    + apply lookup_singleton_eq.
    + reflexivity.
Defined.

(** Files on which the constructor raises: one that is not UTF-8, and one
    that holds an array with an integer of 4301 digits, which [json.load]
    refuses with a plain [ValueError]. *)
Lemma Wallet_init_counterexample :
  Wallet_init loads_small (lit "wallet.txt") {[ lit "wallet.txt" := Binary ]}
  = (Raise UnicodeDecodeError, {[ lit "wallet.txt" := Binary ]}) /\
  Wallet_init loads_small (lit "wallet.txt")
    {[ lit "wallet.txt" := Text long_integer_store ]}
  = (Raise ValueError, {[ lit "wallet.txt" := Text long_integer_store ]}).
Proof.
  split.
  - apply load_records_surfaces; [| intros [H | H]; discriminate].
    apply decoded_binary, lookup_singleton_eq.
  - apply load_records_surfaces; [| intros [H | H]; discriminate].
    replace (Raise ValueError) with (loads_small long_integer_store)
      by (vm_compute; reflexivity).
    apply decoded_text, lookup_singleton_eq.
Qed.


(** * Facts about the date validator *)

Lemma flat_map_ext_In {A B} (f g : A -> list B) (l : list A) :
  (forall x, In x l -> f x = g x) -> flat_map f l = flat_map g l.
Proof.
  induction l as [| x l IH]; intros H; cbn; [reflexivity |].
  rewrite (H x) by now left. f_equal. apply IH.
  intros y Hy. apply H. now right.
Qed.

Lemma check_date_fields_real (year month day : Z) :
  (real_date year month day ->
   check_date_fields year month day = Ok (year, month, day)) /\
  (~ real_date year month day ->
   check_date_fields year month day = Raise ValueError).
Proof.
  unfold check_date_fields, real_date, MINYEAR, MAXYEAR.
  destruct (1 <=? year) eqn:Hy1, (year <=? 9999) eqn:Hy2,
           (1 <=? month) eqn:Hm1, (month <=? 12) eqn:Hm2,
           (1 <=? day) eqn:Hd1, (day <=? days_in_month year month) eqn:Hd2;
    cbn; split; intros H; try reflexivity; exfalso; lia.
Qed.

Section DateFacts.

Variable decimal : char -> option Z.

Lemma rmatch_split (r : regex) (s : str) (g : list (str * str)) (t s' : str) :
  In (g, t, s') (rmatch decimal r s) -> s = t ++ s'.
Proof.
  revert s g t s'.
  induction r as [c | lo hi | | r1 IH1 r2 IH2 | r1 IH1 r2 IH2 | name r IH];
    intros s g t s' Hin; cbn in Hin.
  - destruct s as [| x s]; [contradiction |].
    destruct (N.eqb x c); [| contradiction].
    destruct Hin as [Heq | []]. now injection Heq as <- <- <-.
  - destruct s as [| x s]; [contradiction |].
    destruct ((lo <=? x)%N && (x <=? hi)%N); [| contradiction].
    destruct Hin as [Heq | []]. now injection Heq as <- <- <-.
  - destruct s as [| x s]; [contradiction |].
    destruct (decimal x); [| contradiction].
    destruct Hin as [Heq | []]. now injection Heq as <- <- <-.
  - apply in_flat_map in Hin as ([[g1 t1] s1] & H1 & Hin).
    apply in_map_iff in Hin as ([[g2 t2] s2] & Heq & H2).
    injection Heq as <- <- <-.
    rewrite (IH1 _ _ _ _ H1), (IH2 _ _ _ _ H2). now rewrite app_assoc.
  - apply in_app_or in Hin as [H | H]; eauto.
  - apply in_map_iff in Hin as ([[g' t'] s''] & Heq & H).
    injection Heq as <- <- <-. eauto.
Qed.

Lemma rmatch_group_names (r : regex) (s : str) (g : list (str * str))
    (t s' : str) :
  uniform r = true ->
  In (g, t, s') (rmatch decimal r s) ->
  List.map fst g = group_names r.
Proof.
  revert s g t s'.
  induction r as [c | lo hi | | r1 IH1 r2 IH2 | r1 IH1 r2 IH2 | name r IH];
    intros s g t s' Hu Hin; cbn in Hin, Hu |- *.
  - destruct s as [| x s]; [contradiction |].
    destruct (N.eqb x c); [| contradiction].
    destruct Hin as [Heq | []]. now injection Heq as <- <- <-.
  - destruct s as [| x s]; [contradiction |].
    destruct ((lo <=? x)%N && (x <=? hi)%N); [| contradiction].
    destruct Hin as [Heq | []]. now injection Heq as <- <- <-.
  - destruct s as [| x s]; [contradiction |].
    destruct (decimal x); [| contradiction].
    destruct Hin as [Heq | []]. now injection Heq as <- <- <-.
  - apply andb_true_iff in Hu as [Hu1 Hu2].
    apply in_flat_map in Hin as ([[g1 t1] s1] & H1 & Hin).
    apply in_map_iff in Hin as ([[g2 t2] s2] & Heq & H2).
    injection Heq as <- <- <-.
    rewrite List.map_app.
    now rewrite (IH1 _ _ _ _ Hu1 H1), (IH2 _ _ _ _ Hu2 H2).
  - apply andb_true_iff in Hu as [Hu Heq].
    apply andb_true_iff in Hu as [Hu1 Hu2].
    apply bool_decide_eq_true in Heq.
    apply in_app_or in Hin as [H | H]; [eauto |].
    rewrite Heq. eauto.
  - apply in_map_iff in Hin as ([[g' t'] s''] & Heq & H).
    injection Heq as <- <- <-. cbn. f_equal. eauto.
Qed.

Lemma digits_value_error (acc : Z) (s : str) (e : exn) :
  digits_value decimal acc s = Raise e -> e = ValueError.
Proof.
  revert acc. induction s as [| c s IH]; intros acc; cbn.
  - discriminate.
  - destruct (decimal c); [apply IH | congruence].
Qed.

Lemma py_int_error (text : str) (e : exn) :
  py_int decimal text = Raise e -> e = ValueError.
Proof.
  unfold py_int. destruct (strip text); [congruence |].
  apply digits_value_error.
Qed.

Lemma check_date_fields_error (y m d : Z) (e : exn) :
  check_date_fields y m d = Raise e -> e = ValueError.
Proof.
  unfold check_date_fields.
  repeat match goal with |- context [if ?b then _ else _] => destruct b end;
    congruence.
Qed.

(** [strptime] raises nothing but [ValueError]. *)
Lemma strptime_error (data_string : str) (e : exn) :
  strptime decimal data_string = Raise e -> e = ValueError.
Proof.
  unfold strptime.
  destruct (rmatch decimal format_regex data_string)
    as [| [[g t] rest] l] eqn:Hm; [congruence |].
  destruct rest; [| congruence].
  assert (Hg : List.map fst g = group_names format_regex).
  { apply (rmatch_group_names format_regex data_string g t []);
      [reflexivity | rewrite Hm; now left]. }
  change (group_names format_regex) with [lit "Y"; lit "m"; lit "d"] in Hg.
  destruct g as [| [n1 y] [| [n2 m] [| [n3 d] [| ? ?]]]]; try discriminate.
  cbn [List.map fst] in Hg. injection Hg as -> -> ->.
  change (group [(lit "Y", y); (lit "m", m); (lit "d", d)] (lit "Y"))
    with (@Ok str y).
  change (group [(lit "Y", y); (lit "m", m); (lit "d", d)] (lit "m"))
    with (@Ok str m).
  change (group [(lit "Y", y); (lit "m", m); (lit "d", d)] (lit "d"))
    with (@Ok str d).
  cbn [rbind].
  destruct (py_int decimal y) as [year |] eqn:Hy; cbn [rbind];
    [| intros H; injection H as <-; eapply py_int_error, Hy].
  destruct (py_int decimal m) as [month |] eqn:Hmo; cbn [rbind];
    [| intros H; injection H as <-; eapply py_int_error, Hmo].
  destruct (py_int decimal d) as [day |] eqn:Hd; cbn [rbind];
    [| intros H; injection H as <-; eapply py_int_error, Hd].
  apply check_date_fields_error.
Qed.

(** X1.  [validate_date] is total: it returns a boolean on every text. *)
Lemma validate_date_total (date_text : str) :
  exists b, validate_date decimal date_text = Ok b.
Proof.
  unfold validate_date.
  destruct (strptime decimal date_text) as [d | e] eqn:H; [eauto |].
  apply strptime_error in H as ->. eauto.
Qed.

End DateFacts.

(** ** The validator reads the digit table only at the characters of the
    text *)

Lemma lstrip_incl (s : str) : incl (lstrip s) s.
Proof.
  induction s as [| c s IH]; cbn; [easy |].
  destruct (is_space c); [| easy].
  intros x Hx. right. now apply IH.
Qed.

Lemma strip_incl (s : str) : incl (strip s) s.
Proof.
  unfold strip. intros x Hx.
  apply in_rev, lstrip_incl, in_rev, lstrip_incl in Hx. exact Hx.
Qed.

Lemma group_In (g : list (str * str)) (name txt : str) :
  group g name = Ok txt -> exists n, In (n, txt) g.
Proof.
  unfold group.
  destruct (List.find _ g) as [[n t] |] eqn:Hf; [| discriminate].
  intros H. injection H as <-. apply find_some in Hf as [Hin _]. eauto.
Qed.

Section DigitTables.

Variables d1 d2 : char -> option Z.

Lemma rmatch_groups_within (r : regex) (s : str) (g : list (str * str))
    (t s' : str) :
  In (g, t, s') (rmatch d1 r s) ->
  forall n txt, In (n, txt) g -> incl txt s.
Proof.
  revert s g t s'.
  induction r as [c | lo hi | | r1 IH1 r2 IH2 | r1 IH1 r2 IH2 | name r IH];
    intros s g t s' Hin n txt Hg; cbn in Hin.
  - destruct s as [| x s]; [contradiction |].
    destruct (N.eqb x c); [| contradiction].
    destruct Hin as [Heq | []]. injection Heq as <- <- <-. contradiction.
  - destruct s as [| x s]; [contradiction |].
    destruct ((lo <=? x)%N && (x <=? hi)%N); [| contradiction].
    destruct Hin as [Heq | []]. injection Heq as <- <- <-. contradiction.
  - destruct s as [| x s]; [contradiction |].
    destruct (d1 x); [| contradiction].
    destruct Hin as [Heq | []]. injection Heq as <- <- <-. contradiction.
  - apply in_flat_map in Hin as ([[g1 t1] s1] & H1 & Hin).
    apply in_map_iff in Hin as ([[g2 t2] s2] & Heq & H2).
    injection Heq as <- <- <-.
    apply in_app_or in Hg as [Hg | Hg].
    + eapply IH1; eauto.
    + intros x Hx. rewrite (rmatch_split _ _ _ _ _ _ H1).
      apply in_or_app. right. eapply IH2; eauto.
  - apply in_app_or in Hin as [H | H]; eauto.
  - apply in_map_iff in Hin as ([[g' t'] s''] & Heq & H).
    injection Heq as <- <- <-.
    destruct Hg as [Heq | Hg].
    + injection Heq as <- <-. intros x Hx.
      rewrite (rmatch_split _ _ _ _ _ _ H). apply in_or_app. now left.
    + eapply IH; eauto.
Qed.

Lemma rmatch_ext (r : regex) (s : str) :
  (forall c, In c s -> d1 c = d2 c) -> rmatch d1 r s = rmatch d2 r s.
Proof.
  revert s.
  induction r as [c | lo hi | | r1 IH1 r2 IH2 | r1 IH1 r2 IH2 | name r IH];
    intros s Heq; cbn; try reflexivity.
  - destruct s as [| x s]; [reflexivity |].
    rewrite (Heq x) by now left. reflexivity.
  - rewrite <- (IH1 s Heq). apply flat_map_ext_In.
    intros [[g1 t1] s1] H1. rewrite IH2; [reflexivity |].
    intros c Hc. apply Heq. rewrite (rmatch_split _ _ _ _ _ _ H1).
    apply in_or_app. now right.
  - now rewrite IH1, IH2.
  - now rewrite IH.
Qed.

Lemma digits_value_ext (acc : Z) (s : str) :
  (forall c, In c s -> d1 c = d2 c) ->
  digits_value d1 acc s = digits_value d2 acc s.
Proof.
  revert acc. induction s as [| c s IH]; intros acc Heq; cbn; [reflexivity |].
  rewrite (Heq c) by now left.
  destruct (d2 c); [| reflexivity]. apply IH.
  intros x Hx. apply Heq. now right.
Qed.

Lemma py_int_ext (s : str) :
  (forall c, In c s -> d1 c = d2 c) -> py_int d1 s = py_int d2 s.
Proof.
  intros Heq. unfold py_int.
  destruct (strip s) as [| x l] eqn:E; [reflexivity |].
  apply digits_value_ext.
  intros c Hc. apply Heq, strip_incl. now rewrite E.
Qed.

Lemma strptime_ext (s : str) :
  (forall c, In c s -> d1 c = d2 c) -> strptime d1 s = strptime d2 s.
Proof.
  intros Heq. unfold strptime.
  pose proof (rmatch_groups_within format_regex s) as Hwithin.
  rewrite <- (rmatch_ext format_regex s Heq).
  destruct (rmatch d1 format_regex s) as [| [[g t] rest] l];
    [reflexivity |].
  destruct rest; [| reflexivity].
  assert (Hint : forall name txt,
             group g name = Ok txt -> py_int d1 txt = py_int d2 txt).
  { intros name txt Hg. apply group_In in Hg as [n Hn].
    apply py_int_ext. intros c Hc. apply Heq.
    eapply Hwithin; [now left | exact Hn | exact Hc]. }
  destruct (group g (lit "Y")) as [y |] eqn:Hy; [| reflexivity].
  cbn [rbind]. rewrite <- (Hint _ _ Hy).
  destruct (py_int d1 y); [| reflexivity]. cbn [rbind].
  destruct (group g (lit "m")) as [m |] eqn:Hm; [| reflexivity].
  cbn [rbind]. rewrite <- (Hint _ _ Hm).
  destruct (py_int d1 m); [| reflexivity]. cbn [rbind].
  destruct (group g (lit "d")) as [d |] eqn:Hd; [| reflexivity].
  cbn [rbind]. rewrite <- (Hint _ _ Hd). reflexivity.
Qed.

Lemma validate_date_ext (s : str) :
  (forall c, In c s -> d1 c = d2 c) ->
  validate_date d1 s = validate_date d2 s.
Proof.
  intros Heq. unfold validate_date. now rewrite (strptime_ext s Heq).
Qed.

End DigitTables.

(** On an ASCII text the validator does what it does with the table of
    the ASCII digits. *)
Lemma validate_date_ascii (decimal : char -> option Z) (s : str) :
  (forall c, (c < 128)%N -> decimal c = ascii_decimal c) ->
  Forall (fun c => (c < 128)%N) s ->
  validate_date decimal s = validate_date ascii_decimal s.
Proof.
  intros Hdec Hs. apply validate_date_ext.
  intros c Hc. apply Hdec. rewrite List.Forall_forall in Hs. now apply Hs.
Qed.

(** ** The validator on the strict format *)

Lemma ascii_text (s : str) :
  forallb (fun c => (c <? 128)%N) s = true ->
  Forall (fun c => (c < 128)%N) s.
Proof.
  intros H. apply List.Forall_forall. intros c Hc.
  rewrite forallb_forall in H. apply N.ltb_lt. now apply H.
Qed.

Lemma ascii_decimal_digit (c : char) :
  is_digit c -> ascii_decimal c = Some (digit_value c).
Proof.
  intros [H1 H2]. unfold ascii_decimal.
  apply N.leb_le in H1, H2. now rewrite H1, H2.
Qed.

Lemma is_space_digit (c : char) : is_digit c -> is_space c = false.
Proof.
  intros [H1 H2]. unfold is_space. apply N.eqb_neq.
  change (ch " ") with 32%N. lia.
Qed.

Lemma is_digit_digits10 (c : char) : is_digit c -> In c digits10.
Proof.
  intros [H1 H2]. unfold digits10.
  assert (c = 48 \/ c = 49 \/ c = 50 \/ c = 51 \/ c = 52 \/ c = 53 \/
          c = 54 \/ c = 55 \/ c = 56 \/ c = 57)%N as Hc by lia.
  cbn. intuition auto.
Qed.

Lemma py_int_two_digits (a b : char) :
  is_digit a -> is_digit b ->
  py_int ascii_decimal [a; b] = Ok (two_digits a b).
Proof.
  intros Ha Hb. unfold py_int, strip.
  cbn [lstrip]. rewrite (is_space_digit a Ha).
  cbn [rev app lstrip]. rewrite (is_space_digit b Hb).
  cbn [rev app digits_value].
  rewrite (ascii_decimal_digit a Ha), (ascii_decimal_digit b Hb).
  unfold two_digits. f_equal; lia.
Qed.

Lemma py_int_four_digits (a b c d : char) :
  is_digit a -> is_digit b -> is_digit c -> is_digit d ->
  py_int ascii_decimal [a; b; c; d]
  = Ok (1000 * digit_value a + 100 * digit_value b
        + 10 * digit_value c + digit_value d).
Proof.
  intros Ha Hb Hc Hd. unfold py_int, strip.
  cbn [lstrip]. rewrite (is_space_digit a Ha).
  cbn [rev app lstrip]. rewrite (is_space_digit d Hd).
  cbn [rev app digits_value].
  rewrite (ascii_decimal_digit a Ha), (ascii_decimal_digit b Hb),
    (ascii_decimal_digit c Hc), (ascii_decimal_digit d Hd).
  f_equal; lia.
Qed.

(** The year directive takes four digits and hands the rest of the text
    to the month-and-day part. *)
Lemma rmatch_year (y1 y2 y3 y4 : char) (tail : str) :
  is_digit y1 -> is_digit y2 -> is_digit y3 -> is_digit y4 ->
  rmatch ascii_decimal format_regex (y1 :: y2 :: y3 :: y4 :: tail)
  = List.map
      (fun m : rmatch_result =>
         let '(g, t, s') := m in
         ((lit "Y", [y1; y2; y3; y4]) :: g, [y1; y2; y3; y4] ++ t, s'))
      (rmatch ascii_decimal month_day_regex tail).
Proof.
  intros H1 H2 H3 H4. unfold format_regex, directive_Y.
  cbn [rmatch].
  rewrite (ascii_decimal_digit y1 H1). cbn [flat_map List.map app].
  rewrite (ascii_decimal_digit y2 H2). cbn [flat_map List.map app].
  rewrite (ascii_decimal_digit y3 H3). cbn [flat_map List.map app].
  rewrite (ascii_decimal_digit y4 H4). cbn [flat_map List.map app].
  rewrite app_nil_r.
  apply List.map_ext. now intros [[g t] s'].
Qed.

Lemma month_day_table :
  forallb (fun m1 => forallb (fun m2 => forallb (fun d1 => forallb (fun d2 =>
    month_day_checked m1 m2 d1 d2) digits10) digits10) digits10) digits10
  = true.
Proof. vm_compute. reflexivity. Qed.

Lemma month_day_strict (m1 m2 d1 d2 : char) :
  is_digit m1 -> is_digit m2 -> is_digit d1 -> is_digit d2 ->
  month_day_checked m1 m2 d1 d2 = true.
Proof.
  intros Hm1 Hm2 Hd1 Hd2.
  pose proof month_day_table as H.
  rewrite forallb_forall in H.
  specialize (H m1 (is_digit_digits10 _ Hm1)). rewrite forallb_forall in H.
  specialize (H m2 (is_digit_digits10 _ Hm2)). rewrite forallb_forall in H.
  specialize (H d1 (is_digit_digits10 _ Hd1)). rewrite forallb_forall in H.
  exact (H d2 (is_digit_digits10 _ Hd2)).
Qed.

Lemma days_in_month_le_31 (year month : Z) : days_in_month year month <= 31.
Proof.
  unfold days_in_month. destruct ((month =? 2) && is_leap year); [lia |].
  unfold DAYS_IN_MONTH. generalize (Z.to_nat month). intros n.
  do 13 (destruct n as [| n]; [cbn; lia |]).
  destruct n; cbn; lia.
Qed.

Lemma month_day_out_of_range (year : Z) (m1 m2 d1 d2 : char) :
  month_day_in_range m1 m2 d1 d2 = false ->
  ~ real_date year (two_digits m1 m2) (two_digits d1 d2).
Proof.
  unfold month_day_in_range, real_date. intros H [_ [Hm Hd]].
  pose proof (days_in_month_le_31 year (two_digits m1 m2)).
  rewrite !andb_false_iff, !Z.leb_gt in H. lia.
Qed.

(** On a text of the strict format, four digits, a hyphen, two digits, a
    hyphen, two digits, [strptime] returns the date the digits spell when
    it is a real date and raises [ValueError] when it is not. *)
Lemma strptime_strict (y1 y2 y3 y4 m1 m2 d1 d2 : char) :
  is_digit y1 -> is_digit y2 -> is_digit y3 -> is_digit y4 ->
  is_digit m1 -> is_digit m2 -> is_digit d1 -> is_digit d2 ->
  strptime ascii_decimal
    [y1; y2; y3; y4; ch "-"; m1; m2; ch "-"; d1; d2]
  = check_date_fields
      (1000 * digit_value y1 + 100 * digit_value y2
       + 10 * digit_value y3 + digit_value y4)
      (two_digits m1 m2) (two_digits d1 d2).
Proof.
  intros Hy1 Hy2 Hy3 Hy4 Hm1 Hm2 Hd1 Hd2.
  pose proof (month_day_strict m1 m2 d1 d2 Hm1 Hm2 Hd1 Hd2) as Htab.
  unfold month_day_checked in Htab.
  unfold strptime. rewrite (rmatch_year y1 y2 y3 y4 _ Hy1 Hy2 Hy3 Hy4).
  set (year := 1000 * digit_value y1 + 100 * digit_value y2
               + 10 * digit_value y3 + digit_value y4).
  assert (Hbad : month_day_in_range m1 m2 d1 d2 = false ->
                 Raise ValueError
                 = check_date_fields year (two_digits m1 m2)
                     (two_digits d1 d2)).
  { intros H. symmetry.
    apply check_date_fields_real, (month_day_out_of_range year), H. }
  destruct (rmatch ascii_decimal month_day_regex
              [ch "-"; m1; m2; ch "-"; d1; d2]) as [| [[g t] rest] l].
  - cbn [List.map]. apply Hbad. now apply negb_true_iff.
  - cbn [List.map]. destruct rest as [| c rest].
    + apply andb_true_iff in Htab as [_ Hg].
      apply bool_decide_eq_true in Hg. subst g.
      change (group _ (lit "Y")) with (@Ok str [y1; y2; y3; y4]).
      change (group _ (lit "m")) with (@Ok str [m1; m2]).
      change (group _ (lit "d")) with (@Ok str [d1; d2]).
      cbn [rbind].
      rewrite (py_int_four_digits y1 y2 y3 y4 Hy1 Hy2 Hy3 Hy4).
      rewrite (py_int_two_digits m1 m2 Hm1 Hm2).
      rewrite (py_int_two_digits d1 d2 Hd1 Hd2).
      reflexivity.
    + apply Hbad. now apply negb_true_iff.
Qed.

(** X2.  The strict format is decided as the specification has it: such
    a text is accepted exactly when its digits spell a real date. *)
Lemma validate_date_strict (decimal : char -> option Z)
    (y1 y2 y3 y4 m1 m2 d1 d2 : char) :
  (forall c, (c < 128)%N -> decimal c = ascii_decimal c) ->
  is_digit y1 -> is_digit y2 -> is_digit y3 -> is_digit y4 ->
  is_digit m1 -> is_digit m2 -> is_digit d1 -> is_digit d2 ->
  validate_date decimal [y1; y2; y3; y4; ch "-"; m1; m2; ch "-"; d1; d2]
  = Ok true
  <-> real_date
        (1000 * digit_value y1 + 100 * digit_value y2
         + 10 * digit_value y3 + digit_value y4)
        (two_digits m1 m2) (two_digits d1 d2).
Proof.
  intros Hdec Hy1 Hy2 Hy3 Hy4 Hm1 Hm2 Hd1 Hd2.
  rewrite (validate_date_ascii decimal _ Hdec).
  2: { unfold is_digit in *. change (ch "-") with 45%N.
       repeat constructor; lia. }
  unfold validate_date.
  rewrite (strptime_strict y1 y2 y3 y4 m1 m2 d1 d2) by assumption.
  set (year := 1000 * digit_value y1 + 100 * digit_value y2
               + 10 * digit_value y3 + digit_value y4).
  destruct (check_date_fields_real year (two_digits m1 m2)
              (two_digits d1 d2)) as [Hreal Hnot].
  split.
  - intros H.
    destruct (decide (real_date year (two_digits m1 m2) (two_digits d1 d2)))
      as [Hr | Hr]; [exact Hr |].
    rewrite (Hnot Hr) in H. discriminate.
  - intros Hr. now rewrite (Hreal Hr).
Qed.

(** The examples of the specification. *)
Lemma validate_date_examples (decimal : char -> option Z) :
  (forall c, (c < 128)%N -> decimal c = ascii_decimal c) ->
  validate_date decimal (lit "2023-01-01") = Ok true /\
  validate_date decimal (lit "01-01-2023") = Ok false /\
  validate_date decimal (lit "2023-02-29") = Ok false /\
  validate_date decimal (lit "2023/01/01") = Ok false.
Proof.
  intros Hdec.
  rewrite !(validate_date_ascii decimal _ Hdec)
    by (apply ascii_text; reflexivity).
  now vm_compute.
Qed.

Lemma not_strict_one_digit_fields :
  ~ strict_format (lit "2023-1-5") /\ ~ strict_format (lit "2023-01- 5").
Proof.
  split; intros (y1 & y2 & y3 & y4 & m1 & m2 & d1 & d2 & H).
  - destruct H as (_ & _ & _ & _ & _ & _ & _ & _ & H).
    apply (f_equal (@length char)) in H. vm_compute in H. discriminate.
  - destruct H as (_ & _ & _ & _ & _ & _ & Hd1 & _ & H).
    vm_compute in H. injection H as _ _ _ _ _ _ Hd _. subst d1.
    unfold is_digit in Hd1. lia.
Qed.

(** C2.  Where the code departs from the specification: [validate_date]
    accepts texts that are not of the form YYYY-MM-DD, namely a month or
    a day written with one digit, and a day written as a space and a
    digit. *)
Theorem validate_date_accepts_one_digit_fields (decimal : char -> option Z) :
  (forall c, (c < 128)%N -> decimal c = ascii_decimal c) ->
  (validate_date decimal (lit "2023-1-5") = Ok true /\
   ~ strict_format (lit "2023-1-5")) /\
  (validate_date decimal (lit "2023-01- 5") = Ok true /\
   ~ strict_format (lit "2023-01- 5")).
Proof.
  intros Hdec.
  rewrite !(validate_date_ascii decimal _ Hdec)
    by (apply ascii_text; reflexivity).
  destruct not_strict_one_digit_fields as [H1 H2].
  repeat split; try assumption; now vm_compute.
Qed.

(** The two texts with the table of the ASCII digits. *)
Lemma validate_date_accepts_one_digit_fields_witness :
  (validate_date ascii_decimal (lit "2023-1-5") = Ok true /\
   ~ strict_format (lit "2023-1-5")) /\
  (validate_date ascii_decimal (lit "2023-01- 5") = Ok true /\
   ~ strict_format (lit "2023-01- 5")).
Proof.
  apply (validate_date_accepts_one_digit_fields ascii_decimal).
  intros c _. reflexivity.
Defined.

(** ** Further facts about the constructor, loading and rendering *)

(** X5.  A [bool] is accepted as an amount and kept as it is. *)
Lemma Record_init_bool_amount (d c s : str) (b : bool) :
  Record_init (VStr d) (VStr c) (VBool b) (VStr s)
  = Ok (mkRecord d c (NBool b) s).
Proof. reflexivity. Qed.

Lemma comprehension_from_dict (rs : list record) :
  comprehension from_dict (List.map to_dict rs) = Ok rs.
Proof.
  induction rs as [| r rs IH]; [reflexivity |].
  cbn [List.map comprehension].
  assert (Hr : from_dict (to_dict r) = Ok r)
    by (destruct r as [d c a s]; destruct a; reflexivity).
  rewrite Hr. cbn [rbind]. rewrite IH. reflexivity.
Qed.

Lemma Record_init_error (d c a s : value) (e : exn) :
  Record_init d c a s = Raise e -> e = TypeError.
Proof.
  unfold Record_init.
  destruct (_ || _); [congruence |].
  destruct d, c, (number_of_value a), s; congruence.
Qed.

Lemma getitem_error (data : value) (key : str) (e : exn) :
  getitem data key = Raise e -> e = TypeError \/ e = KeyError key.
Proof.
  unfold getitem. destruct data; try (intros H; left; congruence).
  destruct (dict_get d key); [discriminate |].
  intros H. right. congruence.
Qed.

Lemma from_dict_error (data : value) (e : exn) :
  from_dict data = Raise e -> e = TypeError \/ exists k, e = KeyError k.
Proof.
  unfold from_dict.
  destruct (getitem data (lit "date")) as [d | e1] eqn:H1; cbn [rbind];
    [| intros Heq; injection Heq as <-;
       apply getitem_error in H1 as [-> | ->]; eauto].
  destruct (getitem data (lit "category")) as [c | e2] eqn:H2; cbn [rbind];
    [| intros Heq; injection Heq as <-;
       apply getitem_error in H2 as [-> | ->]; eauto].
  destruct (getitem data (lit "amount")) as [a | e3] eqn:H3; cbn [rbind];
    [| intros Heq; injection Heq as <-;
       apply getitem_error in H3 as [-> | ->]; eauto].
  destruct (getitem data (lit "description")) as [s | e4] eqn:H4;
    cbn [rbind];
    [| intros Heq; injection Heq as <-;
       apply getitem_error in H4 as [-> | ->]; eauto].
  intros H. left. eapply Record_init_error, H.
Qed.

Lemma comprehension_from_dict_error (items : list value) (e : exn) :
  comprehension from_dict items = Raise e ->
  e = TypeError \/ exists k, e = KeyError k.
Proof.
  induction items as [| x items IH]; cbn [comprehension]; [discriminate |].
  destruct (from_dict x) eqn:Hx; cbn [rbind].
  - destruct (comprehension from_dict items); cbn [rbind]; [discriminate |].
    intros H. injection H as <-. now apply IH.
  - intros H. injection H as <-. eapply from_dict_error, Hx.
Qed.

Lemma conversion_error (data : value) (e : exn) :
  (let* items := py_iter data in
   comprehension from_dict items)%result = Raise e ->
  e = TypeError \/ exists k, e = KeyError k.
Proof.
  destruct data; cbn [py_iter rbind];
    try (intros H; left; congruence);
    apply comprehension_from_dict_error.
Qed.

Section Reloading.

Variable json_loads : str -> result value.
Variable json_dumps : value -> str * option exn.

(** The constructor on a store file that holds a text [json.load]
    decodes: the result is that of the conversion of the decoded value. *)
Lemma Wallet_init_run (path text : str) (fs : fsys) (data : value) :
  fs !! path = Some (Text text) ->
  json_loads text = Ok data ->
  Wallet_init json_loads path fs
  = match (let* items := py_iter data in
           comprehension from_dict items)%result with
    | Ok rs => (Ok (mkWallet path rs), fs)
    | Raise e => (Raise e, fs)
    end.
Proof.
  intros Hfile Hdata.
  unfold Wallet_init, load_records, try_except, bind, read_file, lift.
  cbn [filename]. rewrite Hfile, Hdata.
  destruct (py_iter data) as [items | e] eqn:Hit; cbn [rbind].
  - destruct (comprehension from_dict items) as [rs | e] eqn:Hc;
      [reflexivity |].
    apply comprehension_from_dict_error in Hc as [-> | [k ->]]; reflexivity.
  - destruct data; cbn in Hit; try discriminate;
      injection Hit as <-; reflexivity.
Qed.

(** X4.  A wallet whose store file holds the whole text [json.dump] writes
    for its records is read back as it is, provided [json.load] inverts
    [json.dump] on that text: every record goes through [to_dict] and
    back through [from_dict]. *)
Lemma Wallet_init_reloads (self : wallet) (fs : fsys) :
  persisted json_dumps self fs ->
  json_loads (fst (json_dumps (serialization self)))
  = Ok (serialization self) ->
  Wallet_init json_loads (filename self) fs = (Ok self, fs).
Proof.
  intros (text & Hdump & Hfile) Hcodec. rewrite Hdump in Hcodec.
  cbn [fst] in Hcodec.
  rewrite (Wallet_init_run _ _ _ _ Hfile Hcodec).
  unfold serialization. cbn [py_iter rbind].
  rewrite comprehension_from_dict. now destruct self.
Qed.

(** X3.  A decodable file is converted element by element, and a failure of
    the conversion is not recovered: it leaves the constructor.  So a
    store that is not a list of record dictionaries makes the constructor
    raise [TypeError] or the [KeyError] of a missing key. *)
Lemma Wallet_init_decodable (path text : str) (fs : fsys) (data : value) :
  fs !! path = Some (Text text) ->
  json_loads text = Ok data ->
  Wallet_init json_loads path fs
  = match (let* items := py_iter data in
           comprehension from_dict items)%result with
    | Ok rs => (Ok (mkWallet path rs), fs)
    | Raise e => (Raise e, fs)
    end /\
  (forall e, (let* items := py_iter data in
              comprehension from_dict items)%result = Raise e ->
             e = TypeError \/ exists k, e = KeyError k).
Proof.
  intros Hfile Hdata. split.
  - now apply (Wallet_init_run path text).
  - apply conversion_error.
Qed.

End Reloading.

(** The store file written for the two records of the test suite is read
    back. *)
Lemma Wallet_init_reloads_witness :
  Wallet_init loads_small (lit "wallet.txt")
    {[ lit "wallet.txt" := Text ledger_store ]}
  = (Ok (mkWallet (lit "wallet.txt") [salary; groceries]),
     {[ lit "wallet.txt" := Text ledger_store ]}).
Proof.
  apply (Wallet_init_reloads loads_small dumps_pretty
           (mkWallet (lit "wallet.txt") [salary; groceries])).
  - exists ledger_store. split; [reflexivity | apply lookup_singleton_eq].
  - reflexivity.
Defined.

(** A store file holding the JSON text of a list with a number in it
    makes the constructor raise [TypeError]. *)
Lemma Wallet_init_decodable_witness :
  Wallet_init loads_small (lit "wallet.txt")
    {[ lit "wallet.txt" := Text (lit "[1]") ]}
  = (Raise TypeError, {[ lit "wallet.txt" := Text (lit "[1]") ]}).
Proof.
  apply (Wallet_init_decodable loads_small (lit "wallet.txt") (lit "[1]")
           {[ lit "wallet.txt" := Text (lit "[1]") ]} (VList [VInt 1])).
  - apply lookup_singleton_eq.
  - reflexivity.
Defined.

(** The strict format at 2024-02-29, a leap day. *)
Lemma validate_date_strict_witness :
  validate_date ascii_decimal (lit "2024-02-29") = Ok true
  <-> real_date 2024 2 29.
Proof.
  apply (validate_date_strict ascii_decimal
           (ch "2") (ch "0") (ch "2") (ch "4") (ch "0") (ch "2")
           (ch "2") (ch "9"));
    first [intros c _; reflexivity | unfold is_digit; cbn; lia].
Defined.

(** * How the operations of the wallet compose *)

Lemma Record_init_well_typed (d c a s : value) :
  well_typed d c a s ->
  exists r, Record_init d c a s = Ok r /\
            VStr (date r) = d /\ VStr (category r) = c /\
            value_of_number (amount r) = a /\ VStr (description r) = s.
Proof.
  intros ([d' ->] & [c' ->] & Ha & [s' ->]).
  destruct (is_number_value a Ha) as [n ->].
  exists (mkRecord d' c' n s'). rewrite Record_init_ok. auto.
Qed.

Lemma well_typed_decide (d c a s : value) :
  well_typed d c a s \/ ~ well_typed d c a s.
Proof.
  unfold well_typed. rewrite !is_string_isinstance, is_number_isinstance.
  destruct (isinstance d [Tstr]), (isinstance c [Tstr]),
    (isinstance a [Tint; Tfloat]), (isinstance s [Tstr]);
    first [left; now auto | right; intros (? & ? & ? & ?); discriminate].
Qed.

(** X6.  [from_dict] checks the types of the values it reads: on a
    dictionary that has the four keys it raises [TypeError] exactly when
    some value is not of the constructor's type, and a record it returns
    holds the four values as they are in the dictionary. *)
Lemma from_dict_checks_types (d : list (str * value)) (vd vc va vs : value) :
  List.map (dict_get d) Record_keys = [Some vd; Some vc; Some va; Some vs] ->
  (from_dict (VDict d) = Raise TypeError <-> ~ well_typed vd vc va vs) /\
  (forall r, from_dict (VDict d) = Ok r ->
             well_typed vd vc va vs /\
             VStr (date r) = vd /\ VStr (category r) = vc /\
             value_of_number (amount r) = va /\ VStr (description r) = vs).
Proof.
  intros Hk. unfold Record_keys in Hk. cbn [List.map] in Hk.
  injection Hk as Hd Hc Ha Hs.
  rewrite (from_dict_lookups d vd vc va vs Hd Hc Ha Hs).
  split; [split |].
  - intros Hraise Hwt.
    destruct (Record_init_well_typed _ _ _ _ Hwt) as (r & Hr & _). congruence.
  - apply Record_init_raises.
  - intros r Hr.
    assert (Hwt : well_typed vd vc va vs).
    { destruct (well_typed_decide vd vc va vs) as [H | Hbad]; [exact H |].
      rewrite (Record_init_raises _ _ _ _ Hbad) in Hr. discriminate. }
    split; [exact Hwt |].
    destruct (Record_init_well_typed _ _ _ _ Hwt) as (r' & Hr' & Hf).
    rewrite Hr in Hr'. injection Hr' as <-. exact Hf.
Qed.

Lemma from_dict_ok_iff (v : value) :
  (exists r, from_dict v = Ok r) <-> record_shaped v.
Proof.
  split.
  - intros [r Hr]. unfold from_dict, getitem in Hr.
    destruct v as [| | | | | | d]; try discriminate.
    destruct (dict_get d (lit "date")) as [vd |] eqn:Hd; [| discriminate].
    destruct (dict_get d (lit "category")) as [vc |] eqn:Hc;
      [| discriminate].
    destruct (dict_get d (lit "amount")) as [va |] eqn:Ha; [| discriminate].
    destruct (dict_get d (lit "description")) as [vs |] eqn:Hs;
      [| discriminate].
    cbn [rbind] in Hr.
    exists d, vd, vc, va, vs. split; [reflexivity |]. split.
    + unfold Record_keys. cbn [List.map]. now rewrite Hd, Hc, Ha, Hs.
    + destruct (well_typed_decide vd vc va vs) as [H | Hbad]; [exact H |].
      rewrite (Record_init_raises _ _ _ _ Hbad) in Hr. discriminate.
  - intros (d & vd & vc & va & vs & -> & Hk & Hwt).
    unfold Record_keys in Hk. cbn [List.map] in Hk.
    injection Hk as Hd Hc Ha Hs.
    rewrite (from_dict_lookups d vd vc va vs Hd Hc Ha Hs).
    destruct (Record_init_well_typed _ _ _ _ Hwt) as (r & Hr & _). eauto.
Qed.

Lemma comprehension_ok_iff (items : list value) :
  (exists rs, comprehension from_dict items = Ok rs)
  <-> Forall record_shaped items.
Proof.
  induction items as [| x items IH]; cbn [comprehension].
  - split; [constructor | eauto].
  - split.
    + intros [rs Hrs].
      destruct (from_dict x) as [r |] eqn:Hx; [| discriminate].
      cbn [rbind] in Hrs.
      destruct (comprehension from_dict items) as [rs' |]; [| discriminate].
      constructor; [apply from_dict_ok_iff; eauto | apply IH; eauto].
    + intros H. inversion H as [| ? ? Hx Hitems]; subst.
      apply from_dict_ok_iff in Hx as [r ->].
      apply IH in Hitems as [rs ->]. cbn [rbind]. eauto.
Qed.

Lemma from_dict_str (s : str) : from_dict (VStr s) = Raise TypeError.
Proof. reflexivity. Qed.

Lemma conversion_ok_iff (data : value) :
  (exists rs, (let* items := py_iter data in
               comprehension from_dict items)%result = Ok rs)
  <-> loadable data.
Proof.
  unfold loadable. destruct data as [| b | z | f | s | l | d];
    cbn [py_iter rbind].
  - split; [intros [? ?]; discriminate |].
    intros [(? & ? & _) | [? | ?]]; discriminate.
  - split; [intros [? ?]; discriminate |].
    intros [(? & ? & _) | [? | ?]]; discriminate.
  - split; [intros [? ?]; discriminate |].
    intros [(? & ? & _) | [? | ?]]; discriminate.
  - split; [intros [? ?]; discriminate |].
    intros [(? & ? & _) | [? | ?]]; discriminate.
  - destruct s as [| c s]; cbn [List.map comprehension].
    + split; eauto.
    + rewrite from_dict_str. cbn [rbind].
      split; [intros [? ?]; discriminate |].
      intros [(? & ? & _) | [? | ?]]; discriminate.
  - rewrite comprehension_ok_iff. split.
    + intros H. left. eauto.
    + intros [(items & Heq & H) | [? | ?]]; try discriminate.
      now injection Heq as ->.
  - destruct d as [| [k v] d]; cbn [List.map comprehension fst].
    + split; eauto.
    + rewrite from_dict_str. cbn [rbind].
      split; [intros [? ?]; discriminate |].
      intros [(? & ? & _) | [? | ?]]; discriminate.
Qed.

Section Stores.

Variable json_loads : str -> result value.

(** X7.  Which decoded stores the constructor accepts: it returns a wallet
    exactly when the decoded value is a list whose elements are all
    dictionaries holding a well-typed date, category, amount and
    description, or is the empty dictionary or the empty string; on every
    other decoded value it raises. *)
Lemma Wallet_init_loadable (path text : str) (fs : fsys) (data : value) :
  fs !! path = Some (Text text) ->
  json_loads text = Ok data ->
  ((exists w, Wallet_init json_loads path fs = (Ok w, fs)) <-> loadable data)
  /\ (~ loadable data ->
      exists e, Wallet_init json_loads path fs = (Raise e, fs)).
Proof.
  intros Hfile Hdata.
  rewrite (Wallet_init_run json_loads path text fs data Hfile Hdata).
  rewrite <- conversion_ok_iff.
  destruct (let* items := py_iter data in
            comprehension from_dict items)%result as [rs | e].
  - split; [split; eauto |]. intros H. exfalso. eauto.
  - split; [split |].
    + intros [w H]. discriminate.
    + intros [rs H]. discriminate.
    + eauto.
Qed.

(** X8.  Constructing a wallet only reads: whatever the store holds and
    whether the constructor returns or raises, the file system afterwards
    is the one before; in particular a missing store file is not
    created. *)
Lemma Wallet_init_reads_only (path : str) (fs : fsys) :
  snd (Wallet_init json_loads path fs) = fs.
Proof.
  unfold Wallet_init, load_records, try_except, bind, read_file, lift.
  cbn [filename].
  destruct (fs !! path) as [[text | | e] |];
    [| reflexivity | now destruct e | reflexivity].
  destruct (json_loads text) as [data | e]; [| now destruct e].
  destruct (py_iter data) as [items | e]; cbn [rbind].
  - destruct (comprehension from_dict items) as [rs | e];
      [reflexivity | now destruct e].
  - now destruct e.
Qed.

End Stores.

(** A store holding the text of a list with a number in it. *)
Lemma Wallet_init_loadable_witness :
  ((exists w, Wallet_init loads_small (lit "wallet.txt")
                {[ lit "wallet.txt" := Text (lit "[1]") ]}
              = (Ok w, {[ lit "wallet.txt" := Text (lit "[1]") ]}))
   <-> loadable (VList [VInt 1])) /\
  (~ loadable (VList [VInt 1]) ->
   exists e, Wallet_init loads_small (lit "wallet.txt")
               {[ lit "wallet.txt" := Text (lit "[1]") ]}
             = (Raise e, {[ lit "wallet.txt" := Text (lit "[1]") ]})).
Proof.
  apply (Wallet_init_loadable loads_small (lit "wallet.txt") (lit "[1]")
           {[ lit "wallet.txt" := Text (lit "[1]") ]} (VList [VInt 1])).
  - apply lookup_singleton_eq.
  - reflexivity.
Defined.

(** A dictionary whose amount is a string. *)
Lemma from_dict_checks_types_witness :
  (from_dict (VDict [(lit "date", VStr (lit "2023-01-01"));
                     (lit "category", VStr (lit "Income"));
                     (lit "amount", VStr (lit "1000"));
                     (lit "description", VStr (lit "Salary"))])
   = Raise TypeError
   <-> ~ well_typed (VStr (lit "2023-01-01")) (VStr (lit "Income"))
          (VStr (lit "1000")) (VStr (lit "Salary"))) /\
  (forall r,
      from_dict (VDict [(lit "date", VStr (lit "2023-01-01"));
                        (lit "category", VStr (lit "Income"));
                        (lit "amount", VStr (lit "1000"));
                        (lit "description", VStr (lit "Salary"))])
      = Ok r ->
      well_typed (VStr (lit "2023-01-01")) (VStr (lit "Income"))
        (VStr (lit "1000")) (VStr (lit "Salary")) /\
      VStr (date r) = VStr (lit "2023-01-01") /\
      VStr (category r) = VStr (lit "Income") /\
      value_of_number (amount r) = VStr (lit "1000") /\
      VStr (description r) = VStr (lit "Salary")).
Proof.
  apply (from_dict_checks_types
           [(lit "date", VStr (lit "2023-01-01"));
            (lit "category", VStr (lit "Income"));
            (lit "amount", VStr (lit "1000"));
            (lit "description", VStr (lit "Salary"))]).
  reflexivity.
Defined.

Lemma substring_refl (a : str) : substring a a.
Proof. exists [], []. now rewrite app_nil_r. Qed.

Lemma set_records_self (self : wallet) : set_records self (records self) = self.
Proof. now destruct self. Qed.

(** A comprehension with a condition over a list with one more element
    at the end. *)
Lemma comprehension_if_snoc {A} (f : A -> result bool) (l : list A) (x : A) :
  comprehension_if f (l ++ [x])
  = (let* ys := comprehension_if f l in
     let* keep := f x in
     Ok (if keep then ys ++ [x] else ys))%result.
Proof.
  induction l as [| y l IH]; cbn [app comprehension_if].
  - destruct (f x) as [[|] | e]; reflexivity.
  - destruct (f y) as [k | e]; cbn [rbind]; [| reflexivity].
    rewrite IH. destruct (comprehension_if f l) as [ys | e];
      cbn [rbind]; [| reflexivity].
    destruct (f x) as [k' | e]; cbn [rbind]; [| reflexivity].
    now destruct k, k'.
Qed.

(** Writing a path of the file system and reading it, and writing it
    twice. *)
Lemma fsys_lookup_insert (fs : fsys) (path : str) (n : node) :
  <[path := n]> fs !! path = Some n.
Proof. apply lookup_insert_eq. Qed.

Lemma fsys_insert_insert (fs : fsys) (path : str) (n n' : node) :
  <[path := n]> (<[path := n']> fs) = <[path := n]> fs.
Proof. apply insert_insert_eq. Qed.

Section Composition.

Variable lower : str -> str.
Variable float_repr : float -> str.
Variable json_dumps : value -> str * option exn.

(** A search that returns has met no erring record. *)
Lemma find_records_returns (self : wallet) (term : str)
    (found : list record) :
  find_records lower float_repr self term = Ok found ->
  Forall (fun r => ~ Erring lower term r) (records self) /\
  selection (Matches lower float_repr term) (records self) found.
Proof.
  intros Hrun.
  assert (Hall : Forall (fun r => ~ Erring lower term r) (records self)).
  { apply Forall_Exists_neg. intros Hex.
    rewrite (find_records_raises lower float_repr self term Hex) in Hrun.
    discriminate. }
  split; [exact Hall |].
  destruct (find_records_selection lower float_repr self term Hall)
    as (found' & Hrun' & Hsel).
  rewrite Hrun in Hrun'. now injection Hrun' as <-.
Qed.

(** X9.  A search that returns finds a record of the wallet by each of
    its own fields: by its date, by its description, by its category and
    by the text of its amount.  The search returns for every term when no
    amount in the wallet is an integer of more than 4300 digits; and the
    search for the date of a record whose amount is such an integer, and
    whose description and category do not hold that date, raises
    [ValueError]. *)
Lemma find_records_own_fields (self : wallet) (r : record) :
  In r (records self) ->
  (forall term found,
      term = date r \/ term = description r \/ term = category r \/
      amount_text float_repr (amount r) term ->
      find_records lower float_repr self term = Ok found ->
      In r found) /\
  (Forall (fun r' => ~ unwritable (amount r')) (records self) ->
   forall term, exists found,
     find_records lower float_repr self term = Ok found /\
     selection (Matches lower float_repr term) (records self) found) /\
  (unwritable (amount r) ->
   ~ substring (lower (date r)) (lower (description r)) ->
   ~ substring (lower (date r)) (lower (category r)) ->
   find_records lower float_repr self (date r) = Raise ValueError).
Proof.
  intros Hin. split; [| split].
  - intros term found Hterm Hrun.
    apply find_records_returns in Hrun as [_ Hsel].
    apply (selection_elem _ _ _ Hsel). split; [exact Hin |].
    unfold Matches.
    destruct Hterm as [-> | [-> | [-> | Htext]]];
      eauto 6 using substring_refl.
  - intros Hall term. apply find_records_selection.
    eapply Forall_impl; [exact Hall |].
    intros r' Hr' (_ & _ & Hu). exact (Hr' Hu).
  - intros Hu Hd Hc. apply find_records_raises.
    apply List.Exists_exists. exists r. split; [exact Hin |].
    repeat split; assumption.
Qed.

(** X10.  Searching after an addition.  The wallet in memory is the
    enlarged one whether or not the store file could be written.  A
    search that raised before raises the same afterwards.  A search that
    returned before returns the same matches followed by the added record
    when that record meets the criterion, returns the same matches when
    it does not, and raises [ValueError] when the added record is an
    erring one. *)
Lemma find_records_after_add (self : wallet) (r : record) (term : str)
    (fs : fsys) :
  exists res fs',
    add_record json_dumps self r fs
    = (res, set_records self (records self ++ [r]), fs') /\
    (forall e,
        find_records lower float_repr self term = Raise e ->
        find_records lower float_repr
          (set_records self (records self ++ [r])) term = Raise e) /\
    (forall found,
        find_records lower float_repr self term = Ok found ->
        (Erring lower term r ->
         find_records lower float_repr
           (set_records self (records self ++ [r])) term
         = Raise ValueError) /\
        (~ Erring lower term r -> Matches lower float_repr term r ->
         find_records lower float_repr
           (set_records self (records self ++ [r])) term
         = Ok (found ++ [r])) /\
        (~ Erring lower term r -> ~ Matches lower float_repr term r ->
         find_records lower float_repr
           (set_records self (records self ++ [r])) term
         = Ok found)).
Proof.
  destruct (add_record_run json_dumps self r fs) as (res & fs' & Hadd & _).
  exists res, fs'. split; [exact Hadd |].
  unfold find_records. cbn [set_records records].
  rewrite comprehension_if_snoc.
  split.
  - intros e ->. reflexivity.
  - intros found ->. cbn [rbind]. split; [| split].
    + intros Herr. now rewrite (found_erring lower float_repr term r Herr).
    + intros Hok HM.
      destruct (found_criterion lower float_repr term r Hok)
        as (keep & -> & Hkeep).
      apply Hkeep in HM as ->. reflexivity.
    + intros Hok HM.
      destruct (found_criterion lower float_repr term r Hok)
        as (keep & -> & Hkeep).
      destruct keep; [| reflexivity].
      exfalso. apply HM, Hkeep. reflexivity.
Qed.

(** X11.  Adding a record and then removing the last position gives the
    wallet back as it was in memory, whether or not the store file could
    be written.  The removal returns true exactly when the path of the
    store opens for writing and [json.dump] writes the records of the
    wallet without raising, and the store file then holds these records;
    otherwise the removal raises. *)
Lemma add_then_remove_last (self : wallet) (r : record) (fs : fsys) :
  exists res1 self1 fs1 res2 fs2,
    add_record json_dumps self r fs = (res1, self1, fs1) /\
    remove_record json_dumps self1 (Z.of_nat (length (records self))) fs1
    = (res2, self, fs2) /\
    (res2 = Ok true <->
     opens fs (filename self) /\
     exists text, json_dumps (serialization self) = (text, None)) /\
    (res2 = Ok true -> persisted json_dumps self fs2) /\
    (res2 <> Ok true -> exists e, res2 = Raise e).
Proof.
  destruct (add_record_run json_dumps self r fs) as (res1 & fs1 & Hadd & Hw1).
  set (self1 := set_records self (records self ++ [r])) in *.
  assert (Hin : 0 <= Z.of_nat (length (records self))
                < Z.of_nat (length (records self1))).
  { unfold self1. cbn [set_records records]. rewrite length_app. cbn. lia. }
  destruct (remove_record_in_range json_dumps self1 _ fs1 Hin)
    as (saved & fs2 & Hrem & Hw2).
  assert (Hback : set_records self1
                    (delete (Z.to_nat (Z.of_nat (length (records self))))
                       (records self1)) = self).
  { unfold self1. cbn [set_records records filename].
    rewrite Nat2Z.id, delete_middle, app_nil_r. now destruct self. }
  rewrite Hback in Hrem, Hw2.
  exists res1, self1, fs1, (let* _ := saved in Ok true)%result, fs2.
  split; [exact Hadd |]. split; [exact Hrem |].
  assert (Hopen : opens fs1 (filename self) <-> opens fs (filename self)).
  { inversion Hw1 as [e E | text Ho Hd | text e Ho Hd]; subst;
      change (filename self1) with (filename self) in *.
    - reflexivity.
    - split; [intros _; exact Ho |]. intros _ e.
      rewrite fsys_lookup_insert. discriminate.
    - split; [intros _; exact Ho |]. intros _ e'.
      rewrite fsys_lookup_insert. discriminate. }
  split; [| split].
  - split.
    + intros Hres.
      inversion Hw2 as [e E | text Ho Hd | text e Ho Hd]; subst;
        try discriminate Hres.
      split; [now apply Hopen | eauto].
    + intros [Ho [text Hd]]. apply Hopen in Ho.
      assert (Hw : written json_dumps self fs1 (Ok tt)
                     (<[filename self := Text text]> fs1))
        by now apply written_whole.
      destruct (written_unique json_dumps self fs1 _ _ _ _ Hw2 Hw)
        as [-> _].
      reflexivity.
  - intros Hres. destruct saved as [[] | e]; [| discriminate Hres].
    eapply written_persisted, Hw2.
  - intros Hres. destruct saved as [[] | e]; [now destruct Hres |].
    now exists e.
Qed.

(** X12.  The last edit wins: editing a position twice leaves the result
    of the call, the wallet in memory and the file system as the second
    edit alone does, whether or not the first edit could write the store
    file. *)
Lemma edit_record_twice (self : wallet) (index : Z) (r1 r2 : record)
    (fs : fsys) :
  exists res1 self1 fs1,
    edit_record json_dumps self index r1 fs = (res1, self1, fs1) /\
    edit_record json_dumps self1 index r2 fs1
    = edit_record json_dumps self index r2 fs.
Proof.
  destruct (decide (0 <= index < Z.of_nat (length (records self))))
    as [Hin | Hout].
  - destruct (edit_record_in_range json_dumps self index r1 fs Hin)
      as (saved1 & fs1 & Hrun1 & Hw1).
    do 3 eexists. split; [exact Hrun1 |].
    unfold edit_record, save_records, write_file.
    cbn [set_records records filename]. rewrite length_insert.
    rewrite (proj2 (index_guard index _) Hin).
    rewrite list_insert_insert_eq.
    inversion Hw1 as [e E | text Ho Hd | text e Ho Hd]; subst;
      cbn [set_records filename] in *.
    + reflexivity.
    + rewrite fsys_lookup_insert, fsys_insert_insert.
      destruct (fs !! filename self) as [[t | | e] |] eqn:E;
        first [reflexivity | now destruct (Ho e)].
    + rewrite fsys_lookup_insert, fsys_insert_insert.
      destruct (fs !! filename self) as [[t | | e'] |] eqn:E;
        first [reflexivity | now destruct (Ho e')].
  - rewrite (edit_record_out_of_range json_dumps self index r1 fs Hout).
    do 3 eexists. split; reflexivity.
Qed.

(** X13.  The mutating operations write one file: every path other than
    the wallet's own holds afterwards what it held before, and the wallet
    keeps its file name, whether the operation returns or raises. *)
Lemma mutations_write_own_file (self : wallet) (fs : fsys) (path : str) :
  path <> filename self ->
  (forall r res self' fs',
      add_record json_dumps self r fs = (res, self', fs') ->
      fs' !! path = fs !! path /\ filename self' = filename self) /\
  (forall index r res self' fs',
      edit_record json_dumps self index r fs = (res, self', fs') ->
      fs' !! path = fs !! path /\ filename self' = filename self) /\
  (forall index res self' fs',
      remove_record json_dumps self index fs = (res, self', fs') ->
      fs' !! path = fs !! path /\ filename self' = filename self).
Proof.
  intros Hp. split; [| split].
  - intros r res self' fs' Hrun.
    destruct (add_record_run json_dumps self r fs) as (s & f & Heq & Hw).
    rewrite Heq in Hrun. injection Hrun as <- <- <-.
    split; [| reflexivity].
    now apply (written_frame json_dumps _ _ _ _ path Hw).
  - intros index r res self' fs' Hrun.
    destruct (decide (0 <= index < Z.of_nat (length (records self))))
      as [Hin | Hout].
    + destruct (edit_record_in_range json_dumps self index r fs Hin)
        as (s & f & Heq & Hw).
      rewrite Heq in Hrun. injection Hrun as <- <- <-.
      split; [| reflexivity].
      now apply (written_frame json_dumps _ _ _ _ path Hw).
    + rewrite (edit_record_out_of_range json_dumps _ _ _ _ Hout) in Hrun.
      injection Hrun as <- <- <-. auto.
  - intros index res self' fs' Hrun.
    destruct (decide (0 <= index < Z.of_nat (length (records self))))
      as [Hin | Hout].
    + destruct (remove_record_in_range json_dumps self index fs Hin)
        as (s & f & Heq & Hw).
      rewrite Heq in Hrun. injection Hrun as <- <- <-.
      split; [| reflexivity].
      now apply (written_frame json_dumps _ _ _ _ path Hw).
    + rewrite (remove_record_out_of_range json_dumps _ _ _ Hout) in Hrun.
      injection Hrun as <- <- <-. auto.
Qed.

End Composition.

(** The salary record is found by its own fields once it is in a
    wallet. *)
Lemma find_records_own_fields_witness :
  (forall term found,
      term = date salary \/ term = description salary \/
      term = category salary \/
      amount_text repr_integral (amount salary) term ->
      find_records lower_basic repr_integral
        (mkWallet (lit "wallet.txt") [groceries; salary]) term = Ok found ->
      In salary found) /\
  (Forall (fun r' => ~ unwritable (amount r')) [groceries; salary] ->
   forall term, exists found,
     find_records lower_basic repr_integral
       (mkWallet (lit "wallet.txt") [groceries; salary]) term = Ok found /\
     selection (Matches lower_basic repr_integral term) [groceries; salary]
       found) /\
  (unwritable (amount salary) ->
   ~ substring (lower_basic (date salary)) (lower_basic (description salary)) ->
   ~ substring (lower_basic (date salary)) (lower_basic (category salary)) ->
   find_records lower_basic repr_integral
     (mkWallet (lit "wallet.txt") [groceries; salary]) (date salary)
   = Raise ValueError).
Proof.
  apply (find_records_own_fields lower_basic repr_integral
           (mkWallet (lit "wallet.txt") [groceries; salary]) salary).
  right. left. reflexivity.
Defined.

(** Another file beside the store of a wallet. *)
Lemma mutations_write_own_file_witness :
  (forall r res self' fs',
      add_record dumps_pretty (mkWallet (lit "wallet.txt") [salary]) r
        {[ lit "notes.txt" := Text (lit "keep") ]} = (res, self', fs') ->
      fs' !! lit "notes.txt"
      = ({[ lit "notes.txt" := Text (lit "keep") ]} : fsys) !! lit "notes.txt"
      /\ filename self' = lit "wallet.txt") /\
  (forall index r res self' fs',
      edit_record dumps_pretty (mkWallet (lit "wallet.txt") [salary])
        index r {[ lit "notes.txt" := Text (lit "keep") ]}
      = (res, self', fs') ->
      fs' !! lit "notes.txt"
      = ({[ lit "notes.txt" := Text (lit "keep") ]} : fsys) !! lit "notes.txt"
      /\ filename self' = lit "wallet.txt") /\
  (forall index res self' fs',
      remove_record dumps_pretty (mkWallet (lit "wallet.txt") [salary])
        index {[ lit "notes.txt" := Text (lit "keep") ]} = (res, self', fs') ->
      fs' !! lit "notes.txt"
      = ({[ lit "notes.txt" := Text (lit "keep") ]} : fsys) !! lit "notes.txt"
      /\ filename self' = lit "wallet.txt").
Proof.
  apply (mutations_write_own_file dumps_pretty
           (mkWallet (lit "wallet.txt") [salary])
           {[ lit "notes.txt" := Text (lit "keep") ]} (lit "notes.txt")).
  discriminate.
Defined.

(** * The balance on integer and on floating point amounts *)

Lemma Forall_filter_keep {A} (P : A -> Prop) (f : A -> bool) (l : list A) :
  Forall P l -> Forall P (List.filter f l).
Proof.
  rewrite !List.Forall_forall. intros H x Hx.
  apply filter_In in Hx as [Hx _]. auto.
Qed.

Lemma sum_from_ints (acc : Z) (xs : list number) :
  Forall (fun n => is_Some (int_amount n)) xs ->
  sum_from (NInt acc) xs = Ok (NInt (acc + int_total xs)).
Proof.
  unfold int_total.
  revert acc. induction xs as [| x xs IH]; intros acc Hall; cbn [sum_from].
  - cbn. now rewrite Z.add_0_r.
  - inversion Hall as [| ? ? [v Hv] Hxs]; subst.
    assert (Hadd : py_add (NInt acc) x = Ok (NInt (acc + v))).
    { destruct x as [b | z | f]; cbn in Hv; [| | discriminate];
        injection Hv as <-; reflexivity. }
    rewrite Hadd. cbn [rbind]. rewrite (IH _ Hxs).
    cbn [List.map fold_right]. rewrite Hv.
    change (default 0 (Some v)) with v.
    apply f_equal, f_equal. lia.
Qed.

Lemma num_op_float_like (op : binop) (a b : number) :
  float_like a -> float_like b ->
  exists c, num_op op a b = Ok c /\ float_like c.
Proof.
  intros [-> | [fa ->]] [-> | [fb ->]].
  - exists (NInt (int_op op 0 0)). split; [reflexivity |].
    left. now destruct op.
  - eexists. split; [reflexivity |]. right. eexists. reflexivity.
  - eexists. split; [reflexivity |]. right. eexists. reflexivity.
  - eexists. split; [reflexivity |]. right. eexists. reflexivity.
Qed.

Lemma sum_from_floats (acc : number) (xs : list number) :
  float_like acc -> Forall is_float_amount xs ->
  exists total, sum_from acc xs = Ok total /\ float_like total.
Proof.
  revert acc. induction xs as [| x xs IH]; intros acc Hacc Hall;
    cbn [sum_from].
  - eauto.
  - inversion Hall as [| ? ? Hx Hxs]; subst.
    destruct (num_op_float_like Add acc x Hacc (or_intror Hx))
      as (acc' & Hadd & Hacc').
    unfold py_add. rewrite Hadd. cbn [rbind]. now apply IH.
Qed.

(** The two parts of the records keep a property all amounts have. *)
Lemma partition_amounts_Forall (lower : str -> str) (P : number -> Prop)
    (rs : list record) :
  Forall (fun r => P (amount r)) rs ->
  Forall P (fst (partition_amounts lower rs)) /\
  Forall P (snd (partition_amounts lower rs)).
Proof.
  induction 1 as [| r rs Hr _ [IHi IHe]]; cbn [partition_amounts].
  - split; constructor.
  - destruct (partition_amounts lower rs) as [incomes expenses].
    cbn [fst snd] in *.
    destruct (role_of lower r) as [[|] |]; cbn [fst snd]; split;
      try assumption; now constructor.
Qed.

(** A number below ten thousand is far below the limit of [str]. *)
Lemma small_below_limit (z : Z) : Z.abs z < 10 ^ 4 -> Z.abs z < 10 ^ 4300.
Proof.
  intros H. apply Z.lt_le_trans with (10 ^ 4); [exact H |].
  apply Z.pow_le_mono_r; lia.
Qed.

Section BalanceKinds.

Variable lower : str -> str.
Variable float_repr : float -> str.

Lemma py_str_int (z : Z) :
  Z.abs z < 10 ^ 4300 ->
  exists t, numeral z t /\ py_str float_repr (NInt z) = Ok t.
Proof.
  intros Hz. exists (str_of_int z). split; [apply numeral_str_of_int |].
  apply py_str_text. constructor; [exact Hz | apply numeral_str_of_int].
Qed.

Lemma py_str_float_like (n : number) :
  float_like n -> exists t, amount_text float_repr n t.
Proof.
  intros Hn. destruct (text_or_unwritable float_repr n) as [H | (z & -> & Hz)];
    [exact H |].
  exfalso. destruct Hn as [Heq | [f Heq]]; [| discriminate].
  injection Heq as ->. cbn [Z.abs] in Hz.
  assert (Hpos : 0 < 10 ^ 4300)
    by (apply Z.pow_pos_nonneg; [reflexivity | discriminate]).
  revert Hz Hpos. generalize (10 ^ 4300). intros limit Hz Hpos. lia.
Qed.

(** X14.  On a wallet whose amounts are all integers the balance is
    exact: the income and the expense are the integer totals of the two
    parts and the balance is their difference.  When each of the three
    has at most 4300 digits, the report with their decimal numerals is
    written; when one of them has more, nothing is written and
    [ValueError] is raised. *)
Lemma display_balance_ints (self : wallet) (out : list str) :
  Forall (fun r => is_Some (int_amount (amount r))) (records self) ->
  (Z.abs (int_total (fst (partition_amounts lower (records self)))) < 10 ^ 4300
   /\
   Z.abs (int_total (snd (partition_amounts lower (records self)))) < 10 ^ 4300
   /\
   Z.abs (int_total (fst (partition_amounts lower (records self)))
          - int_total (snd (partition_amounts lower (records self))))
   < 10 ^ 4300 ->
   exists b i e,
     numeral (int_total (fst (partition_amounts lower (records self)))
              - int_total (snd (partition_amounts lower (records self)))) b /\
     numeral (int_total (fst (partition_amounts lower (records self)))) i /\
     numeral (int_total (snd (partition_amounts lower (records self)))) e /\
     display_balance lower float_repr self out
     = (Ok tt, out ++ [balance_report b i e])) /\
  (10 ^ 4300
   <= Z.abs (int_total (fst (partition_amounts lower (records self)))) \/
   10 ^ 4300
   <= Z.abs (int_total (snd (partition_amounts lower (records self)))) \/
   10 ^ 4300
   <= Z.abs (int_total (fst (partition_amounts lower (records self)))
             - int_total (snd (partition_amounts lower (records self)))) ->
   display_balance lower float_repr self out = (Raise ValueError, out)).
Proof.
  intros Hall.
  destruct (partition_amounts_Forall lower
              (fun n => is_Some (int_amount n)) _ Hall) as [Hi He].
  set (incomes := fst (partition_amounts lower (records self))) in *.
  set (expenses := snd (partition_amounts lower (records self))) in *.
  assert (Hsi : py_sum incomes = Ok (NInt (int_total incomes)))
    by (unfold py_sum; now rewrite sum_from_ints).
  assert (Hse : py_sum expenses = Ok (NInt (int_total expenses)))
    by (unfold py_sum; now rewrite sum_from_ints).
  split.
  - intros (Hli & Hle & Hlb).
    destruct (py_str_int _ Hlb) as (b & Hnb & Hb).
    destruct (py_str_int _ Hli) as (i & Hni & Hi').
    destruct (py_str_int _ Hle) as (e & Hne & He').
    exists b, i, e. repeat (split; [assumption |]).
    rewrite display_balance_run. fold incomes expenses.
    rewrite Hsi, Hse. cbn [rbind].
    change (py_sub (NInt (int_total incomes)) (NInt (int_total expenses)))
      with (Ok (NInt (int_total incomes - int_total expenses))).
    cbn [rbind]. rewrite Hb. cbn [rbind]. rewrite Hi'. cbn [rbind].
    rewrite He'. reflexivity.
  - intros Hlong.
    apply (display_balance_unwritable lower float_repr self out
             (NInt (int_total incomes)) (NInt (int_total expenses))
             (NInt (int_total incomes - int_total expenses))).
    + now apply py_sum_Total.
    + now apply py_sum_Total.
    + apply py_sub_Minus. reflexivity.
    + unfold unwritable. destruct Hlong as [H | [H | H]]; eauto 6.
Qed.

(** X15.  On a wallet whose amounts are all floats, as the menu stores
    them, [display_balance] raises nothing and writes its report: the
    two totals and their difference exist and have a textual form, since
    the conversion of a large integer to a float and the writing of a
    long integer, the two things that raise, never happen. *)
Lemma display_balance_floats (self : wallet) (out : list str) :
  Forall (fun r => is_float_amount (amount r)) (records self) ->
  exists income expense balance b i e,
    Total (fst (partition_amounts lower (records self))) (Ok income) /\
    Total (snd (partition_amounts lower (records self))) (Ok expense) /\
    Minus income expense (Ok balance) /\
    amount_text float_repr balance b /\
    amount_text float_repr income i /\
    amount_text float_repr expense e /\
    display_balance lower float_repr self out
    = (Ok tt, out ++ [balance_report b i e]).
Proof.
  intros Hall.
  destruct (partition_amounts_Forall lower is_float_amount _ Hall)
    as [Hi He].
  set (incomes := fst (partition_amounts lower (records self))) in *.
  set (expenses := snd (partition_amounts lower (records self))) in *.
  destruct (sum_from_floats (NInt 0) incomes) as (income & Hsi & Hfi);
    [now left | exact Hi |].
  destruct (sum_from_floats (NInt 0) expenses) as (expense & Hse & Hfe);
    [now left | exact He |].
  destruct (num_op_float_like Sub income expense Hfi Hfe)
    as (balance & Hsb & Hfb).
  destruct (py_str_float_like balance Hfb) as [b Hb].
  destruct (py_str_float_like income Hfi) as [i Hti].
  destruct (py_str_float_like expense Hfe) as [e Hte].
  exists income, expense, balance, b, i, e.
  split; [now apply py_sum_Total |]. split; [now apply py_sum_Total |].
  split; [now apply py_sub_Minus |].
  repeat (split; [assumption |]).
  rewrite display_balance_run. fold incomes expenses.
  unfold py_sum, py_sub. rewrite Hsi, Hse. cbn [rbind]. rewrite Hsb.
  cbn [rbind].
  rewrite (proj2 (py_str_text float_repr _ _) Hb),
    (proj2 (py_str_text float_repr _ _) Hti),
    (proj2 (py_str_text float_repr _ _) Hte).
  reflexivity.
Qed.

End BalanceKinds.

(** An income of 1200 and an expense of 300 in whole numbers: the report
    holds 900, 1200 and 300. *)
Lemma display_balance_ints_witness :
  display_balance lower_basic repr_integral
    (mkWallet (lit "wallet.txt")
       [mkRecord (lit "2023-01-01") (lit "Доход") (NInt 1200) (lit "Salary");
        mkRecord (lit "2023-01-02") (lit "Расход") (NInt 300) (lit "Rent")])
    []
  = (Ok tt, [balance_report (lit "900") (lit "1200") (lit "300")]).
Proof.
  destruct (display_balance_ints lower_basic repr_integral
              (mkWallet (lit "wallet.txt")
                 [mkRecord (lit "2023-01-01") (lit "Доход") (NInt 1200)
                    (lit "Salary");
                  mkRecord (lit "2023-01-02") (lit "Расход") (NInt 300)
                    (lit "Rent")]) [])
    as [Hwritten _].
  { repeat constructor; cbn; eauto. }
  destruct Hwritten as (b & i & e & Hb & Hi & He & Hrun).
  { repeat split; apply small_below_limit; reflexivity. }
  rewrite Hrun.
  rewrite (numeral_unique _ _ Hb), (numeral_unique _ _ Hi),
    (numeral_unique _ _ He).
  reflexivity.
Defined.

(** An income of 1200.0 and an expense of 300.0. *)
Lemma display_balance_floats_witness :
  exists income expense balance b i e,
    Total
      (fst (partition_amounts lower_basic
              [mkRecord (lit "2023-01-01") (lit "Доход") (NFloat 1200)
                 (lit "Salary");
               mkRecord (lit "2023-01-02") (lit "Расход") (NFloat 300)
                 (lit "Rent")]))
      (Ok income) /\
    Total
      (snd (partition_amounts lower_basic
              [mkRecord (lit "2023-01-01") (lit "Доход") (NFloat 1200)
                 (lit "Salary");
               mkRecord (lit "2023-01-02") (lit "Расход") (NFloat 300)
                 (lit "Rent")]))
      (Ok expense) /\
    Minus income expense (Ok balance) /\
    amount_text repr_integral balance b /\
    amount_text repr_integral income i /\
    amount_text repr_integral expense e /\
    display_balance lower_basic repr_integral
      (mkWallet (lit "wallet.txt")
         [mkRecord (lit "2023-01-01") (lit "Доход") (NFloat 1200)
            (lit "Salary");
          mkRecord (lit "2023-01-02") (lit "Расход") (NFloat 300)
            (lit "Rent")])
      []
    = (Ok tt, [] ++ [balance_report b i e]).
Proof.
  apply (display_balance_floats lower_basic repr_integral
           (mkWallet (lit "wallet.txt")
              [mkRecord (lit "2023-01-01") (lit "Доход") (NFloat 1200)
                 (lit "Salary");
               mkRecord (lit "2023-01-02") (lit "Расход") (NFloat 300)
                 (lit "Rent")]) []).
  repeat constructor; eexists; reflexivity.
Defined.

(** * The texts the validator accepts *)

Section Accepted.

Variable decimal : char -> option Z.
Hypothesis decimal_ascii : forall c, (c < 128)%N -> decimal c = ascii_decimal c.

Lemma decimal_digit (c : char) :
  is_digit c -> decimal c = Some (digit_value c).
Proof.
  intros Hc. rewrite decimal_ascii by (unfold is_digit in Hc; lia).
  now apply ascii_decimal_digit.
Qed.

Lemma decimal_not_space (x : char) (v : Z) :
  decimal x = Some v -> is_space x = false.
Proof.
  intros Hx. unfold is_space. apply N.eqb_neq. intros ->.
  rewrite decimal_ascii in Hx by (change (ch " ") with 32%N; lia).
  discriminate.
Qed.

Lemma decimal_not_hyphen (x : char) (v : Z) :
  decimal x = Some v -> x <> ch "-".
Proof.
  intros Hx ->.
  rewrite decimal_ascii in Hx by (change (ch "-") with 45%N; lia).
  discriminate.
Qed.

(** Every match of a pattern is a text of its language. *)
Lemma rmatch_lang (r : regex) (s : str) (g : list (str * str)) (t s' : str) :
  In (g, t, s') (rmatch decimal r s) -> lang decimal r t.
Proof.
  revert s g t s'.
  induction r as [c | lo hi | | r1 IH1 r2 IH2 | r1 IH1 r2 IH2 | name r IH];
    intros s g t s' Hin; cbn in Hin |- *.
  - destruct s as [| x s]; [contradiction |].
    destruct (N.eqb_spec x c) as [-> |]; [| contradiction].
    destruct Hin as [Heq | []]. now injection Heq as <- <- <-.
  - destruct s as [| x s]; [contradiction |].
    destruct ((lo <=? x)%N && (x <=? hi)%N) eqn:E; [| contradiction].
    destruct Hin as [Heq | []]. injection Heq as <- <- <-.
    apply andb_true_iff in E as [E1 E2].
    apply N.leb_le in E1, E2. eauto.
  - destruct s as [| x s]; [contradiction |].
    destruct (decimal x) as [v |] eqn:E; [| contradiction].
    destruct Hin as [Heq | []]. injection Heq as <- <- <-. eauto.
  - apply in_flat_map in Hin as ([[g1 t1] s1] & H1 & Hin).
    apply in_map_iff in Hin as ([[g2 t2] s2] & Heq & H2).
    injection Heq as <- <- <-.
    exists t1, t2. split; [reflexivity |]. split; eauto.
  - apply in_app_or in Hin as [H | H]; eauto.
  - apply in_map_iff in Hin as ([[g' t'] s''] & Heq & H).
    injection Heq as <- <- <-. eauto.
Qed.

Lemma lang_month (M : str) :
  lang decimal directive_m M -> exists m, month_text M m.
Proof.
  cbn [lang directive_m].
  intros [(t1 & t2 & -> & -> & x & -> & Hx)
         | [(t1 & t2 & -> & -> & x & -> & Hx) | (x & -> & Hx)]];
    eexists.
  - apply month_ten_to_twelve. exact Hx.
  - apply month_leading_zero. exact Hx.
  - apply month_one_digit. exact Hx.
Qed.

Lemma lang_day (D : str) :
  lang decimal directive_d D -> exists d, day_text decimal D d.
Proof.
  cbn [lang directive_d].
  intros [(t1 & t2 & -> & -> & x & -> & Hx)
         | [(t1 & t2 & -> & (c & -> & Hc) & x & v & -> & Hx)
           | [(t1 & t2 & -> & -> & x & -> & Hx)
             | [(x & -> & Hx) | (t1 & t2 & -> & -> & x & -> & Hx)]]]];
    eexists.
  - apply day_thirty. exact Hx.
  - apply day_ten_to_twenty_nine; [exact Hc | exact Hx].
  - apply day_leading_zero. exact Hx.
  - apply day_one_digit. exact Hx.
  - apply day_leading_space. exact Hx.
Qed.

(** A text of the language of the whole pattern is a year, a month text
    and a day text between hyphens. *)
Lemma lang_format (s : str) :
  lang decimal format_regex s ->
  exists y1 y2 y3 y4 v1 v2 v3 v4 M m D d,
    s = [y1; y2; y3; y4] ++ ch "-" :: M ++ ch "-" :: D /\
    decimal y1 = Some v1 /\ decimal y2 = Some v2 /\
    decimal y3 = Some v3 /\ decimal y4 = Some v4 /\
    month_text M m /\ day_text decimal D d.
Proof.
  unfold format_regex, month_day_regex.
  cbn [lang]. change (lang decimal (Grp (lit "Y") ?r)) with (lang decimal r).
  intros (ty & tt & -> & Hy & t1 & t2 & -> & -> & M & t3 & -> & HM
          & t4 & D & -> & -> & HD).
  unfold directive_Y in Hy. cbn [lang] in Hy.
  destruct Hy as (? & ? & -> & (y1 & v1 & -> & H1)
                  & ? & ? & -> & (y2 & v2 & -> & H2)
                  & ? & ? & -> & (y3 & v3 & -> & H3) & y4 & v4 & -> & H4).
  apply lang_month in HM as [m HM]. apply lang_day in HD as [d HD].
  exists y1, y2, y3, y4, v1, v2, v3, v4, M, m, D, d.
  repeat split; try assumption.
Qed.

(** The characters and names of the pattern as numerals, for
    evaluation. *)
Ltac numerals :=
  change (ch "-") with 45%N in *; change (ch " ") with 32%N in *;
  change (ch "0") with 48%N in *; change (ch "1") with 49%N in *;
  change (ch "2") with 50%N in *; change (ch "3") with 51%N in *;
  change (ch "9") with 57%N in *;
  change (lit "Y") with [89%N] in *; change (lit "m") with [109%N] in *;
  change (lit "d") with [100%N] in *.

Ltac one_of_digits c H :=
  let Hc := fresh "Hc" in
  assert (c = 48 \/ c = 49 \/ c = 50 \/ c = 51 \/ c = 52 \/ c = 53 \/
          c = 54 \/ c = 55 \/ c = 56 \/ c = 57)%N as Hc by lia;
  destruct Hc as [-> | [-> | [-> | [-> | [-> | [-> | [-> | [-> | [-> | ->]]]]]]]]];
  try (exfalso; lia); clear H.

Lemma py_int_one (a : char) (va : Z) :
  decimal a = Some va -> py_int decimal [a] = Ok va.
Proof.
  intros Ha. unfold py_int, strip.
  cbn [lstrip]. rewrite (decimal_not_space a va Ha).
  cbn [rev app lstrip]. rewrite (decimal_not_space a va Ha).
  cbn [rev app digits_value]. rewrite Ha. f_equal; lia.
Qed.

Lemma py_int_two (a b : char) (va vb : Z) :
  decimal a = Some va -> decimal b = Some vb ->
  py_int decimal [a; b] = Ok (10 * va + vb).
Proof.
  intros Ha Hb. unfold py_int, strip.
  cbn [lstrip]. rewrite (decimal_not_space a va Ha).
  cbn [rev app lstrip]. rewrite (decimal_not_space b vb Hb).
  cbn [rev app digits_value]. rewrite Ha, Hb. f_equal; lia.
Qed.

Lemma py_int_space_one (a : char) (va : Z) :
  decimal a = Some va -> py_int decimal [ch " "; a] = Ok va.
Proof.
  intros Ha. unfold py_int, strip.
  cbn [lstrip]. change (is_space (ch " ")) with true. cbn iota.
  rewrite (decimal_not_space a va Ha).
  cbn [rev app lstrip]. rewrite (decimal_not_space a va Ha).
  cbn [rev app digits_value]. rewrite Ha. f_equal; lia.
Qed.

Lemma py_int_four (a b c d : char) (va vb vc vd : Z) :
  decimal a = Some va -> decimal b = Some vb ->
  decimal c = Some vc -> decimal d = Some vd ->
  py_int decimal [a; b; c; d] = Ok (1000 * va + 100 * vb + 10 * vc + vd).
Proof.
  intros Ha Hb Hc Hd. unfold py_int, strip.
  cbn [lstrip]. rewrite (decimal_not_space a va Ha).
  cbn [rev app lstrip]. rewrite (decimal_not_space d vd Hd).
  cbn [rev app digits_value]. rewrite Ha, Hb, Hc, Hd. f_equal; lia.
Qed.

Lemma py_int_month (M : str) (m : Z) :
  month_text M m -> py_int decimal M = Ok m.
Proof.
  intros [c Hc | c Hc | c Hc].
  - apply py_int_one, decimal_digit. unfold is_digit. lia.
  - rewrite (py_int_two _ _ 0 (digit_value c)).
    + f_equal; lia.
    + now apply decimal_digit.
    + apply decimal_digit. unfold is_digit. lia.
  - rewrite (py_int_two _ _ 1 (digit_value c)).
    + f_equal; lia.
    + now apply decimal_digit.
    + apply decimal_digit. unfold is_digit. lia.
Qed.

Lemma py_int_day (D : str) (d : Z) :
  day_text decimal D d -> py_int decimal D = Ok d.
Proof.
  intros [c Hc | c Hc | c Hc | c x v Hc Hx | c Hc].
  - apply py_int_one, decimal_digit. unfold is_digit. lia.
  - rewrite (py_int_two _ _ 0 (digit_value c)).
    + f_equal; lia.
    + now apply decimal_digit.
    + apply decimal_digit. unfold is_digit. lia.
  - apply py_int_space_one, decimal_digit. unfold is_digit. lia.
  - apply py_int_two; [| exact Hx].
    apply decimal_digit. unfold is_digit. lia.
  - rewrite (py_int_two _ _ 3 (digit_value c)).
    + f_equal; lia.
    + now apply decimal_digit.
    + apply decimal_digit. unfold is_digit. lia.
Qed.

(** The year directive on four decimal digits of the table. *)
Lemma rmatch_year_digits (y1 y2 y3 y4 : char) (v1 v2 v3 v4 : Z) (tail : str) :
  decimal y1 = Some v1 -> decimal y2 = Some v2 ->
  decimal y3 = Some v3 -> decimal y4 = Some v4 ->
  rmatch decimal format_regex (y1 :: y2 :: y3 :: y4 :: tail)
  = List.map
      (fun m : rmatch_result =>
         let '(g, t, s') := m in
         ((lit "Y", [y1; y2; y3; y4]) :: g, [y1; y2; y3; y4] ++ t, s'))
      (rmatch decimal month_day_regex tail).
Proof.
  intros H1 H2 H3 H4. unfold format_regex, directive_Y.
  cbn [rmatch].
  rewrite H1. cbn [flat_map List.map app].
  rewrite H2. cbn [flat_map List.map app].
  rewrite H3. cbn [flat_map List.map app].
  rewrite H4. cbn [flat_map List.map app].
  rewrite app_nil_r.
  apply List.map_ext. now intros [[g t] s'].
Qed.

(** The month directive between its hyphens, before any pattern [rd]. *)
Lemma rmatch_month (M : str) (m : Z) (rd : regex) (tail : str) :
  month_text M m ->
  rmatch decimal
    (Cat (Chr (ch "-")) (Cat directive_m (Cat (Chr (ch "-")) rd)))
    (ch "-" :: M ++ ch "-" :: tail)
  = List.map
      (fun r : rmatch_result =>
         let '(g, t, s') := r in
         ((lit "m", M) :: g, ch "-" :: M ++ ch "-" :: t, s'))
      (rmatch decimal rd tail).
Proof.
  let r := eval vm_compute in directive_m in change directive_m with r.
  intros [c Hc | c Hc | c Hc]; numerals; one_of_digits c Hc;
    cbn; rewrite ?app_nil_r, !List.map_map;
    apply List.map_ext; now intros [[g t] s'].
Qed.

(** The day directive on a day text: the first match is the whole
    text. *)
Lemma rmatch_day (D : str) (d : Z) :
  day_text decimal D d ->
  exists l, rmatch decimal directive_d D = ([(lit "d", D)], D, []) :: l.
Proof.
  let r := eval vm_compute in directive_d in change directive_d with r.
  intros [c Hc | c Hc | c Hc | c x v Hc Hx | c Hc]; numerals;
    one_of_digits c Hc; cbn; rewrite ?Hx; cbn;
    eexists; reflexivity.
Qed.

(** On a year, a month text and a day text between hyphens [strptime]
    returns the date they spell when it is a real date and raises
    [ValueError] when it is not. *)
Lemma strptime_lax (y1 y2 y3 y4 : char) (v1 v2 v3 v4 : Z) (M D : str)
    (m d : Z) :
  decimal y1 = Some v1 -> decimal y2 = Some v2 ->
  decimal y3 = Some v3 -> decimal y4 = Some v4 ->
  month_text M m -> day_text decimal D d ->
  strptime decimal ([y1; y2; y3; y4] ++ ch "-" :: M ++ ch "-" :: D)
  = check_date_fields (1000 * v1 + 100 * v2 + 10 * v3 + v4) m d.
Proof.
  intros H1 H2 H3 H4 HM HD. unfold strptime. cbn [app].
  rewrite (rmatch_year_digits y1 y2 y3 y4 v1 v2 v3 v4 _ H1 H2 H3 H4).
  unfold month_day_regex. rewrite (rmatch_month M m directive_d D HM).
  destruct (rmatch_day D d HD) as [l ->]. cbn [List.map].
  change (group _ (lit "Y")) with (@Ok str [y1; y2; y3; y4]).
  change (group _ (lit "m")) with (@Ok str M).
  change (group _ (lit "d")) with (@Ok str D).
  cbn [rbind].
  rewrite (py_int_four y1 y2 y3 y4 v1 v2 v3 v4 H1 H2 H3 H4).
  rewrite (py_int_month M m HM), (py_int_day D d HD).
  reflexivity.
Qed.

(** A text on which [strptime] returns is a year, a month text and a day
    text between hyphens. *)
Lemma strptime_ok_shape (s : str) (ymd : Z * Z * Z) :
  strptime decimal s = Ok ymd ->
  exists y1 y2 y3 y4 v1 v2 v3 v4 M m D d,
    s = [y1; y2; y3; y4] ++ ch "-" :: M ++ ch "-" :: D /\
    decimal y1 = Some v1 /\ decimal y2 = Some v2 /\
    decimal y3 = Some v3 /\ decimal y4 = Some v4 /\
    month_text M m /\ day_text decimal D d.
Proof.
  intros Hs. apply lang_format.
  unfold strptime in Hs.
  destruct (rmatch decimal format_regex s) as [| [[g t] rest] l] eqn:Hm;
    [discriminate |].
  destruct rest; [| discriminate].
  assert (Hin : In (g, t, []) (rmatch decimal format_regex s))
    by (rewrite Hm; now left).
  rewrite (rmatch_split decimal _ _ _ _ _ Hin), app_nil_r.
  eapply rmatch_lang, Hin.
Qed.

Lemma validate_date_true_strptime (s : str) :
  validate_date decimal s = Ok true -> exists ymd, strptime decimal s = Ok ymd.
Proof.
  unfold validate_date.
  destruct (strptime decimal s) as [ymd | e]; [eauto |].
  destruct e; discriminate.
Qed.

Lemma validate_date_not_true (s : str) :
  validate_date decimal s <> Ok true -> validate_date decimal s = Ok false.
Proof.
  unfold validate_date.
  destruct (strptime decimal s) as [ymd | e] eqn:Hs; [congruence |].
  apply strptime_error in Hs as ->. reflexivity.
Qed.

(** X16.  The texts [validate_date] accepts are exactly the years of four
    decimal digits followed by a hyphen, a month written as 1 to 12 with
    or without a leading zero, a hyphen and a day written as 1 to 31 with
    or without a leading zero, or as a space and one digit, that together
    are a real date. *)
Lemma validate_date_accepted_texts (date_text : str) :
  validate_date decimal date_text = Ok true <-> accepted_text decimal date_text.
Proof.
  split.
  - intros Hv.
    destruct (validate_date_true_strptime _ Hv) as [ymd Hs].
    destruct (strptime_ok_shape _ _ Hs)
      as (y1 & y2 & y3 & y4 & v1 & v2 & v3 & v4 & M & m & D & d
          & -> & H1 & H2 & H3 & H4 & HM & HD).
    rewrite (strptime_lax y1 y2 y3 y4 v1 v2 v3 v4 M D m d
               H1 H2 H3 H4 HM HD) in Hs.
    exists y1, y2, y3, y4, v1, v2, v3, v4, M, m, D, d.
    repeat (split; [assumption || reflexivity |]).
    destruct (check_date_fields_real
                (1000 * v1 + 100 * v2 + 10 * v3 + v4) m d) as [_ Hnot].
    destruct (decide (real_date (1000 * v1 + 100 * v2 + 10 * v3 + v4) m d))
      as [Hr | Hr]; [exact Hr |].
    rewrite (Hnot Hr) in Hs. discriminate.
  - intros (y1 & y2 & y3 & y4 & v1 & v2 & v3 & v4 & M & m & D & d
            & -> & H1 & H2 & H3 & H4 & HM & HD & Hreal).
    unfold validate_date.
    rewrite (strptime_lax y1 y2 y3 y4 v1 v2 v3 v4 M D m d H1 H2 H3 H4 HM HD).
    now rewrite (proj1 (check_date_fields_real _ _ _) Hreal).
Qed.

Lemma month_text_length (M : str) (m : Z) :
  month_text M m -> (1 <= length M <= 2)%nat.
Proof. intros [c Hc | c Hc | c Hc]; cbn; lia. Qed.

Lemma day_text_length (D : str) (d : Z) :
  day_text decimal D d -> (1 <= length D <= 2)%nat.
Proof. intros [c Hc | c Hc | c Hc | c x v Hc Hx | c Hc]; cbn; lia. Qed.

(** X17.  Other separators and other orders of the fields are rejected:
    an accepted text begins with four decimal digits and a hyphen and is
    8 to 10 characters long, so a text whose fifth character is not a
    hyphen, such as a date written DD-MM-YYYY or with slashes, gets
    [False]. *)
Lemma validate_date_hyphen_after_year (date_text : str) :
  (validate_date decimal date_text = Ok true ->
   date_text !! 4%nat = Some (ch "-") /\
   (8 <= length date_text <= 10)%nat /\
   forall i c, (i < 4)%nat -> date_text !! i = Some c ->
               exists v, decimal c = Some v) /\
  (date_text !! 4%nat <> Some (ch "-") ->
   validate_date decimal date_text = Ok false).
Proof.
  assert (Hshape : validate_date decimal date_text = Ok true ->
                   date_text !! 4%nat = Some (ch "-") /\
                   (8 <= length date_text <= 10)%nat /\
                   forall i c, (i < 4)%nat -> date_text !! i = Some c ->
                               exists v, decimal c = Some v).
  { intros Hv. destruct (validate_date_true_strptime _ Hv) as [ymd Hs].
    destruct (strptime_ok_shape _ _ Hs)
      as (y1 & y2 & y3 & y4 & v1 & v2 & v3 & v4 & M & m & D & d
          & -> & H1 & H2 & H3 & H4 & HM & HD).
    apply month_text_length in HM. apply day_text_length in HD.
    split; [reflexivity |]. split.
    - cbn [app length]. rewrite length_app. cbn [length]. lia.
    - intros i c Hi Hc.
      destruct i as [| [| [| [| i]]]]; cbn in Hc; try lia;
        injection Hc as <-; eauto. }
  split; [exact Hshape |].
  intros Hno. apply validate_date_not_true. intros Hv.
  apply Hno, Hshape, Hv.
Qed.

(** X18.  The leap day: a text YYYY-02-29 is accepted exactly when the
    year is not 0000 and is divisible by 4 and not by 100, or divisible
    by 400. *)
Lemma validate_date_leap_day (y1 y2 y3 y4 : char) :
  is_digit y1 -> is_digit y2 -> is_digit y3 -> is_digit y4 ->
  let year := 1000 * digit_value y1 + 100 * digit_value y2
              + 10 * digit_value y3 + digit_value y4 in
  validate_date decimal
    [y1; y2; y3; y4; ch "-"; ch "0"; ch "2"; ch "-"; ch "2"; ch "9"]
  = Ok true
  <-> year <> 0 /\
      year mod 4 = 0 /\ (year mod 100 <> 0 \/ year mod 400 = 0).
Proof.
  intros Hy1 Hy2 Hy3 Hy4 year.
  assert (Hrun : strptime decimal
                   ([y1; y2; y3; y4] ++ ch "-" :: [ch "0"; ch "2"]
                    ++ ch "-" :: [ch "2"; ch "9"])
                 = check_date_fields year 2 29).
  { apply (strptime_lax y1 y2 y3 y4 _ _ _ _ [ch "0"; ch "2"]
             [ch "2"; ch "9"] 2 29); try now apply decimal_digit.
    - apply (month_leading_zero 50%N). lia.
    - apply (day_ten_to_twenty_nine decimal 50%N 57%N 9); [lia |].
      apply (decimal_digit 57%N). unfold is_digit. lia. }
  cbn [app] in Hrun. unfold validate_date. rewrite Hrun.
  assert (Hrange : 0 <= year <= 9999).
  { unfold is_digit, digit_value in *. subst year. lia. }
  clearbody year.
  assert (Hleap : real_date year 2 29 <->
                  year <> 0 /\ year mod 4 = 0 /\
                  (year mod 100 <> 0 \/ year mod 400 = 0)).
  { unfold real_date, days_in_month, is_leap.
    change (2 =? 2) with true. cbn [andb].
    change (nth (Z.to_nat 2) DAYS_IN_MONTH 0) with 28.
    destruct (Z.eqb_spec (year mod 4) 0) as [E4 | E4],
             (Z.eqb_spec (year mod 100) 0) as [E100 | E100],
             (Z.eqb_spec (year mod 400) 0) as [E400 | E400];
      cbn; lia. }
  rewrite <- Hleap.
  destruct (check_date_fields_real year 2 29) as [Hreal Hnot].
  split.
  - intros H.
    destruct (decide (real_date year 2 29)) as [Hr | Hr]; [exact Hr |].
    rewrite (Hnot Hr) in H. discriminate.
  - intros Hr. now rewrite (Hreal Hr).
Qed.

End Accepted.

(** The text 2023-1-5 with the table of the ASCII digits. *)
Lemma validate_date_accepted_texts_witness :
  validate_date ascii_decimal (lit "2023-1-5") = Ok true
  <-> accepted_text ascii_decimal (lit "2023-1-5").
Proof.
  apply (validate_date_accepted_texts ascii_decimal).
  intros c _. reflexivity.
Defined.

(** The leap day of the year 2000. *)
Lemma validate_date_leap_day_witness :
  validate_date ascii_decimal (lit "2000-02-29") = Ok true
  <-> 2000 <> 0 /\ 2000 mod 4 = 0 /\ (2000 mod 100 <> 0 \/ 2000 mod 400 = 0).
Proof.
  apply (validate_date_leap_day ascii_decimal
           (fun c _ => eq_refl) (ch "2") (ch "0") (ch "0") (ch "0"));
    unfold is_digit; cbn; lia.
Defined.

(** * Facts about the menu *)

Lemma frame_refl (F : str) (w : world) : frame F w w.
Proof.
  repeat split; [now exists [] | exists []; now rewrite app_nil_r].
Qed.

Lemma frame_trans (F : str) (w1 w2 w3 : world) :
  frame F w1 w2 -> frame F w2 w3 -> frame F w1 w3.
Proof.
  intros (Hd1 & [k1 Hi1] & [o1 Ho1]) (Hd2 & [k2 Hi2] & [o2 Ho2]).
  repeat split.
  - intros path Hp. now rewrite Hd2, Hd1.
  - exists (k1 ++ k2). now rewrite Hi1, Hi2, app_assoc.
  - exists (o1 ++ o2). now rewrite Ho2, Ho1, app_assoc.
Qed.

Lemma frame_stdin_length (F : str) (w w' : world) :
  frame F w w' -> (length (stdin w') <= length (stdin w))%nat.
Proof. intros (_ & [k ->] & _). rewrite length_app. lia. Qed.

Lemma pbind_Done {A B} (m : prog A) (k : A -> prog B) (w w' : world) (b : B) :
  pbind m k w = (Done b, w') ->
  exists a w1, m w = (Done a, w1) /\ k a w1 = (Done b, w').
Proof.
  unfold pbind. destruct (m w) as [[a | e | |] w1]; try discriminate. eauto.
Qed.

Lemma tame_pret (F : str) {A} (a : A) : tame F (pret a).
Proof. intros w. split; [apply frame_refl | discriminate]. Qed.

Lemma tame_pbind (F : str) {A B} (m : prog A) (k : A -> prog B) :
  tame F m -> (forall a, tame F (k a)) -> tame F (pbind m k).
Proof.
  intros Hm Hk w. destruct (Hm w) as [Hf Hn]. unfold pbind.
  destruct (m w) as [[a | e | |] w1]; cbn [fst snd] in *.
  - destruct (Hk a w1) as [Hf' Hn']. split; [| exact Hn'].
    eapply frame_trans; eassumption.
  - split; [exact Hf | discriminate].
  - split; [exact Hf | discriminate].
  - contradiction.
Qed.

Lemma tame_print (F text : str) : tame F (print text).
Proof.
  intros w. split; [| discriminate]. cbn.
  repeat split; [now exists [] | eauto].
Qed.

Lemma tame_input (F prompt : str) : tame F (input prompt).
Proof.
  intros w. unfold input. destruct (stdin w) as [| line lines] eqn:E;
    (split; [| discriminate]); cbn; rewrite ?E; repeat split; eauto.
  - now exists [].
  - now exists [line].
Qed.

Lemma tame_keeps_disk (F : str) {A} (m : io A) :
  (forall fs, snd (m fs) = fs) -> tame F (run_io m).
Proof.
  intros Hm w. unfold run_io. specialize (Hm (disk w)).
  destruct (m (disk w)) as [[a | e] fs]; cbn in Hm; subst fs;
    (split; [| discriminate]); cbn;
    repeat split; first [now exists [] | exists []; now rewrite app_nil_r].
Qed.

Lemma tame_run_result (F : str) {A} (r : result A) : tame F (run_result r).
Proof. apply tame_keeps_disk. reflexivity. Qed.

Lemma tame_run_call (F : str) {A} (call : fsys -> result A * wallet * fsys) :
  (forall fs path, path <> F -> snd (call fs) !! path = fs !! path) ->
  tame F (run_call call).
Proof.
  intros Hm w. unfold run_call. specialize (Hm (disk w)).
  destruct (call (disk w)) as [[[a | e] self] fs]; cbn in Hm;
    (split; [| discriminate]); cbn;
    repeat split; first [exact Hm | now exists []
                        | exists []; now rewrite app_nil_r].
Qed.

Lemma tame_run_out (F : str) {A} (m : st (list str) A) :
  (forall out, exists written, snd (m out) = out ++ written) ->
  tame F (run_out m).
Proof.
  intros Hm w. unfold run_out. destruct (Hm (stdout w)) as [written Hw].
  destruct (m (stdout w)) as [[a | e] out]; cbn [snd] in Hw; subst out;
    (split; [| discriminate]); cbn;
    repeat split; first [now exists [] | eauto].
Qed.

Section MenuFacts.

Variable lower : str -> str.
Variable float_repr : float -> str.
Variable json_loads : str -> result value.
Variable json_dumps : value -> str * option exn.
Variable decimal : char -> option Z.
Variable float_of_str : str -> option float.
Variable int_of_str : str -> option Z.

Lemma load_only_reads (path : str) (fs : fsys) :
  snd (Wallet_init json_loads path fs) = fs.
Proof.
  unfold Wallet_init, load_records, try_except, bind, read_file, lift.
  cbn [filename].
  destruct (fs !! path) as [[text | | e] |];
    [| reflexivity | now destruct e | reflexivity].
  destruct (json_loads text) as [data | e]; [| now destruct e].
  destruct (py_iter data) as [items | e]; cbn [rbind].
  - destruct (comprehension from_dict items) as [rs | e];
      [reflexivity | now destruct e].
  - now destruct e.
Qed.

Lemma tame_add_record (wlt : wallet) (r : record) :
  tame (filename wlt) (run_call (add_record json_dumps wlt r)).
Proof.
  apply tame_run_call. intros fs path Hp.
  destruct (add_record_run json_dumps wlt r fs) as (s & f & -> & Hw).
  now apply (written_frame json_dumps _ _ _ _ path Hw).
Qed.

Lemma tame_edit_record (wlt : wallet) (index : Z) (r : record) :
  tame (filename wlt) (run_call (edit_record json_dumps wlt index r)).
Proof.
  apply tame_run_call. intros fs path Hp.
  destruct (decide (0 <= index < Z.of_nat (length (records wlt))))
    as [Hin | Hout].
  - destruct (edit_record_in_range json_dumps wlt index r fs Hin)
      as (s & f & -> & Hw).
    now apply (written_frame json_dumps _ _ _ _ path Hw).
  - now rewrite (edit_record_out_of_range json_dumps _ _ _ _ Hout).
Qed.

Lemma display_balance_appends (wlt : wallet) (out : list str) :
  exists written,
    snd (display_balance lower float_repr wlt out) = out ++ written.
Proof.
  rewrite display_balance_run.
  match goal with
  | |- context [match ?r with Ok _ => _ | Raise _ => _ end] => destruct r
  end; cbn [snd]; [eauto |].
  exists []. now rewrite app_nil_r.
Qed.

Lemma tame_show_balance (F : str) (wlt : wallet) :
  tame F (show_balance lower float_repr wlt).
Proof. apply tame_run_out, display_balance_appends. Qed.

Lemma date_loop_frame (prompt date : str) (lines out : list str) :
  let '(r, lines', out') := date_loop decimal prompt date lines out in
  (exists taken, lines = taken ++ lines') /\
  (exists written, out' = out ++ written) /\ r <> OutOfFuel.
Proof.
  revert date out. induction lines as [| line lines IH]; intros date out;
    cbn [date_loop].
  - destruct (validate_date decimal date) as [[|] | e].
    + repeat split; [now exists [] | exists []; now rewrite app_nil_r
                    | discriminate].
    + repeat split; [now exists [] | eauto | discriminate].
    + repeat split; [now exists [] | exists []; now rewrite app_nil_r
                    | discriminate].
  - destruct (validate_date decimal date) as [[|] | e].
    + repeat split; [now exists [] | exists []; now rewrite app_nil_r
                    | discriminate].
    + specialize (IH line (out ++ [BAD_DATE ++ nl; prompt])).
      destruct (date_loop decimal prompt line lines
                  (out ++ [BAD_DATE ++ nl; prompt]))
        as [[r lines'] out'].
      destruct IH as ([k ->] & [o ->] & Hr). repeat split.
      * now exists (line :: k).
      * exists ([BAD_DATE ++ nl; prompt] ++ o). now rewrite app_assoc.
      * exact Hr.
    + repeat split; [now exists [] | exists []; now rewrite app_nil_r
                    | discriminate].
Qed.

Lemma tame_ask_valid_date (F prompt date : str) :
  tame F (ask_valid_date decimal prompt date).
Proof.
  intros w. unfold ask_valid_date.
  pose proof (date_loop_frame prompt date (stdin w) (stdout w)) as H.
  destruct (date_loop decimal prompt date (stdin w) (stdout w))
    as [[r lines'] out'].
  destruct H as (Hi & Ho & Hr). cbn. repeat split; assumption.
Qed.

Lemma tame_print_found (F : str) (position : nat) (found : list record) :
  tame F (print_found float_repr position found).
Proof.
  revert position. induction found as [| r found IH]; intros position;
    cbn [print_found].
  - apply tame_pret.
  - apply tame_pbind; [apply tame_run_result | intros line].
    apply tame_pbind; [apply tame_print | intros _; apply IH].
Qed.

Ltac tame_step :=
  first
    [ apply tame_pret | apply tame_print | apply tame_input
    | apply tame_run_result | apply tame_ask_valid_date
    | apply tame_print_found | apply tame_show_balance
    | apply tame_add_record | apply tame_edit_record
    | apply tame_pbind; [| intros ?]
    | match goal with
      | |- tame _ (if ?b then _ else _) => destruct b
      | |- tame _ (match ?x with _ => _ end) => destruct x
      end ].

Lemma reading_menu_round (wlt : wallet) :
  reading (filename wlt)
    (menu_round lower float_repr json_dumps decimal float_of_str int_of_str
       wlt).
Proof.
  assert (Hrest : forall w choice w1 (rest : prog (option wallet)) next w',
             input ASK_CHOICE w = (Done choice, w1) ->
             tame (filename wlt) rest ->
             rest w1 = (Done next, w') ->
             (length (stdin w') < length (stdin w))%nat).
  { intros w choice w1 rest next w' Hin Hrest Hrun.
    unfold input in Hin. destruct (stdin w) as [| line lines] eqn:E;
      [discriminate |].
    injection Hin as <- <-.
    destruct (Hrest (mkWorld (disk w) lines (stdout w ++ [ASK_CHOICE])))
      as [Hf _].
    rewrite Hrun in Hf. apply frame_stdin_length in Hf.
    cbn [snd stdin length] in Hf |- *. lia. }
  split.
  - unfold menu_round. cbv zeta. repeat tame_step.
  - intros w next w' Hrun. unfold menu_round in Hrun. cbv zeta in Hrun.
    apply pbind_Done in Hrun as ([] & w0 & Hprint & Hrun).
    apply pbind_Done in Hrun as (choice & w1 & Hin & Hrun).
    injection Hprint as <-.
    eapply (Hrest _ choice w1 _ next w') in Hin; [exact Hin | | exact Hrun].
    repeat tame_step.
Qed.

Lemma Done_disk {A} (m : prog A) (w : world) (r : outcome A) (w' : world) :
  keeps_disk m -> m w = (r, w') -> disk w' = disk w.
Proof. intros Hk H. specialize (Hk w). now rewrite H in Hk. Qed.

Lemma keeps_pret {A} (a : A) : keeps_disk (pret a).
Proof. now intros w. Qed.

Lemma keeps_pbind {A B} (m : prog A) (k : A -> prog B) :
  keeps_disk m -> (forall a, keeps_disk (k a)) -> keeps_disk (pbind m k).
Proof.
  intros Hm Hk w. specialize (Hm w). unfold pbind.
  destruct (m w) as [[a | e | |] w1]; cbn [snd] in *; try exact Hm.
  now rewrite Hk.
Qed.

Lemma keeps_print (text : str) : keeps_disk (print text).
Proof. now intros w. Qed.

Lemma keeps_input (prompt : str) : keeps_disk (input prompt).
Proof. intros w. unfold input. now destruct (stdin w). Qed.

Lemma keeps_run_result {A} (r : result A) : keeps_disk (run_result r).
Proof. intros w. now destruct r. Qed.

Lemma keeps_ask_valid_date (prompt date : str) :
  keeps_disk (ask_valid_date decimal prompt date).
Proof.
  intros w. unfold ask_valid_date.
  now destruct (date_loop decimal prompt date (stdin w) (stdout w))
    as [[r lines] out].
Qed.

Lemma keeps_print_found (position : nat) (found : list record) :
  keeps_disk (print_found float_repr position found).
Proof.
  revert position. induction found as [| r found IH]; intros position;
    cbn [print_found].
  - apply keeps_pret.
  - apply keeps_pbind; [apply keeps_run_result | intros line].
    apply keeps_pbind; [apply keeps_print | intros _; apply IH].
Qed.

Lemma keeps_show_balance (wlt : wallet) :
  keeps_disk (show_balance lower float_repr wlt).
Proof.
  intros w. unfold show_balance, run_out.
  now destruct (display_balance lower float_repr wlt (stdout w)) as [[u | e] out].
Qed.

Lemma date_loop_Done (prompt date : str) (lines out : list str)
    (entered : str) (lines' out' : list str) :
  date_loop decimal prompt date lines out = (Done entered, lines', out') ->
  validate_date decimal entered = Ok true.
Proof.
  revert date out. induction lines as [| line lines IH]; intros date out;
    cbn [date_loop];
    destruct (validate_date decimal date) as [[|] | e] eqn:Hv;
    intros H; try discriminate.
  - injection H as <- _ _. exact Hv.
  - injection H as <- _ _. exact Hv.
  - eapply IH, H.
Qed.

Lemma ask_valid_date_Done (prompt date : str) (w : world) (entered : str)
    (w' : world) :
  ask_valid_date decimal prompt date w = (Done entered, w') ->
  validate_date decimal entered = Ok true.
Proof.
  unfold ask_valid_date.
  destruct (date_loop decimal prompt date (stdin w) (stdout w))
    as [[r lines] out] eqn:E.
  intros H. injection H as -> _. eapply date_loop_Done, E.
Qed.

Lemma print_stdin (text : str) (w : world) (u : unit) (w' : world) :
  print text w = (Done u, w') -> stdin w' = stdin w.
Proof. intros H. injection H as _ <-. reflexivity. Qed.

Lemma input_head (prompt : str) (w : world) (line : str) (w' : world) :
  input prompt w = (Done line, w') -> head (stdin w) = Some line.
Proof.
  unfold input. destruct (stdin w) as [| l ls]; [discriminate |].
  intros H. injection H as <- _. reflexivity.
Qed.

Lemma print_last (text : str) (w : world) (u : unit) (w' : world) :
  print text w = (Done u, w') ->
  disk w' = disk w /\ last (stdout w') = Some (text ++ nl).
Proof.
  intros H. injection H as _ <-. cbn [disk stdout].
  split; [reflexivity | apply last_snoc].
Qed.

Lemma new_record_Done (entered category description : str) (amount : float)
    (w : world) (r : record) (w' : world) :
  validate_date decimal entered = Ok true ->
  run_result (Record_init (VStr entered) (VStr category) (VFloat amount)
                (VStr description)) w = (Done r, w') ->
  menu_record decimal r /\ disk w' = disk w.
Proof.
  intros Hv H. injection H as <- <-.
  split; [| reflexivity]. split; [exact Hv | now exists amount].
Qed.

Lemma run_call_Done {A} (call : fsys -> result A * wallet * fsys)
    (w : world) (called : A * wallet) (w' : world) :
  run_call call w = (Done called, w') ->
  call (disk w) = (Ok (fst called), snd called, disk w').
Proof.
  unfold run_call. destruct (call (disk w)) as [[[a | e] self] fs];
    [| discriminate].
  intros H. injection H as <- <-. reflexivity.
Qed.

Lemma add_record_Done (wlt : wallet) (r : record) (w : world)
    (added : unit * wallet) (w' : world) :
  run_call (add_record json_dumps wlt r) w = (Done added, w') ->
  snd added = set_records wlt (records wlt ++ [r]) /\
  persisted json_dumps (snd added) (disk w').
Proof.
  intros H. apply run_call_Done in H. destruct added as [[] wlt'].
  cbn [fst snd] in *. now apply add_record_returns in H.
Qed.

Lemma edit_record_Done (wlt : wallet) (index : Z) (r : record) (w : world)
    (edited : bool * wallet) (w' : world) :
  (0 <=? index) && (index <? Z.of_nat (length (records wlt))) = true ->
  run_call (edit_record json_dumps wlt index r) w = (Done edited, w') ->
  fst edited = true /\
  snd edited = set_records wlt (<[Z.to_nat index := r]> (records wlt)) /\
  persisted json_dumps (snd edited) (disk w') /\
  (Z.to_nat index < length (records wlt))%nat.
Proof.
  intros Hguard H. apply run_call_Done in H.
  apply index_guard in Hguard.
  destruct (edit_record_in_range json_dumps wlt index r (disk w) Hguard)
    as (saved & fs' & Hrun & Hw).
  rewrite Hrun in H. destruct saved as [[] | e]; [| discriminate H].
  injection H as <- <- <-.
  split; [reflexivity |]. split; [reflexivity |].
  split; [eapply written_persisted, Hw | lia].
Qed.

(** A round of the menu that returns has had the effect described by
    [round_effect]. *)
Lemma menu_round_effect (wlt : wallet) (w : world) (next : option wallet)
    (w' : world) :
  menu_round lower float_repr json_dumps decimal float_of_str int_of_str wlt w
  = (Done next, w') ->
  round_effect json_dumps decimal wlt w next w'.
Proof.
  intros Hrun. unfold menu_round in Hrun. cbv zeta in Hrun.
  apply pbind_Done in Hrun as (u0 & w0 & Hp0 & Hrun).
  apply pbind_Done in Hrun as (choice & w1 & Hi1 & Hrun).
  pose proof (input_head _ _ _ _ Hi1) as Hhead.
  rewrite (print_stdin _ _ _ _ Hp0) in Hhead.
  apply (Done_disk _ _ _ _ (keeps_print _)) in Hp0.
  apply (Done_disk _ _ _ _ (keeps_input _)) in Hi1.
  assert (Hd1 : disk w1 = disk w) by congruence. clear Hp0 Hi1 u0 w0.
  destruct (str_eqb choice (lit "1")).
  { apply pbind_Done in Hrun as (u & w2 & Hb & Hrun).
    apply (Done_disk _ _ _ _ (keeps_show_balance _)) in Hb.
    injection Hrun as <- <-. left. split; [reflexivity | congruence]. }
  destruct (str_eqb choice (lit "2")) eqn:E2.
  { apply str_eqb_eq in E2. rewrite E2 in Hhead.
    apply pbind_Done in Hrun as (date0 & w2 & H2 & Hrun).
    apply pbind_Done in Hrun as (entered & w3 & H3 & Hrun).
    apply pbind_Done in Hrun as (cat & w4 & H4 & Hrun).
    apply pbind_Done in Hrun as (amount_input & w5 & H5 & Hrun).
    pose proof (ask_valid_date_Done _ _ _ _ _ H3) as Hv.
    apply (Done_disk _ _ _ _ (keeps_input _)) in H2, H4, H5.
    apply (Done_disk _ _ _ _ (keeps_ask_valid_date _ _)) in H3.
    assert (Hd5 : disk w5 = disk w) by congruence.
    destruct (float_of_str amount_input) as [amount |].
    - apply pbind_Done in Hrun as (desc & w6 & H6 & Hrun).
      apply pbind_Done in Hrun as (r & w7 & H7 & Hrun).
      apply pbind_Done in Hrun as (added & w8 & H8 & Hrun).
      apply pbind_Done in Hrun as (u & w9 & H9 & Hrun).
      injection Hrun as <- <-.
      apply (new_record_Done _ _ _ _ _ _ _ Hv) in H7 as [Hr _].
      apply add_record_Done in H8 as [Hnew Hpers].
      apply print_last in H9 as [Hd9 Hlast].
      right. left. exists r. rewrite Hd9.
      split; [exact Hhead |]. split; [exact Hr |].
      split; [exact Hnew |]. split; [exact Hpers | exact Hlast].
    - apply pbind_Done in Hrun as (u & w6 & H6 & Hrun).
      apply (Done_disk _ _ _ _ (keeps_print _)) in H6.
      injection Hrun as <- <-. left. split; [reflexivity | congruence]. }
  destruct (str_eqb choice (lit "3")) eqn:E3.
  { apply str_eqb_eq in E3. rewrite E3 in Hhead.
    apply pbind_Done in Hrun as (index_input & w2 & H2 & Hrun).
    apply (Done_disk _ _ _ _ (keeps_input _)) in H2.
    destruct (int_of_str index_input) as [number |].
    - destruct ((0 <=? number - 1)
                && (number - 1 <? Z.of_nat (length (records wlt))))
        eqn:Hguard.
      + apply pbind_Done in Hrun as (date0 & w3 & H3 & Hrun).
        apply pbind_Done in Hrun as (entered & w4 & H4 & Hrun).
        apply pbind_Done in Hrun as (cat & w5 & H5 & Hrun).
        apply pbind_Done in Hrun as (amount_input & w6 & H6 & Hrun).
        pose proof (ask_valid_date_Done _ _ _ _ _ H4) as Hv.
        apply (Done_disk _ _ _ _ (keeps_input _)) in H3, H5, H6.
        apply (Done_disk _ _ _ _ (keeps_ask_valid_date _ _)) in H4.
        assert (Hd6 : disk w6 = disk w) by congruence.
        destruct (float_of_str amount_input) as [amount |].
        * apply pbind_Done in Hrun as (desc & w7 & H7 & Hrun).
          apply pbind_Done in Hrun as (r & w8 & H8 & Hrun).
          apply pbind_Done in Hrun as (edited & w9 & H9 & Hrun).
          apply pbind_Done in Hrun as (u & w10 & H10 & Hrun).
          injection Hrun as <- <-.
          apply (new_record_Done _ _ _ _ _ _ _ Hv) in H8 as [Hr _].
          apply (edit_record_Done _ _ _ _ _ _ Hguard) in H9
            as (Hok & Hnew & Hpers & Hlt).
          rewrite Hok in H10.
          apply print_last in H10 as [Hd10 Hlast].
          right. right. exists (Z.to_nat (number - 1)), r.
          rewrite Hd10. split; [exact Hhead |].
          split; [exact Hr |]. split; [exact Hlt |].
          split; [exact Hnew |]. split; [exact Hpers | exact Hlast].
        * apply pbind_Done in Hrun as (u & w7 & H7 & Hrun).
          apply (Done_disk _ _ _ _ (keeps_print _)) in H7.
          injection Hrun as <- <-. left. split; [reflexivity | congruence].
      + apply pbind_Done in Hrun as (u & w3 & H3 & Hrun).
        apply (Done_disk _ _ _ _ (keeps_print _)) in H3.
        injection Hrun as <- <-. left. split; [reflexivity | congruence].
    - apply pbind_Done in Hrun as (u & w3 & H3 & Hrun).
      apply (Done_disk _ _ _ _ (keeps_print _)) in H3.
      injection Hrun as <- <-. left. split; [reflexivity | congruence]. }
  destruct (str_eqb choice (lit "4")).
  { apply pbind_Done in Hrun as (term & w2 & H2 & Hrun).
    apply (Done_disk _ _ _ _ (keeps_input _)) in H2.
    apply pbind_Done in Hrun as (found_records & w3' & H3' & Hrun).
    apply (Done_disk _ _ _ _ (keeps_run_result _)) in H3'.
    destruct found_records as [| r0 found].
    - apply pbind_Done in Hrun as (u & w3 & H3 & Hrun).
      apply (Done_disk _ _ _ _ (keeps_print _)) in H3.
      injection Hrun as <- <-. left. split; [reflexivity | congruence].
    - apply pbind_Done in Hrun as (u & w3 & H3 & Hrun).
      apply (Done_disk _ _ _ _ (keeps_print_found _ _)) in H3.
      injection Hrun as <- <-. left. split; [reflexivity | congruence]. }
  destruct (str_eqb choice (lit "5")) eqn:E5.
  { apply pbind_Done in Hrun as (u & w2 & H2 & Hrun).
    apply print_last in H2 as [Hd2 Hlast].
    injection Hrun as <- <-. apply str_eqb_eq in E5. rewrite E5 in Hhead.
    split; [congruence |]. split; [exact Hhead | exact Hlast]. }
  apply pbind_Done in Hrun as (u & w2 & H2 & Hrun).
  apply (Done_disk _ _ _ _ (keeps_print _)) in H2.
  injection Hrun as <- <-. left. split; [reflexivity | congruence].
Qed.

Lemma grown_refl (wlt : wallet) : grown decimal wlt wlt.
Proof. split; [reflexivity |]. split; [lia | auto]. Qed.

Lemma grown_trans (wlt1 wlt2 wlt3 : wallet) :
  grown decimal wlt1 wlt2 -> grown decimal wlt2 wlt3 ->
  grown decimal wlt1 wlt3.
Proof.
  intros (Hf1 & Hl1 & Hr1) (Hf2 & Hl2 & Hr2).
  split; [congruence |]. split; [lia |].
  intros i r Hr. destruct (Hr2 i r Hr) as [H | H];
    [apply Hr1, H | now right].
Qed.

Lemma grown_append (wlt : wallet) (r : record) :
  menu_record decimal r ->
  grown decimal wlt (set_records wlt (records wlt ++ [r])).
Proof.
  intros Hr. split; [reflexivity |]. cbn [set_records records]. split.
  - rewrite length_app. lia.
  - intros i x Hx.
    apply lookup_snoc_Some in Hx as [[_ Hx] | [_ <-]]; auto.
Qed.

Lemma grown_insert (wlt : wallet) (i : nat) (r : record) :
  menu_record decimal r ->
  grown decimal wlt (set_records wlt (<[i := r]> (records wlt))).
Proof.
  intros Hr. split; [reflexivity |]. cbn [set_records records]. split.
  - rewrite length_insert. lia.
  - intros j x Hx.
    apply list_lookup_insert_Some in Hx as [(_ & <- & _) | [_ Hx]]; auto.
Qed.

Lemma round_grown (wlt : wallet) (w : world) (wlt' : wallet) (w' : world) :
  round_effect json_dumps decimal wlt w (Some wlt') w' ->
  grown decimal wlt wlt'.
Proof.
  intros [[-> _] | [(r & _ & Hr & -> & _) | (i & r & _ & Hr & _ & -> & _)]].
  - apply grown_refl.
  - now apply grown_append.
  - now apply grown_insert.
Qed.

(** The store file after a round: untouched with the wallet, or holding
    the records of the new wallet. *)
Lemma round_store (wlt : wallet) (w : world) (wlt' : wallet) (w' : world) :
  round_effect json_dumps decimal wlt w (Some wlt') w' ->
  (wlt' = wlt /\ disk w' = disk w) \/ persisted json_dumps wlt' (disk w').
Proof.
  intros [H | [(r & _ & _ & _ & Hp & _) | (i & r & _ & _ & _ & _ & Hp & _)]];
    auto.
Qed.

Lemma main_loop_tame (rounds : nat) (wlt : wallet) (w : world) :
  (length (stdin w) < rounds)%nat ->
  frame (filename wlt) w
    (snd (main_loop lower float_repr json_dumps decimal float_of_str
            int_of_str rounds wlt w)) /\
  fst (main_loop lower float_repr json_dumps decimal float_of_str
         int_of_str rounds wlt w) <> OutOfFuel.
Proof.
  revert wlt w. induction rounds as [| rounds IH]; intros wlt w Hlen;
    [lia |].
  cbn [main_loop]. unfold pbind.
  destruct (reading_menu_round wlt) as [Htame Hread].
  specialize (Htame w). specialize (Hread w).
  pose proof (menu_round_effect wlt w) as Heff.
  destruct (menu_round lower float_repr json_dumps decimal float_of_str
              int_of_str wlt w) as [[next | e | |] w1];
    cbn [fst snd] in Htame; destruct Htame as [Hf Hn].
  - specialize (Hread next w1 eq_refl). specialize (Heff next w1 eq_refl).
    destruct next as [wlt1 |].
    + apply round_grown in Heff as (Hname & _).
      destruct (IH wlt1 w1) as [Hf1 Hn1]; [lia |].
      rewrite Hname in Hf1. split; [| exact Hn1].
      eapply frame_trans; eassumption.
    + split; [exact Hf | discriminate].
  - split; [exact Hf | discriminate].
  - split; [exact Hf | discriminate].
  - contradiction.
Qed.

Lemma main_loop_fuel (n m : nat) (wlt : wallet) (w : world) :
  (length (stdin w) < n)%nat -> (length (stdin w) < m)%nat ->
  main_loop lower float_repr json_dumps decimal float_of_str int_of_str
    n wlt w
  = main_loop lower float_repr json_dumps decimal float_of_str int_of_str
      m wlt w.
Proof.
  revert m wlt w. induction n as [| n IH]; intros [| m] wlt w Hn Hm;
    try lia.
  cbn [main_loop]. unfold pbind.
  destruct (reading_menu_round wlt) as [_ Hread]. specialize (Hread w).
  destruct (menu_round lower float_repr json_dumps decimal float_of_str
              int_of_str wlt w) as [[[wlt1 |] | e | |] w1];
    try reflexivity.
  specialize (Hread _ _ eq_refl). apply IH; lia.
Qed.

(** What a run of the loop that returns has done. *)
Lemma main_loop_Done (rounds : nat) (wlt0 : wallet) (w : world)
    (wlt : wallet) (w' : world) :
  main_loop lower float_repr json_dumps decimal float_of_str int_of_str
    rounds wlt0 w = (Done wlt, w') ->
  grown decimal wlt0 wlt /\
  ((wlt = wlt0 /\ disk w' = disk w) \/ persisted json_dumps wlt (disk w')) /\
  In (lit "5") (stdin w) /\
  last (stdout w') = Some (BYE ++ nl).
Proof.
  revert wlt0 w. induction rounds as [| rounds IH]; intros wlt0 w Hrun;
    [discriminate |].
  cbn [main_loop] in Hrun.
  apply pbind_Done in Hrun as (next & w1 & Hround & Hrun).
  pose proof (menu_round_effect _ _ _ _ Hround) as Heff.
  destruct next as [wlt1 |].
  - destruct (IH _ _ Hrun) as (Hg & Hs & Hin & Hlast).
    destruct (reading_menu_round wlt0) as [Htame _].
    destruct (Htame w) as [(_ & [taken Htaken] & _) _].
    rewrite Hround in Htaken. cbn [snd] in Htaken.
    split; [eapply grown_trans; [eapply round_grown, Heff | exact Hg] |].
    split; [| split; [rewrite Htaken; apply in_or_app; now right
                     | exact Hlast]].
    destruct Hs as [[-> Hd'] | Hp']; [| now right].
    destruct (round_store _ _ _ _ Heff) as [[-> Hd] | Hp].
    + left. split; [reflexivity | congruence].
    + right. now rewrite Hd'.
  - injection Hrun as <- <-. destruct Heff as (Hd & Hhead & Hlast).
    split; [apply grown_refl |]. split; [now left |].
    split; [| exact Hlast].
    destruct (stdin w) as [| line lines]; [discriminate |].
    injection Hhead as ->. now left.
Qed.

Lemma Wallet_init_filename (path : str) (fs : fsys) (wlt : wallet) :
  fst (Wallet_init json_loads path fs) = Ok wlt -> filename wlt = path.
Proof.
  unfold Wallet_init, load_records, try_except, bind, read_file, lift.
  cbn [filename].
  destruct (fs !! path) as [[text | | e] |];
    [| discriminate
     | destruct e; intros H;
       first [discriminate | injection H as <-; reflexivity]
     | intros H; injection H as <-; reflexivity].
  destruct (json_loads text) as [data | e];
    [| destruct e; intros H;
       first [discriminate | injection H as <-; reflexivity]].
  destruct (py_iter data) as [items | e]; cbn [rbind].
  - destruct (comprehension from_dict items) as [rs | e].
    + intros H. injection H as <-. reflexivity.
    + destruct e; intros H;
        first [discriminate | injection H as <-; reflexivity].
  - destruct e; intros H;
      first [discriminate | injection H as <-; reflexivity].
Qed.

(** The start of [main]: the wallet is loaded, or the program stops with
    the exception of the load; the terminal and the file system are as
    before. *)
Lemma run_Wallet_init (path : str) (w : world) :
  run_io (Wallet_init json_loads path) w
  = (match fst (Wallet_init json_loads path (disk w)) with
     | Ok wlt => Done wlt
     | Raise e => Failed e
     end, w).
Proof.
  unfold run_io. pose proof (load_only_reads path (disk w)) as H.
  destruct (Wallet_init json_loads path (disk w)) as [[wlt | e] fs];
    cbn [fst snd] in *; subst fs; now destruct w.
Qed.

Lemma main_Done (w : world) (wlt : wallet) (w' : world) :
  main lower float_repr json_loads json_dumps decimal float_of_str
    int_of_str w = (Done wlt, w') ->
  exists wlt0,
    fst (Wallet_init json_loads (lit "wallet.txt") (disk w)) = Ok wlt0 /\
    main_loop lower float_repr json_dumps decimal float_of_str int_of_str
      (S (length (stdin w))) wlt0 w = (Done wlt, w').
Proof.
  unfold main, pbind. rewrite run_Wallet_init.
  destruct (fst (Wallet_init json_loads (lit "wallet.txt") (disk w)))
    as [wlt0 | e]; [| discriminate].
  intros H. now exists wlt0.
Qed.

(** X19.  One round of the menu that returns: after the choice 5 the file
    system is as before and the farewell is the last text written; after
    any other choice either the wallet and the file system are as
    before, or the choice was 2 and a record with a date [validate_date]
    accepts and a float amount was appended, or the choice was 3 and such
    a record took the place of an existing one, and in both cases the
    store file holds the new records and the confirmation is the last
    text written. *)
Theorem menu_round_outcome (wlt : wallet) (w : world)
    (next : option wallet) (w' : world) :
  menu_round lower float_repr json_dumps decimal float_of_str int_of_str
    wlt w = (Done next, w') ->
  round_effect json_dumps decimal wlt w next w'.
Proof. apply menu_round_effect. Qed.

(** X20.  The loop of [main] ends: each round takes a line, so a bound
    on the rounds above the number of lines to read is never reached, and
    a larger bound gives the same run. *)
Theorem main_loop_bound (rounds : nat) (wlt : wallet) (w : world) :
  (length (stdin w) < rounds)%nat ->
  fst (main_loop lower float_repr json_dumps decimal float_of_str
         int_of_str rounds wlt w) <> OutOfFuel /\
  forall more,
    main_loop lower float_repr json_dumps decimal float_of_str int_of_str
      (rounds + more) wlt w
    = main_loop lower float_repr json_dumps decimal float_of_str int_of_str
        rounds wlt w.
Proof.
  intros Hlen. split; [now apply main_loop_tame |].
  intros more. apply main_loop_fuel; lia.
Qed.

(** X21.  [main] ends with a return, an exception or the end of the
    input; it writes no file but [wallet.txt], takes lines only from the
    front of the input and only adds texts at the end of the output. *)
Theorem main_within_frame (w : world) :
  frame (lit "wallet.txt") w
    (snd (main lower float_repr json_loads json_dumps decimal float_of_str
            int_of_str w)) /\
  fst (main lower float_repr json_loads json_dumps decimal float_of_str
         int_of_str w) <> OutOfFuel.
Proof.
  unfold main, pbind. rewrite run_Wallet_init.
  destruct (fst (Wallet_init json_loads (lit "wallet.txt") (disk w)))
    as [wlt0 | e] eqn:E.
  - apply Wallet_init_filename in E. rewrite <- E.
    apply main_loop_tame. lia.
  - split; [apply frame_refl | discriminate].
Qed.

(** X22.  [main] returns only after the choice 5: when it returns, 5 is
    one of the lines of the input and the farewell is the last text
    written. *)
Theorem main_returns_after_exit (w : world) (wlt : wallet) (w' : world) :
  main lower float_repr json_loads json_dumps decimal float_of_str
    int_of_str w = (Done wlt, w') ->
  In (lit "5") (stdin w) /\ last (stdout w') = Some (BYE ++ nl).
Proof.
  intros H. apply main_Done in H as (wlt0 & _ & H).
  apply main_loop_Done in H as (_ & _ & Hin & Hlast). now split.
Qed.

(** X23.  [main] removes no record and moves none: when it returns, the
    wallet it ends with is on the file of the wallet loaded from
    [wallet.txt] and has at least as many records, and each of its
    positions holds the record loaded at that position or a record built
    by the menu, with a date [validate_date] accepts and a float amount;
    so a loaded record is still where it was unless the choice 3 put
    such a record in its place.  Either nothing was changed and the file
    system is as at the start, or the store file holds the records of the
    final wallet. *)
Theorem main_keeps_records (w : world) (wlt : wallet) (w' : world) :
  main lower float_repr json_loads json_dumps decimal float_of_str
    int_of_str w = (Done wlt, w') ->
  exists wlt0,
    fst (Wallet_init json_loads (lit "wallet.txt") (disk w)) = Ok wlt0 /\
    grown decimal wlt0 wlt /\
    ((wlt = wlt0 /\ disk w' = disk w) \/ persisted json_dumps wlt (disk w')).
Proof.
  intros H. apply main_Done in H as (wlt0 & Hload & H).
  apply main_loop_Done in H as (Hg & Hs & _). now exists wlt0.
Qed.

(** X24.  A store file that does not load stops [main] at once: the
    exception of the load ends the program before the menu is written or
    a line is read. *)
Theorem main_stops_on_bad_store (w : world) (e : exn) :
  fst (Wallet_init json_loads (lit "wallet.txt") (disk w)) = Raise e ->
  main lower float_repr json_loads json_dumps decimal float_of_str
    int_of_str w = (Failed e, w).
Proof.
  intros H. unfold main, pbind. rewrite run_Wallet_init, H. reflexivity.
Qed.

Lemma date_loop_first (prompt date : str) (lines out : list str)
    (entered : str) (lines' out' : list str) :
  date_loop decimal prompt date lines out = (Done entered, lines', out') ->
  exists refused,
    date :: lines = refused ++ entered :: lines' /\
    Forall (fun d => validate_date decimal d = Ok false) refused /\
    out' = out ++ flat_map (fun _ => [BAD_DATE ++ nl; prompt]) refused.
Proof.
  revert date out. induction lines as [| line lines IH]; intros date out;
    cbn [date_loop];
    destruct (validate_date decimal date) as [[|] | e] eqn:Hv;
    intros H; try discriminate.
  - injection H as <- <- <-. exists []. cbn [app flat_map].
    rewrite app_nil_r. auto.
  - injection H as <- <- <-. exists []. cbn [app flat_map].
    rewrite app_nil_r. auto.
  - apply IH in H as (refused & Hl & Hf & Ho). exists (date :: refused).
    cbn [app flat_map]. split; [now rewrite Hl |].
    split; [now constructor |]. now rewrite Ho, <- app_assoc.
Qed.

(** X25.  The loop that asks for a date returns the first line that
    [validate_date] accepts: the date first entered and the lines read
    before the returned one are all refused, each refusal writes the
    complaint and the prompt once, and nothing else is read or written. *)
Theorem ask_valid_date_first_accepted (prompt date : str) (w : world)
    (entered : str) (w' : world) :
  ask_valid_date decimal prompt date w = (Done entered, w') ->
  exists refused,
    date :: stdin w = refused ++ entered :: stdin w' /\
    Forall (fun d => validate_date decimal d = Ok false) refused /\
    validate_date decimal entered = Ok true /\
    stdout w'
    = stdout w ++ flat_map (fun _ => [BAD_DATE ++ nl; prompt]) refused /\
    disk w' = disk w.
Proof.
  intros H. pose proof (ask_valid_date_Done _ _ _ _ _ H) as Hv.
  unfold ask_valid_date in H.
  destruct (date_loop decimal prompt date (stdin w) (stdout w))
    as [[r lines] out] eqn:E.
  injection H as -> <-. cbn [stdin stdout disk].
  apply date_loop_first in E as (refused & Hl & Hf & Ho).
  exists refused. auto.
Qed.

End MenuFacts.

(** The first round of the session: the record is appended. *)
Lemma menu_round_outcome_witness :
  round_effect dumps_pretty ascii_decimal empty_wallet session
    (Some session_wallet)
    (snd (menu_round lower_basic repr_integral dumps_pretty
            ascii_decimal float_of_digits int_of_digits empty_wallet
            session)).
Proof.
  apply (menu_round_outcome lower_basic repr_integral dumps_pretty
           ascii_decimal float_of_digits int_of_digits).
  vm_compute. reflexivity.
Defined.

(** Eight rounds for the seven lines of the session. *)
Lemma main_loop_bound_witness :
  fst (main_loop lower_basic repr_integral dumps_pretty ascii_decimal
         float_of_digits int_of_digits 8 empty_wallet session)
  <> OutOfFuel /\
  forall more,
    main_loop lower_basic repr_integral dumps_pretty ascii_decimal
      float_of_digits int_of_digits (8 + more) empty_wallet session
    = main_loop lower_basic repr_integral dumps_pretty ascii_decimal
        float_of_digits int_of_digits 8 empty_wallet session.
Proof.
  apply (main_loop_bound lower_basic repr_integral dumps_pretty
           ascii_decimal float_of_digits int_of_digits 8 empty_wallet
           session).
  unfold session. cbn [stdin length]. lia.
Defined.

(** The session ends with the choice 5. *)
Lemma main_returns_after_exit_witness :
  In (lit "5") (stdin session) /\
  last (stdout (snd (main lower_basic repr_integral loads_small
                       dumps_pretty ascii_decimal float_of_digits
                       int_of_digits session)))
  = Some (BYE ++ nl).
Proof.
  apply (main_returns_after_exit lower_basic repr_integral loads_small
           dumps_pretty ascii_decimal float_of_digits int_of_digits
           session session_wallet).
  vm_compute. reflexivity.
Defined.

(** The session on a store that holds the salary record ends with that
    record and the one it added. *)
Lemma main_keeps_records_witness :
  exists wlt0,
    fst (Wallet_init loads_small (lit "wallet.txt") (disk stored_session))
    = Ok wlt0 /\
    grown ascii_decimal wlt0 stored_wallet /\
    ((stored_wallet = wlt0 /\
      disk (snd (main lower_basic repr_integral loads_small
                   dumps_pretty ascii_decimal float_of_digits
                   int_of_digits stored_session))
      = disk stored_session) \/
     persisted dumps_pretty stored_wallet
       (disk (snd (main lower_basic repr_integral loads_small
                     dumps_pretty ascii_decimal float_of_digits
                     int_of_digits stored_session)))).
Proof.
  apply (main_keeps_records lower_basic repr_integral loads_small
           dumps_pretty ascii_decimal float_of_digits int_of_digits
           stored_session stored_wallet).
  vm_compute. reflexivity.
Defined.

(** Two refused dates before an accepted one. *)
Lemma ask_valid_date_first_accepted_witness :
  exists refused,
    lit "05.01.2023" :: [lit "2023-13-01"; lit "2023-01-05"; lit "gift"]
    = refused ++ lit "2023-01-05" :: [lit "gift"] /\
    Forall (fun d => validate_date ascii_decimal d = Ok false) refused /\
    validate_date ascii_decimal (lit "2023-01-05") = Ok true /\
    [ASK_ADD_DATE; BAD_DATE ++ nl; ASK_DATE; BAD_DATE ++ nl; ASK_DATE]
    = [ASK_ADD_DATE]
      ++ flat_map (fun _ => [BAD_DATE ++ nl; ASK_DATE]) refused /\
    (∅ : fsys) = ∅.
Proof.
  apply (ask_valid_date_first_accepted ascii_decimal ASK_DATE
           (lit "05.01.2023")
           (mkWorld ∅ [lit "2023-13-01"; lit "2023-01-05"; lit "gift"]
              [ASK_ADD_DATE])
           (lit "2023-01-05")
           (mkWorld ∅ [lit "gift"]
              [ASK_ADD_DATE; BAD_DATE ++ nl; ASK_DATE; BAD_DATE ++ nl;
               ASK_DATE])).
  vm_compute. reflexivity.
Defined.

(** A store file with a number where a record is expected. *)
Lemma main_stops_on_bad_store_witness :
  main lower_basic repr_integral loads_small dumps_pretty
    ascii_decimal float_of_digits int_of_digits broken_store
  = (Failed TypeError, broken_store).
Proof.
  apply (main_stops_on_bad_store lower_basic repr_integral loads_small
           dumps_pretty ascii_decimal float_of_digits int_of_digits
           broken_store TypeError).
  vm_compute. reflexivity.
Defined.

(** * The examples of the test suite *)

Example test_code_points :
  income_label = [1076; 1086; 1093; 1086; 1076]%N /\
  expense_label = [1088; 1072; 1089; 1093; 1086; 1076]%N.
Proof. split; reflexivity. Qed.

Example test_record_initialization :
  Record_init (VStr (lit "2023-01-01")) (VStr (lit "Income"))
    (VFloat 1000) (VStr (lit "Salary")) = Ok salary.
Proof. reflexivity. Qed.

Example test_negative_amount :
  Record_init (VStr (lit "2023-01-01")) (VStr (lit "Expense"))
    (VFloat (-50)) (VStr (lit "Coffee"))
  = Ok (mkRecord (lit "2023-01-01") (lit "Expense") (NFloat (-50))
          (lit "Coffee")).
Proof. reflexivity. Qed.

Example test_record_string_representation :
  Record_str repr_integral salary
  = Ok (lit "2023-01-01 - Income - 1000.0 - Salary").
Proof. vm_compute. reflexivity. Qed.

(** The text [json.dump] writes for the salary record, with [34] the
    code of the double quote. *)
Example test_store_text :
  salary_store
  = lit "[" ++ nl ++
    lit "    {" ++ nl ++
    lit "        " ++ [34%N] ++ lit "date" ++ [34%N] ++ lit ": " ++
      [34%N] ++ lit "2023-01-01" ++ [34%N] ++ lit "," ++ nl ++
    lit "        " ++ [34%N] ++ lit "category" ++ [34%N] ++ lit ": " ++
      [34%N] ++ lit "Income" ++ [34%N] ++ lit "," ++ nl ++
    lit "        " ++ [34%N] ++ lit "amount" ++ [34%N] ++ lit ": 1000.0," ++
      nl ++
    lit "        " ++ [34%N] ++ lit "description" ++ [34%N] ++ lit ": " ++
      [34%N] ++ lit "Salary" ++ [34%N] ++ nl ++
    lit "    }" ++ nl ++
    lit "]".
Proof. vm_compute. reflexivity. Qed.

Example test_wallet_add_and_find_record :
  add_record dumps_pretty (mkWallet (lit "wallet.txt") []) salary
    {[ lit "wallet.txt" := Text (lit "[]") ]}
  = (Ok tt, mkWallet (lit "wallet.txt") [salary],
     {[ lit "wallet.txt" := Text salary_store ]}) /\
  find_records lower_basic repr_integral
    (mkWallet (lit "wallet.txt") [salary]) (lit "2023-01-01") = Ok [salary] /\
  find_records lower_basic repr_integral
    (mkWallet (lit "wallet.txt") [salary]) (lit "salary") = Ok [salary] /\
  find_records lower_basic repr_integral
    (mkWallet (lit "wallet.txt") [salary]) (lit "00.") = Ok [salary] /\
  find_records lower_basic repr_integral
    (mkWallet (lit "wallet.txt") [salary]) (lit "2023") = Ok [].
Proof. repeat split; vm_compute; reflexivity. Qed.

Example test_removing_a_record :
  fst (remove_record dumps_pretty
         (mkWallet (lit "wallet.txt") [salary; groceries]) 0 ∅)
  = (Ok true, mkWallet (lit "wallet.txt") [groceries]).
Proof. vm_compute. reflexivity. Qed.

Example test_editing_a_record :
  fst (edit_record dumps_pretty (mkWallet (lit "wallet.txt") [salary]) 0
         groceries ∅)
  = (Ok true, mkWallet (lit "wallet.txt") [groceries]) /\
  edit_record dumps_pretty (mkWallet (lit "wallet.txt") [salary]) 5
    groceries ∅
  = (Ok false, mkWallet (lit "wallet.txt") [salary], ∅) /\
  edit_record dumps_pretty (mkWallet (lit "wallet.txt") [salary]) (-1)
    groceries ∅
  = (Ok false, mkWallet (lit "wallet.txt") [salary], ∅).
Proof. repeat split; vm_compute; reflexivity. Qed.

Example test_load_records_from_empty_file :
  Wallet_init loads_small (lit "empty_wallet.txt")
    {[ lit "empty_wallet.txt" := Text [] ]}
  = (Ok (mkWallet (lit "empty_wallet.txt") []),
     {[ lit "empty_wallet.txt" := Text [] ]}).
Proof. vm_compute. reflexivity. Qed.

Example test_display_balance :
  display_balance lower_basic repr_integral
    (mkWallet (lit "wallet.txt")
       [mkRecord (lit "2023-01-01") (lit "Доход") (NFloat 1000) (lit "Salary");
        mkRecord (lit "2023-01-02") (lit "РАСХОД") (NInt 300) (lit "Rent");
        mkRecord (lit "2023-01-03") (lit "Income") (NFloat 7) (lit "Other")])
    []
  = (Ok tt, [balance_report (lit "700.0") (lit "1000.0") (lit "300")]).
Proof. lazy. reflexivity. Qed.

Example test_display_balance_overflow :
  display_balance lower_basic repr_integral
    (mkWallet (lit "wallet.txt")
       [mkRecord (lit "2023-01-01") (lit "доход") (NInt (2 ^ 1024)) (lit "a");
        mkRecord (lit "2023-01-02") (lit "доход") (NFloat 1) (lit "b")])
    []
  = (Raise OverflowError, []).
Proof. vm_compute. reflexivity. Qed.
